(** * The SOD library splitter (splitter7.py): a shallow embedding

    The splitter reads one C file, extracts its elements with regular
    expressions and line scans, assigns every element to a component,
    writes a header and an implementation file per component and runs a
    repair pass over the written files.

    Source text is modelled as [string]: a character is a code point
    below 256, and the character classes are Python's on these.  Python
    dictionaries whose iteration order matters ([output_files],
    [symbol_map], [Counter]) are association lists in insertion order.
    The written files are an association list from path to content. *)

From Stdlib Require Import String Ascii List Bool Arith NArith ZArith Lia Permutation.
From Stdlib Require Import DecimalString.
From Stdlib Require Import Sorted.
Import ListNotations.
Local Open Scope string_scope.
Local Open Scope list_scope.
Local Open Scope nat_scope.

(** String concatenation, Python's [+] on [str]. *)
Infix "+++" := String.append (at level 60, right associativity).

(** ** Python string operations *)

Module Py.

Definition code (c : ascii) : nat := nat_of_ascii c.

(** [str.isspace] on one character. *)
Definition isspace (c : ascii) : bool :=
  let n := code c in
  ((9 <=? n) && (n <=? 13)) || ((28 <=? n) && (n <=? 32))
  || (n =? 133) || (n =? 160).

Definition isdigit (c : ascii) : bool :=
  let n := code c in (48 <=? n) && (n <=? 57).

Definition isupper (c : ascii) : bool :=
  let n := code c in
  ((65 <=? n) && (n <=? 90)) || ((192 <=? n) && (n <=? 214))
  || ((216 <=? n) && (n <=? 222)).

Definition islower (c : ascii) : bool :=
  let n := code c in (97 <=? n) && (n <=? 122).

(** The class [\w] of the [re] module on [str]: the alphanumeric
    characters and the underscore. *)
Definition isword (c : ascii) : bool :=
  let n := code c in
  ((48 <=? n) && (n <=? 57)) || ((65 <=? n) && (n <=? 90)) || (n =? 95)
  || ((97 <=? n) && (n <=? 122)) || (n =? 170) || ((178 <=? n) && (n <=? 179))
  || (n =? 181) || ((185 <=? n) && (n <=? 186)) || ((188 <=? n) && (n <=? 190))
  || ((192 <=? n) && (n <=? 214)) || ((216 <=? n) && (n <=? 246))
  || ((248 <=? n) && (n <=? 255)).

Definition lower_char (c : ascii) : ascii :=
  if isupper c then ascii_of_nat (code c + 32) else c.

(** [upper] is only applied to component names, which are ASCII. *)
Definition upper_char (c : ascii) : ascii :=
  if islower c then ascii_of_nat (code c - 32) else c.

Fixpoint map_str (f : ascii -> ascii) (s : string) : string :=
  match s with
  | EmptyString => EmptyString
  | String c s' => String (f c) (map_str f s')
  end.

Definition lower (s : string) : string := map_str lower_char s.
Definition upper (s : string) : string := map_str upper_char s.

(** [s.startswith(p)] *)
Definition startswith (s p : string) : bool := String.prefix p s.

Fixpoint rev_onto (s acc : string) : string :=
  match s with
  | EmptyString => acc
  | String c s' => rev_onto s' (String c acc)
  end.

Definition rev_str (s : string) : string := rev_onto s EmptyString.

(** [s.endswith(p)] *)
Definition endswith (s p : string) : bool :=
  String.prefix (rev_str p) (rev_str s).

(** [sub in s] *)
Fixpoint contains (s sub : string) : bool :=
  if String.prefix sub s then true
  else match s with
       | EmptyString => false
       | String _ s' => contains s' sub
       end.

(** [x in l] for a list of strings. *)
Definition mem (x : string) (l : list string) : bool :=
  existsb (String.eqb x) l.

Fixpoint lstrip (s : string) : string :=
  match s with
  | String c s' => if isspace c then lstrip s' else s
  | EmptyString => EmptyString
  end.

Definition rstrip (s : string) : string := rev_str (lstrip (rev_str s)).

(** [s.strip()] *)
Definition strip (s : string) : string := rstrip (lstrip s).

(** [sep.join(l)] *)
Fixpoint join (sep : string) (l : list string) : string :=
  match l with
  | [] => EmptyString
  | [x] => x
  | x :: tl => x +++ sep +++ join sep tl
  end.

(** [s.split(c)] for a one-character separator: empty pieces are kept. *)
Fixpoint split_go (c : ascii) (s : string) (cur : string) : list string :=
  match s with
  | EmptyString => [rev_str cur]
  | String x s' =>
      if Ascii.eqb x c then rev_str cur :: split_go c s' EmptyString
      else split_go c s' (String x cur)
  end.

Definition split (c : ascii) (s : string) : list string :=
  split_go c s EmptyString.

(** Line boundaries of [str.splitlines]. *)
Definition islinebreak (c : ascii) : bool :=
  let n := code c in
  ((10 <=? n) && (n <=? 13)) || ((28 <=? n) && (n <=? 30)) || (n =? 133).

(** [s.splitlines()]: the line ends are dropped, a carriage return
    followed by a line feed is one boundary, and a final line end opens
    no empty last line. *)
Fixpoint splitlines_go (s : string) (cur : string) : list string :=
  match s with
  | EmptyString =>
      match cur with EmptyString => [] | _ => [rev_str cur] end
  | String x s' =>
      if islinebreak x then
        match x, s' with
        | "013"%char, String "010"%char s'' =>
            rev_str cur :: splitlines_go s'' EmptyString
        | _, _ => rev_str cur :: splitlines_go s' EmptyString
        end
      else splitlines_go s' (String x cur)
  end.

Definition splitlines (s : string) : list string :=
  splitlines_go s EmptyString.

(** [s.count(c)] for one character. *)
Fixpoint count_char (c : ascii) (s : string) : nat :=
  match s with
  | EmptyString => 0
  | String x s' => (if Ascii.eqb x c then 1 else 0) + count_char c s'
  end.

(** [s.find(c)] for one character; [None] is Python's [-1]. *)
Fixpoint find_char (c : ascii) (s : string) : option nat :=
  match s with
  | EmptyString => None
  | String x s' =>
      if Ascii.eqb x c then Some 0
      else option_map S (find_char c s')
  end.

(** [s.rindex(c)], used only where [c in s] was tested. *)
Fixpoint rfind_char (c : ascii) (s : string) : option nat :=
  match s with
  | EmptyString => None
  | String x s' =>
      match rfind_char c s' with
      | Some i => Some (S i)
      | None => if Ascii.eqb x c then Some 0 else None
      end
  end.

(** [s[:n]] and [s[n:]] *)
Definition take (n : nat) (s : string) : string := substring 0 n s.

Fixpoint drop (n : nat) (s : string) : string :=
  match n, s with
  | 0, _ => s
  | S n', String _ s' => drop n' s'
  | S _, EmptyString => EmptyString
  end.

(** [s[a:b]] for [0 <= a]. *)
Definition slice (a b : nat) (s : string) : string := take (b - a) (drop a s).

(** [s * n] *)
Fixpoint repeat_str (s : string) (n : nat) : string :=
  match n with
  | 0 => EmptyString
  | S n' => s +++ repeat_str s n'
  end.

Definition nl : string := String "010"%char EmptyString.

End Py.

(** ** Regular expressions

    A backtracking matcher for the fragment of Python's [re] syntax the
    splitter uses: literals, classes, [.], sequence, ordered alternation,
    greedy and lazy repetition, capture groups, [\b], start of string,
    negative lookahead and one-character negative lookbehind.  The first
    alternative and the longest (or, when lazy, the shortest) repetition
    are tried first, as in [re].  No repeated sub-pattern of the source
    matches the empty string; an iteration that consumes nothing is cut. *)

Module Re.

Inductive citem : Type :=
| COne (c : ascii)
| CRange (a b : ascii)
| CSpace
| CWord.

Definition citem_has (i : citem) (c : ascii) : bool :=
  match i with
  | COne x => Ascii.eqb x c
  | CRange a b => (Py.code a <=? Py.code c) && (Py.code c <=? Py.code b)
  | CSpace => Py.isspace c
  | CWord => Py.isword c
  end.

Definition class_has (neg : bool) (items : list citem) (c : ascii) : bool :=
  xorb neg (existsb (fun i => citem_has i c) items).

Inductive regex : Type :=
| Eps
| Chr (c : ascii)
| Cls (neg : bool) (items : list citem)
| Dot
| Seq (r1 r2 : regex)
| Alt (r1 r2 : regex)
| Star (greedy : bool) (r : regex)
| Grp (n : nat) (r : regex)
| WordB
| Bos
| NotAhead (r : regex)
| NotBehind (items : list citem).

(** Groups that took part in the match, with their text. *)
Definition caps : Type := list (nat * string).

Fixpoint set_cap (n : nat) (v : string) (c : caps) : caps :=
  match c with
  | [] => [(n, v)]
  | (i, x) :: tl => if Nat.eqb i n then (i, v) :: tl else (i, x) :: set_cap n v tl
  end.

Fixpoint get_cap (n : nat) (c : caps) : option string :=
  match c with
  | [] => None
  | (i, x) :: tl => if Nat.eqb i n then Some x else get_cap n tl
  end.

(** A position in the subject: offset, the character before it and the
    text after it. *)
Record cursor : Type := mkCursor {
  c_pos : N;
  c_prev : option ascii;
  c_rest : list ascii
}.

Definition is_word_opt (o : option ascii) : bool :=
  match o with Some c => Py.isword c | None => false end.

Definition at_word_boundary (cu : cursor) : bool :=
  xorb (is_word_opt (c_prev cu)) (is_word_opt (hd_error (c_rest cu))).

Definition step_if (p : ascii -> bool) (cu : cursor) : option cursor :=
  match c_rest cu with
  | x :: tl => if p x then Some (mkCursor (N.succ (c_pos cu)) (Some x) tl) else None
  | [] => None
  end.

Definition text_between (a b : cursor) : string :=
  string_of_list_ascii (firstn (N.to_nat (c_pos b - c_pos a)) (c_rest a)).

Definition or_else {A} (x y : option A) : option A :=
  match x with Some _ => x | None => y end.

(** [run r cu c k]: match [r] at [cu] and hand every way of matching,
    in priority order, to the continuation [k] until one is accepted. *)
Fixpoint run {R : Type} (r : regex) (cu : cursor) (c : caps)
    (k : cursor -> caps -> option R) {struct r} : option R :=
  match r with
  | Eps => k cu c
  | Chr a =>
      match step_if (Ascii.eqb a) cu with Some cu' => k cu' c | None => None end
  | Cls neg items =>
      match step_if (class_has neg items) cu with
      | Some cu' => k cu' c | None => None end
  | Dot =>
      match step_if (fun x => negb (Ascii.eqb x "010"%char)) cu with
      | Some cu' => k cu' c | None => None end
  | Seq r1 r2 => run r1 cu c (fun cu' c' => run r2 cu' c' k)
  | Alt r1 r2 => or_else (run r1 cu c k) (run r2 cu c k)
  | Star greedy r1 =>
      (fix loop (fuel : nat) (cu0 : cursor) (c0 : caps) {struct fuel} : option R :=
         match fuel with
         | 0 => k cu0 c0
         | S fuel' =>
             let more :=
               run r1 cu0 c0 (fun cu' c' =>
                 if (c_pos cu0 <? c_pos cu')%N then loop fuel' cu' c' else None) in
             if greedy then or_else more (k cu0 c0)
             else or_else (k cu0 c0) more
         end) (S (length (c_rest cu))) cu c
  | Grp n r1 =>
      run r1 cu c (fun cu' c' => k cu' (set_cap n (text_between cu cu') c'))
  | WordB => if at_word_boundary cu then k cu c else None
  | Bos => if (c_pos cu =? 0)%N then k cu c else None
  | NotAhead r1 =>
      match run r1 cu c (fun _ _ => Some tt) with
      | Some _ => None
      | None => k cu c
      end
  | NotBehind items =>
      match c_prev cu with
      | Some x => if class_has false items x then None else k cu c
      | None => k cu c
      end
  end.

(** A match object: [start()], [end()], the groups, and where the scan
    goes on. *)
Record mobj : Type := mkMatch {
  m_start : N;
  m_end : N;
  m_text : string;
  m_caps : caps;
  m_after : cursor
}.

Definition group (m : mobj) (n : nat) : option string := get_cap n (m_caps m).

(** A group that did not take part reads as the empty string where the
    source concatenates or substitutes it. *)
Definition group_str (m : mobj) (n : nat) : string :=
  match group m n with Some s => s | None => EmptyString end.

(** One attempt at the cursor; [must_advance] refuses an empty match. *)
Definition match_at (r : regex) (cu : cursor) (must_advance : bool) : option mobj :=
  run r cu [] (fun cu' c' =>
    if must_advance && (c_pos cu' =? c_pos cu)%N then None
    else Some (mkMatch (c_pos cu) (c_pos cu') (text_between cu cu') c' cu')).

(** Leftmost match at or after the cursor. *)
Fixpoint search_from (r : regex) (pos : N) (prev : option ascii)
    (rest : list ascii) (must_advance : bool) : option mobj :=
  match match_at r (mkCursor pos prev rest) must_advance with
  | Some m => Some m
  | None =>
      match rest with
      | [] => None
      | x :: tl => search_from r (N.succ pos) (Some x) tl false
      end
  end.

Definition start_cursor (s : string) : cursor :=
  mkCursor 0%N None (list_ascii_of_string s).

(** [re.search(r, s)] *)
Definition search (r : regex) (s : string) : option mobj :=
  search_from r 0%N None (list_ascii_of_string s) false.

(** [re.match(r, s)] *)
Definition match_ (r : regex) (s : string) : option mobj :=
  match_at r (start_cursor s) false.

Definition found {A} (o : option A) : bool :=
  match o with Some _ => true | None => false end.

(** The successive non-overlapping matches, left to right; after an
    empty match the next one has to advance. *)
Fixpoint finditer_go (fuel : nat) (r : regex) (cu : cursor) (must_advance : bool)
    : list mobj :=
  match fuel with
  | 0 => []
  | S fuel' =>
      match search_from r (c_pos cu) (c_prev cu) (c_rest cu) must_advance with
      | None => []
      | Some m =>
          m :: finditer_go fuel' r (m_after m) (m_end m =? m_start m)%N
      end
  end.

(** [re.finditer(r, s)] *)
Definition finditer (r : regex) (s : string) : list mobj :=
  finditer_go (2 * String.length s + 2) r (start_cursor s) false.

(** [len(re.findall(r, s))] *)
Definition count (r : regex) (s : string) : nat := List.length (finditer r s).

(** Replacement templates: text and group references. *)
Inductive titem : Type :=
| TText (s : string)
| TRef (n : nat).

Fixpoint expand (t : list titem) (m : mobj) : string :=
  match t with
  | [] => EmptyString
  | TText s :: tl => s +++ expand tl m
  | TRef n :: tl => group_str m n +++ expand tl m
  end.

Fixpoint sub_go (t : list titem) (ms : list mobj) (s : string) (cur : nat) : string :=
  match ms with
  | [] => Py.drop cur s
  | m :: tl =>
      Py.slice cur (N.to_nat (m_start m)) s +++ expand t m
        +++ sub_go t tl s (N.to_nat (m_end m))
  end.

(** [re.sub(r, t, s)] *)
Definition sub (r : regex) (t : list titem) (s : string) : string :=
  sub_go t (finditer r s) s 0.

(** *** Pattern builders *)

Fixpoint lit (s : string) : regex :=
  match s with
  | EmptyString => Eps
  | String c EmptyString => Chr c
  | String c s' => Seq (Chr c) (lit s')
  end.

Fixpoint seqs (l : list regex) : regex :=
  match l with
  | [] => Eps
  | [r] => r
  | r :: tl => Seq r (seqs tl)
  end.

Fixpoint alts (l : list regex) : regex :=
  match l with
  | [] => Eps
  | [r] => r
  | r :: tl => Alt r (alts tl)
  end.

(** [r*], [r+], [r?] and their lazy forms [r*?], [r+?]. *)
Definition star (r : regex) : regex := Star true r.
Definition plus (r : regex) : regex := Seq r (Star true r).
Definition opt (r : regex) : regex := Alt r Eps.
Definition star_lazy (r : regex) : regex := Star false r.
Definition plus_lazy (r : regex) : regex := Seq r (Star false r).

(** [\s], [\w], [[a-zA-Z_]], [[a-zA-Z0-9_]] and the identifier
    [[a-zA-Z_][a-zA-Z0-9_]*]. *)
Definition ws : regex := Cls false [CSpace].
Definition word : regex := Cls false [CWord].
Definition az_ : list citem :=
  [CRange "a" "z"; CRange "A" "Z"; COne "_"]%char.
Definition az09_ : list citem :=
  [CRange "a" "z"; CRange "A" "Z"; CRange "0" "9"; COne "_"]%char.
Definition ident : regex := Seq (Cls false az_) (star (Cls false az09_)).
Definition none_of (s : string) : regex :=
  Cls true (map COne (list_ascii_of_string s)).
Definition one_of (s : string) : regex :=
  Cls false (map COne (list_ascii_of_string s)).

End Re.

(** ** The splitter: data model and static configuration *)

Module Splitter.
Import Re.

(** The [type] tag of an [Element]; ['declaration'] is the tag of the
    prototypes made for the headers. *)
Inductive etype : Type :=
| TComment | TInclude | TEnum | TConditional | TFunction
| TStruct | TGlobal | TTypedef | TMacro | TDeclaration.

Definition etype_eqb (a b : etype) : bool :=
  match a, b with
  | TComment, TComment | TInclude, TInclude | TEnum, TEnum
  | TConditional, TConditional | TFunction, TFunction
  | TStruct, TStruct | TGlobal, TGlobal | TTypedef, TTypedef
  | TMacro, TMacro | TDeclaration, TDeclaration => true
  | _, _ => false
  end.

(** [Element = namedtuple('Element', name type content start end deps)];
    [deps] is a set, kept as a duplicate-free list. *)
Record Element : Type := mkElement {
  name : string;
  type : etype;
  content : string;
  start : nat;
  end_ : nat;
  deps : list string
}.

(** [e1 == e2] on named tuples: all fields are compared. *)
Definition elem_eqb (a b : Element) : bool :=
  String.eqb (name a) (name b) && etype_eqb (type a) (type b)
  && String.eqb (content a) (content b)
  && Nat.eqb (start a) (start b) && Nat.eqb (end_ a) (end_ b)
  && (forallb (fun d => Py.mem d (deps b)) (deps a)
      && forallb (fun d => Py.mem d (deps a)) (deps b)).

(** [e in l] *)
Definition elem_in (e : Element) (l : list Element) : bool :=
  existsb (elem_eqb e) l.

Definition COMMON_TYPES : list string :=
  [ "network"; "layer"; "tree"; "box"; "sod_cnn"; "sod_img"; "sod_box";
    "sod_pts"; "SyBlob"; "SySet"; "SyString"; "sod_vfs";
    "sod_label_coord"; "sod_config_layer"; "IplImage"; "CvCapture";
    "local_layer"; "cost_layer"; "avgpool_layer"; "connected_layer";
    "convolutional_layer"; "detection_layer"; "dropout_layer";
    "maxpool_layer"; "route_layer"; "softmax_layer"; "crop_layer";
    "network_state"; "size_params"; "HANDLE"; "WIN32_FIND_DATAW" ].

Definition COMMON_ENUMS : list string :=
  [ "SOD_CNN_LAYER_TYPE"; "ACTIVATION"; "COST_TYPE"; "learning_rate_policy";
    "SOD_REALNET_NET_TYPE"; "SOD_TR_SAMPLE_TYPE" ].

Definition REQUIRED_CONSTANTS : list string :=
  [ "SOD_OK"; "SOD_UNSUPPORTED"; "SOD_OUTOFMEM"; "SOD_ABORT";
    "SOD_IOERR"; "SOD_LIMIT"; "SOD_APIEXPORT";
    "MIN"; "MAX"; "TWO_PI" ].

Definition STANDARD_HEADERS : list string :=
  [ "<stdlib.h>"; "<stdint.h>"; "<stddef.h>"; "<string.h>";
    "<math.h>"; "<float.h>"; "<stdio.h>" ].

(** The double quote, and a text given line by line (each line ended). *)
Definition dq : string := String (ascii_of_nat 34) EmptyString.

Fixpoint text (ls : list string) : string :=
  match ls with
  | [] => EmptyString
  | l :: tl => l +++ Py.nl +++ text tl
  end.

Definition SOD_API_EXPORT_MACRO : string :=
  text [ "";
         "/* Define SOD API export macro if not already defined */";
         "#ifndef SOD_APIEXPORT";
         "#ifdef _WIN32";
         "  #ifdef SOD_STATIC";
         "    #define SOD_APIEXPORT ";
         "  #else";
         "    #ifdef SOD_BUILD";
         "      #define SOD_APIEXPORT __declspec(dllexport)";
         "    #else";
         "      #define SOD_APIEXPORT __declspec(dllimport)";
         "    #endif";
         "  #endif";
         "#else";
         "  #define SOD_APIEXPORT";
         "#endif";
         "#endif /* SOD_APIEXPORT */" ].

Definition REQUIRED_TYPEDEFS : string :=
  text [ "";
         "/* Basic SOD data types */";
         "typedef int sod_status;";
         "";
         "/* Function pointer types */";
         "typedef void (*ProcRnnCallback)(void *, int, float);";
         "typedef void (*ProcLogCallback)(void *, int, const char *);";
         "typedef int (*ProcLayerLoad)(void *, const char *);";
         "typedef int (*ProcLayerExec)(void *, int);";
         "typedef void (*ProcLayerRelease)(void *);" ].

(** ** Module Classifier *)

(** [any(p(x) for x in l)] *)
Definition any {A} (p : A -> bool) (l : list A) : bool := existsb p l.

(** [_determine_function_component(func_name, content)] *)
Definition _determine_function_component (func_name body : string) : string :=
  if Py.startswith func_name "forward_" || Py.startswith func_name "backward_" then
    if Py.contains func_name "softmax" then "softmax_impl"
    else if Py.contains func_name "batchnorm" then "batchnorm_impl"
    else if Py.contains func_name "connected" then "connected_impl"
    else if Py.contains func_name "convolutional" then "convolutional"
    else if Py.contains func_name "local" then "local_layer"
    else if Py.contains func_name "cost" then "cost_layer"
    else if Py.contains func_name "route" then "route_layer"
    else "nn_utils"
  else if Py.startswith func_name "make_" then
    if Py.contains func_name "softmax" then "softmax_impl"
    else if Py.contains func_name "batchnorm" then "batchnorm_impl"
    else if Py.contains func_name "connected" then "connected_impl"
    else if Py.contains func_name "local" then "local_layer"
    else if Py.contains func_name "cost" then "cost_layer"
    else if Py.contains func_name "route" then "route_layer"
    else "nn_utils"
  else if any (Py.startswith func_name)
            [ "relu_"; "logistic_"; "tanh_"; "elu_"; "leaky_";
              "activate"; "gradient"; "stair_"; "hardtan_";
              "lhtan_"; "relie_"; "ramp_"; "plse_"; "loggy_" ] then "activation"
  else if Py.startswith func_name "SyBlob" || Py.startswith func_name "SySet"
          || Py.startswith func_name "SyString" then "data_structures"
  else if Py.startswith func_name "UnixVfs" || Py.startswith func_name "WinVfs"
          || Py.startswith func_name "UnixDir" || Py.startswith func_name "WinDir" then "vfs"
  else if Py.contains (Py.lower func_name) "box" then "box_utils"
  else if any (Py.contains (Py.lower func_name)) [ "img"; "image" ] then "img_utils"
  else if any (Py.endswith func_name) [ "_cpu" ] then "cpu_utils"
  else if Py.contains (Py.lower func_name) "rnn" || Py.contains (Py.lower func_name) "gru"
          || Py.contains (Py.lower func_name) "lstm" then "rnn"
  else if Py.contains (Py.lower func_name) "cnn" then "cnn"
  else if Py.contains (Py.lower func_name) "detect"
          || Py.contains (Py.lower func_name) "realnet" then "detection"
  else if any (Py.startswith func_name) [ "parse_"; "option_"; "load_" ] then "cfg_parser"
  else "nn_utils".

(** [_determine_struct_component(struct_name, content)] *)
Definition _determine_struct_component (struct_name body : string) : string :=
  if Py.mem struct_name [ "layer"; "network"; "network_state"; "size_params" ] then "nn_types"
  else if Py.mem struct_name [ "SyBlob"; "SySet"; "SyString" ] then "data_structures"
  else if String.eqb struct_name "box" || Py.contains (Py.lower struct_name) "box" then "box_utils"
  else if Py.contains (Py.lower struct_name) "img"
          || Py.contains (Py.lower struct_name) "image" then "img_utils"
  else if Py.contains (Py.lower struct_name) "vfs" then "vfs"
  else if Py.contains (Py.lower struct_name) "cnn" then "cnn"
  else if Py.contains (Py.lower struct_name) "detect"
          || Py.contains (Py.lower struct_name) "realnet" then "detection"
  else if any (Py.contains (Py.lower struct_name)) [ "config"; "list"; "section"; "node" ]
    then "cfg_parser"
  else "data_structures".

(** [_determine_global_component(global_name, content)] *)
Definition _determine_global_component (global_name body : string) : string :=
  if any (Py.contains global_name) [ "weights"; "biases"; "scales"; "rolling"; "adam" ]
    then "nn_utils"
  else if any (Py.contains global_name) [ "activate"; "gradient" ] then "activation"
  else if any (Py.contains (Py.lower global_name)) [ "img"; "image"; "pixel" ] then "img_utils"
  else if any (Py.contains (Py.lower global_name)) [ "detect"; "box"; "anchor" ] then "detection"
  else if any (Py.contains (Py.lower global_name)) [ "file"; "dir"; "path" ] then "vfs"
  else if Py.contains (Py.lower global_name) "cnn" then "cnn"
  else "common".

(** [_determine_enum_component(enum_name, content)] *)
Definition _determine_enum_component (enum_name body : string) : string :=
  if any (Py.contains enum_name) [ "ACTIVATION"; "COST_TYPE"; "layer_type" ] then "nn_types"
  else if Py.contains enum_name "CNN" then "cnn"
  else if any (Py.contains enum_name) [ "REALNET"; "TR_SAMPLE" ] then "detection"
  else "common".

(** [_determine_typedef_component(typedef_name, content)] *)
Definition _determine_typedef_component (typedef_name body : string) : string :=
  if any (Py.contains typedef_name) [ "network"; "layer"; "cost"; "activation" ] then "nn_types"
  else if any (Py.contains typedef_name) [ "Sy"; "blob"; "set"; "string" ] then "data_structures"
  else if any (Py.contains (Py.lower typedef_name)) [ "img"; "image"; "ipl" ] then "img_utils"
  else if any (Py.contains (Py.lower typedef_name)) [ "detect"; "box"; "pts" ] then "detection"
  else if any (Py.contains (Py.lower typedef_name)) [ "vfs"; "file"; "dir" ] then "vfs"
  else "common".

(** [_determine_macro_component(macro_name, content)] *)
Definition _determine_macro_component (macro_name body : string) : string :=
  if Py.mem macro_name REQUIRED_CONSTANTS then "common"
  else if any (Py.contains macro_name) [ "LAYER"; "ACTIVATION"; "WEIGHT" ] then "nn_types"
  else if any (Py.contains (Py.lower macro_name)) [ "img"; "image"; "pixel" ] then "img_utils"
  else if any (Py.contains macro_name) [ "BOX"; "DETECT"; "CNN" ] then "detection"
  else if any (Py.contains macro_name) [ "FILE"; "DIR"; "PATH" ] then "vfs"
  else "common".

(** The component chosen in the loop bodies of [_map_functions],
    [_map_structs], [_map_enums], [_map_typedefs], [_map_globals] and
    [_map_macros]. *)
Definition function_component (e : Element) : string :=
  _determine_function_component (name e) (content e).

Definition struct_component (e : Element) : string :=
  _determine_struct_component (name e) (content e).

Definition enum_component (e : Element) : string :=
  if Py.mem (name e) COMMON_ENUMS then "common"
  else _determine_enum_component (name e) (content e).

Definition typedef_component (e : Element) : string :=
  if Py.endswith (name e) "_layer" then "nn_types"
  else if Py.mem (name e) COMMON_TYPES then "common"
  else _determine_typedef_component (name e) (content e).

Definition global_component (e : Element) : string :=
  _determine_global_component (name e) (content e).

Definition macro_component (e : Element) : string :=
  if Py.mem (name e) REQUIRED_CONSTANTS then "common"
  else _determine_macro_component (name e) (content e).

(** ** Splitter state *)

(** An entry of [symbol_map].  [component] is absent until the mapping
    pass sets it; [used_in] is created empty and never filled. *)
Record info : Type := mkInfo {
  i_type : etype;
  is_function_like : option bool;
  used_in : list string;
  component : option string
}.

(** What the run prints, as far as the claims speak of it. *)
Inductive event : Type :=
| WarnUnterminatedConditional (line : nat) (directive : string)
| WarnFunctionSkipped (func_name : string)
| WarnUnbalanced (path : string) (open_directives close_directives : nat)
| FixedByAddingEndif (path : string) (n : nat)
| WarnMoreEndif (path : string)
| WarnIssue (what path : string)
| FixedIssues (path : string)
| ErrorDuringProcessing
| Traceback
| SkippingVerification
| ErrorStrict
| Interrupted
| CompletedSuccessfully.

(** Insertion-ordered dictionaries. *)
Section Dict.
Context {V : Type}.

Fixpoint dict_get (k : string) (d : list (string * V)) : option V :=
  match d with
  | [] => None
  | (k', v) :: tl => if String.eqb k' k then Some v else dict_get k tl
  end.

(** [d[k] = v]: an existing key keeps its place. *)
Fixpoint dict_set (k : string) (v : V) (d : list (string * V)) : list (string * V) :=
  match d with
  | [] => [(k, v)]
  | (k', v') :: tl =>
      if String.eqb k' k then (k', v) :: tl else (k', v') :: dict_set k v tl
  end.

Definition dict_has (k : string) (d : list (string * V)) : bool :=
  match dict_get k d with Some _ => true | None => false end.

End Dict.

(** [output_files[k].append(e)] on a [defaultdict(list)]. *)
Fixpoint dict_append (k : string) (e : Element) (d : list (string * list Element))
    : list (string * list Element) :=
  match d with
  | [] => [(k, [e])]
  | (k', l) :: tl =>
      if String.eqb k' k then (k', l ++ [e]) :: tl else (k', l) :: dict_append k e tl
  end.

Record state : Type := mkState {
  functions : list Element;
  structs : list Element;
  enums : list Element;
  globals : list Element;
  typedefs : list Element;
  macros : list Element;
  conditionals : list Element;
  symbol_map : list (string * info);
  output_files : list (string * list Element);
  log : list event
}.

Definition init_state : state := mkState [] [] [] [] [] [] [] [] [] [].

Definition set_functions (st : state) (l : list Element) : state :=
  mkState l (structs st) (enums st) (globals st) (typedefs st) (macros st)
    (conditionals st) (symbol_map st) (output_files st) (log st).
Definition set_structs (st : state) (l : list Element) : state :=
  mkState (functions st) l (enums st) (globals st) (typedefs st) (macros st)
    (conditionals st) (symbol_map st) (output_files st) (log st).
Definition set_enums (st : state) (l : list Element) : state :=
  mkState (functions st) (structs st) l (globals st) (typedefs st) (macros st)
    (conditionals st) (symbol_map st) (output_files st) (log st).
Definition set_globals (st : state) (l : list Element) : state :=
  mkState (functions st) (structs st) (enums st) l (typedefs st) (macros st)
    (conditionals st) (symbol_map st) (output_files st) (log st).
Definition set_typedefs (st : state) (l : list Element) : state :=
  mkState (functions st) (structs st) (enums st) (globals st) l (macros st)
    (conditionals st) (symbol_map st) (output_files st) (log st).
Definition set_macros (st : state) (l : list Element) : state :=
  mkState (functions st) (structs st) (enums st) (globals st) (typedefs st) l
    (conditionals st) (symbol_map st) (output_files st) (log st).
Definition set_conditionals (st : state) (l : list Element) : state :=
  mkState (functions st) (structs st) (enums st) (globals st) (typedefs st) (macros st)
    l (symbol_map st) (output_files st) (log st).
Definition set_symbol_map (st : state) (m : list (string * info)) : state :=
  mkState (functions st) (structs st) (enums st) (globals st) (typedefs st) (macros st)
    (conditionals st) m (output_files st) (log st).
Definition set_output_files (st : state) (o : list (string * list Element)) : state :=
  mkState (functions st) (structs st) (enums st) (globals st) (typedefs st) (macros st)
    (conditionals st) (symbol_map st) o (log st).
Definition set_log (st : state) (l : list event) : state :=
  mkState (functions st) (structs st) (enums st) (globals st) (typedefs st) (macros st)
    (conditionals st) (symbol_map st) (output_files st) l.

Definition print (st : state) (e : event) : state := set_log st (log st ++ [e]).

(** [_add_to_symbol_map(symbol, symbol_type)]: a fresh entry replaces
    whatever was recorded under the name. *)
Definition _add_to_symbol_map (st : state) (symbol : string) (symbol_type : etype) : state :=
  set_symbol_map st (dict_set symbol (mkInfo symbol_type None [] None) (symbol_map st)).

(** ** Lexical Extractor *)

Definition keywords : list string :=
  [ "if"; "else"; "while"; "for"; "return"; "break"; "continue";
    "static"; "const"; "void"; "int"; "float"; "double"; "char";
    "unsigned"; "signed"; "typedef"; "struct"; "enum"; "union";
    "extern"; "sizeof"; "NULL"; "size_t" ].

(** [set.add] *)
Definition set_add (x : string) (s : list string) : list string :=
  if Py.mem x s then s else s ++ [x].

(** [_extract_dependencies(content)] *)
Definition _extract_dependencies (body : string) : list string :=
  let words := map (fun m => group_str m 1)
                   (finditer (seqs [WordB; Grp 1 ident; WordB]) body) in
  fold_left (fun deps word => if Py.mem word keywords then deps else set_add word deps)
            words [].

(** [_extract_macro_dependencies(content, is_function_like, params)] *)
Definition _extract_macro_dependencies (body : string) (is_fl : bool)
    (params : option string) : list string :=
  let param_names :=
    match params with
    | Some p =>
        if is_fl && negb (String.eqb p EmptyString) then
          filter (fun x => negb (String.eqb x EmptyString))
                 (map Py.strip (Py.split "," p))
        else []
    | None => []
    end in
  let macro_refs :=
    map (fun m => group_str m 1)
        (finditer (seqs [ NotBehind az09_; Grp 1 ident;
                          NotAhead (alts [ Seq (star ws) (Chr "(");
                                           Seq (star ws) (Chr "=");
                                           Seq (star ws) (Chr "{") ]) ]) body) in
  let deps :=
    fold_left (fun deps ref =>
                 if Py.mem ref param_names then deps
                 else if Py.mem ref (keywords ++ ["define"]) then deps
                 else set_add ref deps) macro_refs [] in
  let func_macro_calls :=
    map (fun m => group_str m 1)
        (finditer (seqs [Grp 1 ident; star ws; Chr "("]) body) in
  fold_left (fun deps call =>
               if String.eqb call "define" then deps else set_add call deps)
            func_macro_calls deps.

Definition function_regex : regex :=
  seqs [ opt (Seq (lit "static") (plus ws));
         opt (Seq (lit "SOD_APIEXPORT") (plus ws));
         seqs [ Cls false az_;
                plus_lazy (Cls false (az09_ ++ [COne "*"%char; CSpace]));
                plus ws ];
         Grp 1 ident;
         star ws; Chr "("; star_lazy (none_of "{;"); Chr ")"; star ws; Chr "{" ].

Definition struct_regex : regex :=
  Alt (seqs [ lit "typedef"; plus ws; lit "struct"; plus ws;
              opt (Seq ident (plus ws));
              Chr "{"; star (none_of "}"); Chr "}"; star ws;
              Grp 1 ident; Chr ";" ])
      (seqs [ lit "struct"; plus ws; Grp 2 ident; star ws;
              Chr "{"; star (none_of "}"); lit "};" ]).

Definition global_regex : regex :=
  seqs [ opt (alts [lit "static"; lit "const"; lit "extern"]);
         star ws;
         plus (Seq ident (plus ws));
         Grp 1 ident; star ws;
         opt (seqs [Chr "["; star ws; star (none_of "]"); star ws; Chr "]"]);
         star ws; Chr "=" ].

Definition typedef_regex : regex :=
  seqs [ lit "typedef"; plus ws;
         NotAhead (Alt (lit "struct") (lit "enum"));
         Grp 1 (Seq ident (opt (Seq (star ws) (Chr "*"))));
         plus ws; Grp 2 ident; Chr ";" ].

Definition enum_regex : regex :=
  seqs [ lit "typedef"; plus ws; lit "enum"; star ws;
         opt (Seq ident (star ws));
         Chr "{"; star (none_of "}"); Chr "}"; star ws;
         Grp 1 ident; Chr ";" ].

Definition enum_block_regex : regex :=
  Grp 1 (seqs [ lit "typedef"; plus ws; lit "enum"; star ws;
                opt (Seq ident (star ws));
                Chr "{"; star (none_of "}"); Chr "}"; star ws;
                ident; Chr ";" ]).

(** The two substitutions that tidy an enum terminator. *)
Definition enum_fix_E : regex :=
  seqs [Chr "}"; star ws; Grp 1 ident; star ws; lit ";E;"].
Definition enum_fix_semis : regex :=
  seqs [Chr "}"; star ws; Grp 1 ident; star ws; Chr ";"; star (none_of ";"); Chr ";"].
Definition enum_fix_template : list titem := [TText "} "; TRef 1; TText ";"].

(** [extract_enums] *)
Definition extract_enums (source : string) (st : state) : state :=
  fold_left
    (fun st m =>
       let enum_block := group_str m 1 in
       match search enum_regex enum_block with
       | Some nm =>
           let enum_name := group_str nm 1 in
           let enum_block := sub enum_fix_E enum_fix_template enum_block in
           let enum_block := sub enum_fix_semis enum_fix_template enum_block in
           let d := _extract_dependencies enum_block in
           let st := set_enums st
             (enums st ++ [mkElement enum_name TEnum enum_block
                             (N.to_nat (m_start m)) (N.to_nat (m_end m)) d]) in
           _add_to_symbol_map st enum_name TEnum
       | None => st
       end)
    (finditer enum_block_regex source) st.

(** [l[a:b]] on lists. *)
Definition lslice {A} (a b : nat) (l : list A) : list A := firstn (b - a) (skipn a l).

(** [enumerate(l)] *)
Definition enumerate {A} (l : list A) : list (nat * A) := combine (seq 0 (length l)) l.

Definition is_opening (directive : string) : bool :=
  Py.startswith directive "#if" || Py.startswith directive "#ifdef"
  || Py.startswith directive "#ifndef".

(** One line of the scan for directive lines: bare [endif], [else] and
    [else if ...] lines are passed over. *)
Definition directive_step (acc : list (nat * string)) (il : nat * string)
    : list (nat * string) :=
  let stripped := Py.strip (snd il) in
  if String.eqb stripped "endif" || String.eqb stripped "else"
     || Py.startswith stripped "else if" then acc
  else if Py.startswith stripped "#if" || Py.startswith stripped "#else"
          || Py.startswith stripped "#elif" || Py.startswith stripped "#endif"
          || Py.startswith stripped "#ifdef" || Py.startswith stripped "#ifndef"
  then acc ++ [(fst il, stripped)]
  else acc.

(** The directive lines of the source, with their line numbers. *)
Definition directive_lines (source : string) : list (nat * string) :=
  fold_left directive_step (enumerate (Py.splitlines source)) [].

(** The inner [while] of [extract_conditionals]: from the directive after
    an opening one, with [stack] open blocks, to the [#endif] that brings
    the stack to zero.  The result is that line's number, the directives
    of the block and the directives after it; [None] when the directives
    run out first. *)
Fixpoint scan_block (ds : list (nat * string)) (stack : nat)
    (block_lines : list (nat * string))
    : option (nat * list (nat * string) * list (nat * string)) :=
  match ds with
  | [] => None
  | (next_line_num, next_directive) :: tl =>
      let stack' :=
        if is_opening next_directive then stack + 1
        else if Py.startswith next_directive "#endif" then stack - 1
        else stack in
      let block_lines' := block_lines ++ [(next_line_num, next_directive)] in
      if stack' =? 0 then Some (next_line_num, block_lines', tl)
      else scan_block tl stack' block_lines'
  end.

(** [directive.split(' ', 1)[1] if ' ' in directive else 'condition'] *)
Fixpoint after_first_space (s : string) : option string :=
  match s with
  | EmptyString => None
  | String c s' => if Ascii.eqb c " "%char then Some s' else after_first_space s'
  end.

Definition condition_of (directive : string) : string :=
  match after_first_space directive with Some c => c | None => "condition" end.

Definition auto_endif_unterminated : string :=
  Py.nl +++ "#endif /* Auto-added to fix unterminated conditional */" +++ Py.nl.

(** The element built for a block closed at [end_line]. *)
Definition complete_conditional (source : string) (start_line end_line : nat)
    (directive : string) (block_lines : list (nat * string)) : Element :=
  let lines := Py.splitlines source in
  let context_start := start_line - 1 in
  let context_end := Nat.min (length lines - 1) (end_line + 1) in
  let body := Py.join Py.nl (lslice context_start (context_end + 1) lines) in
  let s := String.length (Py.join Py.nl (firstn context_start lines)) in
  let e := String.length (Py.join Py.nl (firstn (context_end + 1) lines)) in
  let is_multipart :=
    any (fun ld => Py.startswith (snd ld) "#elif" || Py.startswith (snd ld) "#else")
        block_lines in
  let nm := if is_multipart then "multipart_conditional_" +++ condition_of directive
            else "conditional" in
  mkElement nm TConditional body s e (_extract_dependencies body).

(** The element built for a block that is still open at the end. *)
Definition fixed_conditional (source : string) (start_line : nat) : Element :=
  let lines := Py.splitlines source in
  let body := Py.join Py.nl (skipn start_line lines) +++ auto_endif_unterminated in
  let s := String.length (Py.join Py.nl (firstn start_line lines)) in
  mkElement "conditional_fixed" TConditional body s (String.length source)
            (_extract_dependencies body).

(** The outer [while] of [extract_conditionals], on the directives from
    index [i] on. *)
Fixpoint extract_conditionals_loop (fuel : nat) (source : string)
    (ds : list (nat * string)) (st : state) : state :=
  match fuel with
  | 0 => st
  | S fuel' =>
      match ds with
      | [] => st
      | (line_num, directive) :: tl =>
          if Py.startswith directive "#if" then
            match scan_block tl 1 [(line_num, directive)] with
            | Some (end_line, block_lines, rest) =>
                let e := complete_conditional source line_num end_line directive block_lines in
                extract_conditionals_loop fuel' source rest
                  (set_conditionals st (conditionals st ++ [e]))
            | None =>
                let st := print st (WarnUnterminatedConditional (line_num + 1) directive) in
                set_conditionals st (conditionals st ++ [fixed_conditional source line_num])
            end
          else extract_conditionals_loop fuel' source tl st
      end
  end.

(** [extract_conditionals] *)
Definition extract_conditionals (source : string) (st : state) : state :=
  let ds := directive_lines source in
  extract_conditionals_loop (length ds) source ds st.

(** The brace scan of [extract_functions], from the character after the
    opening brace: the open-brace count and the characters checked when
    the loop stops. *)
Fixpoint scan_braces (s : string) (opening_braces chars_checked max_chars : nat)
    : nat * nat :=
  match s with
  | EmptyString => (opening_braces, chars_checked)
  | String c s' =>
      if (0 <? opening_braces) && (chars_checked <? max_chars) then
        let ob := if Ascii.eqb c "{"%char then opening_braces + 1
                  else if Ascii.eqb c "}"%char then opening_braces - 1
                  else opening_braces in
        scan_braces s' ob (chars_checked + 1) max_chars
      else (opening_braces, chars_checked)
  end.

(** [extract_functions] *)
Definition extract_functions (source : string) (st : state) : state :=
  fold_left
    (fun st m =>
       let func_name := group_str m 1 in
       let s := N.to_nat (m_start m) in
       let pos0 := N.to_nat (m_end m) in
       let max_chars_to_check :=
         N.to_nat (N.min 100000 (N.of_nat (String.length source - pos0))) in
       let '(opening_braces, chars_checked) :=
         scan_braces (Py.drop pos0 source) 1 0 max_chars_to_check in
       let pos := pos0 + chars_checked in
       if (0 <? opening_braces) && (max_chars_to_check <=? chars_checked) then
         print st (WarnFunctionSkipped func_name)
       else if opening_braces =? 0 then
         let func_content := Py.strip (Py.slice s pos source) in
         let d := _extract_dependencies func_content in
         let st := set_functions st
           (functions st ++ [mkElement func_name TFunction func_content s pos d]) in
         _add_to_symbol_map st func_name TFunction
       else st)
    (finditer function_regex source) st.

(** [extract_structs] *)
Definition extract_structs (source : string) (st : state) : state :=
  fold_left
    (fun st m =>
       match or_else (group m 1) (group m 2) with
       | Some struct_name =>
           let s := N.to_nat (m_start m) in
           let e := N.to_nat (m_end m) in
           let struct_content := Py.strip (Py.slice s e source) in
           let d := _extract_dependencies struct_content in
           let st := set_structs st
             (structs st ++ [mkElement struct_name TStruct struct_content s e d]) in
           _add_to_symbol_map st struct_name TStruct
       | None => st
       end)
    (finditer struct_regex source) st.

(** [s.find(';', from)] *)
Definition find_from (c : ascii) (from : nat) (s : string) : option nat :=
  option_map (fun i => from + i) (Py.find_char c (Py.drop from s)).

(** [extract_globals] *)
Definition extract_globals (source : string) (st : state) : state :=
  fold_left
    (fun st m =>
       match group m 1 with
       | Some global_name =>
           let s := N.to_nat (m_start m) in
           match find_from ";" (N.to_nat (m_end m)) source with
           | Some line_end =>
               let e := line_end + 1 in
               let global_content := Py.strip (Py.slice s e source) in
               if negb (Py.contains global_content "(")
                  || negb (Py.contains global_content ")") then
                 let d := _extract_dependencies global_content in
                 let st := set_globals st
                   (globals st ++ [mkElement global_name TGlobal global_content s e d]) in
                 _add_to_symbol_map st global_name TGlobal
               else st
           | None => st
           end
       | None => st
       end)
    (finditer global_regex source) st.

(** [extract_typedefs] *)
Definition extract_typedefs (source : string) (st : state) : state :=
  fold_left
    (fun st m =>
       match group m 2 with
       | Some typedef_name =>
           let src_type := group_str m 1 in
           let s := N.to_nat (m_start m) in
           let e := N.to_nat (m_end m) in
           let typedef_content := Py.strip (Py.slice s e source) in
           let d := _extract_dependencies typedef_content in
           let d := set_add (Py.strip src_type) d in
           let st := set_typedefs st
             (typedefs st ++ [mkElement typedef_name TTypedef typedef_content s e d]) in
           _add_to_symbol_map st typedef_name TTypedef
       | None => st
       end)
    (finditer typedef_regex source) st.

Definition define_pattern : regex :=
  seqs [ Grp 1 (seqs [lit "#define"; plus ws; Grp 2 ident]);
         opt (seqs [Chr "("; Grp 3 (star (none_of ")")); Chr ")"]) ].

Definition backslash : string := String (ascii_of_nat 92) EmptyString.

(** Where a macro ends: the lines after the match are added up to and
    with the first one that does not end in a backslash. *)
Fixpoint macro_end (lines : list string) (end_pos : nat) : nat :=
  match lines with
  | [] => end_pos
  | line :: tl =>
      let line_length := String.length line + 1 in
      if Py.endswith (Py.strip line) backslash then macro_end tl (end_pos + line_length)
      else end_pos + line_length
  end.

(** [extract_macros] *)
Definition extract_macros (source : string) (st : state) : state :=
  fold_left
    (fun st m =>
       match group m 2 with
       | Some macro_name =>
           let params := group m 3 in
           let s := N.to_nat (m_start m) in
           let mend := N.to_nat (m_end m) in
           let end_pos := macro_end (Py.split "010" (Py.drop mend source)) mend in
           let macro_content := Py.strip (Py.slice s end_pos source) in
           if negb (found (search (seqs [lit "#define"; plus ws; lit macro_name; WordB])
                                  macro_content)) then st
           else
             let is_fl := found params in
             let d := _extract_macro_dependencies macro_content is_fl params in
             let st := set_macros st
               (macros st ++ [mkElement macro_name TMacro macro_content s end_pos d]) in
             set_symbol_map st
               (dict_set macro_name (mkInfo TMacro (Some is_fl) [] None) (symbol_map st))
       | None => st
       end)
    (finditer define_pattern source) st.

(** [extract_symbols]: the comment and include lists, which nothing
    reads afterwards, are left out. *)
Definition extract_symbols (source : string) (st : state) : state :=
  let st := extract_enums source st in
  let st := extract_conditionals source st in
  let st := extract_functions source st in
  let st := extract_structs source st in
  let st := extract_globals source st in
  let st := extract_typedefs source st in
  extract_macros source st.

(** ** Mapping elements to components *)

(** [if e.name in symbol_map: symbol_map[e.name]['component'] = c] *)
Definition set_component (nm c : string) (sm : list (string * info))
    : list (string * info) :=
  match dict_get nm sm with
  | Some i =>
      dict_set nm (mkInfo (i_type i) (is_function_like i) (used_in i) (Some c)) sm
  | None => sm
  end.

(** The common body of the six [_map_*] loops. *)
Definition map_elements (choose : Element -> string) (l : list Element) (st : state)
    : state :=
  fold_left
    (fun st e =>
       let c := choose e in
       let st := set_output_files st (dict_append c e (output_files st)) in
       set_symbol_map st (set_component (name e) c (symbol_map st)))
    l st.

Definition _map_functions (st : state) : state :=
  map_elements function_component (functions st) st.
Definition _map_structs (st : state) : state :=
  map_elements struct_component (structs st) st.
Definition _map_enums (st : state) : state :=
  map_elements enum_component (enums st) st.
Definition _map_typedefs (st : state) : state :=
  map_elements typedef_component (typedefs st) st.
Definition _map_globals (st : state) : state :=
  map_elements global_component (globals st) st.
Definition _map_macros (st : state) : state :=
  map_elements macro_component (macros st) st.

(** ** Conditional Grouper *)

Definition platforms : list string :=
  [ "_WIN32"; "__APPLE__"; "__linux__"; "_MSC_VER"; "OS_WIN"; "OS_UNIX"; "OS_OTHER" ].

Definition features : list string :=
  [ "HAVE_"; "USE_"; "ENABLE_"; "CONFIG_"; "WITH_" ].

(** [re.sub(r'#if\w*\s+', '', condition)] *)
Definition normalize_condition (condition : string) : string :=
  sub (seqs [lit "#if"; star word; plus ws]) [] condition.

(** [_are_conditions_similar(condition1, condition2)] *)
Definition _are_conditions_similar (condition1 condition2 : string) : bool :=
  let c1 := normalize_condition condition1 in
  let c2 := normalize_condition condition2 in
  if String.eqb c1 c2 then true
  else
    let platform_pattern1 := any (fun platform => Py.contains c1 platform) platforms in
    let platform_pattern2 := any (fun platform => Py.contains c2 platform) platforms in
    if platform_pattern1 && platform_pattern2 then true
    else
      let feature_pattern1 := any (fun feature => Py.startswith c1 feature) features in
      let feature_pattern2 := any (fun feature => Py.startswith c2 feature) features in
      if feature_pattern1 && feature_pattern2 then true
      else if Py.startswith c1 "!" && String.eqb (Py.drop 1 c1) c2 then true
      else if Py.startswith c2 "!" && String.eqb (Py.drop 1 c2) c1 then true
      else false.

(** [name_groups[e.name].append(e)] over the conditionals, in order. *)
Definition name_groups (l : list Element) : list (string * list Element) :=
  fold_left (fun d e => dict_append (name e) e d) l [].

(** [any(e in group for group in conditional_groups.values())] *)
Definition in_some_group (e : Element) (groups : list (list Element)) : bool :=
  any (elem_in e) groups.

(** [conditional_groups[group_id-1].append(e)]: the newest group. *)
Fixpoint append_last (e : Element) (groups : list (list Element)) : list (list Element) :=
  match groups with
  | [] => []
  | [g] => [g ++ [e]]
  | g :: tl => g :: append_last e tl
  end.

(** [content.strip().split('\n')[0].strip()] *)
Definition first_line_of (body : string) : string :=
  Py.strip (hd EmptyString (Py.split "010" (Py.strip body))).

(** [abs(a - b)] on offsets. *)
Definition abs_diff (a b : nat) : nat := (a - b) + (b - a).

(** One turn of the loop over [other] for the group of [conditional]. *)
Definition gather_step (conditional : Element) (groups : list (list Element))
    (other : Element) : list (list Element) :=
  if elem_eqb other conditional || in_some_group other groups then groups
  else if abs_diff (start conditional) (start other) <? 1000 then
    if _are_conditions_similar (first_line_of (content conditional))
                               (first_line_of (content other))
    then append_last other groups
    else groups
  else groups.

Definition gather_related (conditional : Element) (conds : list Element)
    (groups : list (list Element)) : list (list Element) :=
  fold_left (gather_step conditional) conds groups.

(** One turn of the loop over the conditionals of a name group that is
    not a multi-part one. *)
Definition plain_step (conds : list Element) (groups : list (list Element))
    (conditional : Element) : list (list Element) :=
  if in_some_group conditional groups then groups
  else gather_related conditional conds (groups ++ [[conditional]]).

Definition group_plain (conds : list Element) (groups : list (list Element))
    : list (list Element) :=
  fold_left (plain_step conds) conds groups.

(** One turn of the loop over the name groups. *)
Definition name_step (groups : list (list Element)) (ng : string * list Element)
    : list (list Element) :=
  if Py.startswith (fst ng) "multipart_conditional_" then groups ++ [snd ng]
  else group_plain (snd ng) groups.

(** [_group_related_conditionals]; the groups are listed by group id. *)
Definition _group_related_conditionals (st : state) : list (list Element) :=
  fold_left name_step (name_groups (conditionals st)) [].

Definition platform_guard : regex :=
  seqs [ lit "#if"; plus ws; lit "defined"; star ws; Chr "("; star ws;
         Grp 1 (alts [lit "_WIN32"; lit "__APPLE__"; lit "__linux__"; lit "_MSC_VER"]);
         star ws; Chr ")" ].

Definition os_guard : regex :=
  seqs [ lit "#if"; plus ws; lit "defined"; star ws; Chr "("; star ws;
         Grp 1 (alts [lit "OS_WIN"; lit "OS_UNIX"; lit "OS_OTHER"]);
         star ws; Chr ")" ].

Definition macro_guard : regex :=
  seqs [ lit "#if"; opt (Grp 1 (Chr "n")); lit "def"; plus ws; Grp 2 ident ].

(** A [Counter]: keys in order of first count. *)
Fixpoint counter_incr (k : string) (c : list (string * nat)) : list (string * nat) :=
  match c with
  | [] => [(k, 1)]
  | (k', n) :: tl =>
      if String.eqb k' k then (k', n + 1) :: tl else (k', n) :: counter_incr k tl
  end.

(** [c.most_common(1)[0][0]]: the first key with the greatest count. *)
Fixpoint most_common_from (c : list (string * nat)) (best : string) (bn : nat) : string :=
  match c with
  | [] => best
  | (k, n) :: tl =>
      if bn <? n then most_common_from tl k n else most_common_from tl best bn
  end.

Definition most_common (c : list (string * nat)) : option string :=
  match c with
  | [] => None
  | (k, n) :: tl => Some (most_common_from tl k n)
  end.

(** The component of the macro a guard tests, when it has one. *)
Definition guard_owner (sm : list (string * info)) (body : string) : option string :=
  match search macro_guard body with
  | Some macro_match =>
      match dict_get (group_str macro_match 2) sm with
      | Some i => component i
      | None => None
      end
  | None => None
  end.

(** One vote per symbol with a component whose name occurs in the text. *)
Definition count_votes (sm : list (string * info)) (body : string)
    (votes : list (string * nat)) : list (string * nat) :=
  fold_left
    (fun votes si =>
       match component (snd si) with
       | Some c => if Py.contains body (fst si) then counter_incr c votes else votes
       | None => votes
       end)
    sm votes.

(** The loop over the conditionals of one group, with its [break]s: the
    forced component, if a rule fired, and the votes counted before. *)
Fixpoint scan_group (sm : list (string * info)) (conds : list Element)
    (votes : list (string * nat)) : option string * list (string * nat) :=
  match conds with
  | [] => (None, votes)
  | conditional :: tl =>
      let body := content conditional in
      if found (search platform_guard body) then (Some "common", votes)
      else if found (search os_guard body) then (Some "common", votes)
      else match guard_owner sm body with
           | Some c => (Some c, votes)
           | None => scan_group sm tl (count_votes sm body votes)
           end
  end.

(** The component chosen for a group. *)
Definition group_component (sm : list (string * info)) (conds : list Element) : string :=
  match scan_group sm conds [] with
  | (Some forced_component, _) => forced_component
  | (None, component_votes) =>
      match most_common component_votes with
      | Some c => c
      | None => "common"
      end
  end.

(** [output_files[c].append(conditional)] *)
Definition append_output (c : string) (st : state) (conditional : Element) : state :=
  set_output_files st (dict_append c conditional (output_files st)).

(** One turn of the loop of [_map_conditionals] over the groups. *)
Definition map_group (st : state) (conds : list Element) : state :=
  fold_left (append_output (group_component (symbol_map st) conds)) conds st.

(** [_map_conditionals] *)
Definition _map_conditionals (st : state) : state :=
  fold_left map_group (_group_related_conditionals st) st.

(** Stable insertion sort by [start], Python's [sort(key=lambda x: x.start)]. *)
Fixpoint insert_by_start (e : Element) (l : list Element) : list Element :=
  match l with
  | [] => [e]
  | x :: tl => if start e <? start x then e :: x :: tl else x :: insert_by_start e tl
  end.

Definition sort_by_start (l : list Element) : list Element :=
  fold_left (fun acc e => insert_by_start e acc) l [].

(** [map_symbols_to_components]; [_analyze_module_dependencies] reads
    the [used_in] sets, which are all empty, and only prints. *)
Definition map_symbols_to_components (st : state) : state :=
  let st := _map_functions st in
  let st := _map_structs st in
  let st := _map_enums st in
  let st := _map_typedefs st in
  let st := _map_globals st in
  let st := _map_macros st in
  let st := _map_conditionals st in
  set_output_files st
    (map (fun kv => (fst kv, sort_by_start (snd kv))) (output_files st)).

(** ** Output Synthesizer *)

(** The written files: path (below the output directory) to content. *)
Definition files : Type := list (string * string).

Definition c_path (file_key : string) : string := "src/sod/sod_" +++ file_key +++ ".c".
Definition h_path (file_key : string) : string := "include/sod/sod_" +++ file_key +++ ".h".

(** [header_content] is a [str] first and is rebound to a [list] in the
    branch for conditionals; both values are kept apart here. *)
Inductive pyval : Type :=
| PStr (s : string)
| PList (l : list string).

(** [v += s] for a [str] right-hand side: concatenation on a [str], and
    on a [list] an extension by the characters of [s]. *)
Definition iadd (v : pyval) (s : string) : pyval :=
  match v with
  | PStr a => PStr (a +++ s)
  | PList l => PList (l ++ map (fun c => String c EmptyString) (list_ascii_of_string s))
  end.

(** [r'#if\b|#ifdef\b|#ifndef\b'] and [r'#endif\b'] *)
Definition open_rx : regex :=
  alts [Seq (lit "#if") WordB; Seq (lit "#ifdef") WordB; Seq (lit "#ifndef") WordB].
Definition close_rx : regex := Seq (lit "#endif") WordB.

Definition open_count (body : string) : nat := count open_rx body.
Definition close_count (body : string) : nat := count close_rx body.

Definition end_of_condition : string :=
  Py.nl +++ "#endif /* End of condition */" +++ Py.nl.

(** "Make sure all conditional blocks are properly closed": as many
    closing lines as there are more openings than closings. *)
Definition close_conditional (body : string) : string :=
  let open_directives := open_count body in
  let close_directives := close_count body in
  if close_directives <? open_directives
  then body +++ Py.repeat_str end_of_condition (open_directives - close_directives)
  else body.

Definition with_content (e : Element) (body : string) : Element :=
  mkElement (name e) (type e) body (start e) (end_ e) (deps e).

Definition prototype_regex : regex :=
  seqs [ opt (Seq (lit "SOD_APIEXPORT") (plus ws));
         seqs [ Cls false az_;
                plus_lazy (Cls false (az09_ ++ [COne "*"%char; CSpace]));
                plus ws ];
         Grp 1 ident;
         star ws; Chr "("; star (none_of "{;"); Chr ")"; star ws; Chr ";" ].

(** The text of the prototype made from a function element, if its
    content has an opening brace. *)
Definition declaration_of (e : Element) : option string :=
  match Py.find_char "{" (content e) with
  | Some decl_end => Some (Py.strip (Py.take decl_end (content e)) +++ ";")
  | None => None
  end.

(** The declarations found in the content of a conditional. *)
Definition declarations_in (body : string) : list string :=
  map m_text (finditer struct_regex body)
  ++ map m_text (finditer enum_regex body)
  ++ map m_text (finditer typedef_regex body)
  ++ map m_text (finditer prototype_regex body).

(** The lines kept for the header: every directive line, and between an
    opening directive and an [#endif] the lines holding a declaration. *)
Fixpoint header_lines (lines : list string) (decls : list string) (in_directive : bool)
    : list string :=
  match lines with
  | [] => []
  | line :: tl =>
      let stripped := Py.strip line in
      if Py.startswith stripped "#" then
        let in_directive' :=
          if Py.startswith stripped "#if" || Py.startswith stripped "#ifdef"
             || Py.startswith stripped "#ifndef" then true
          else if Py.startswith stripped "#endif" then false
          else in_directive in
        line :: header_lines tl decls in_directive'
      else if in_directive && any (fun decl => Py.contains line decl) decls then
        line :: header_lines tl decls in_directive
      else header_lines tl decls in_directive
  end.

(** One turn of the loop "Extract header declarations". *)
Definition header_step (file_key : string) (acc : pyval * list Element) (elem : Element)
    : pyval * list Element :=
  let '(header_content, header_elements) := acc in
  match type elem with
  | TStruct | TTypedef | TMacro => (header_content, header_elements ++ [elem])
  | TEnum =>
      if String.eqb file_key "nn_types"
         && Py.mem (name elem) ["SOD_CNN_LAYER_TYPE"; "learning_rate_policy"; "COST_TYPE"]
      then acc
      else if String.eqb file_key "activation" && String.eqb (name elem) "ACTIVATION"
      then acc
      else (header_content, header_elements ++ [elem])
  | TFunction =>
      match declaration_of elem with
      | Some decl =>
          if negb (Py.startswith decl "static") then
            (header_content,
             header_elements ++
               [mkElement (name elem) TDeclaration decl (start elem)
                          (start elem + String.length decl) []])
          else acc
      | None => acc
      end
  | TConditional =>
      let body := content elem in
      if found (search struct_regex body) || found (search enum_regex body)
         || found (search typedef_regex body) then
        let decls := declarations_in body in
        match decls with
        | [] => (PList decls, header_elements)
        | _ =>
            let new_content := header_lines (Py.splitlines body) decls false in
            (PList decls,
             header_elements ++ [with_content elem (Py.join Py.nl new_content)])
        end
      else acc
  | _ => acc
  end.

(** The closing pass over a list of elements. *)
Definition close_all (l : list Element) : list Element :=
  map (fun elem =>
         match type elem with
         | TConditional =>
             if close_count (content elem) <? open_count (content elem)
             then with_content elem (close_conditional (content elem))
             else elem
         | _ => elem
         end) l.

(** [_extract_module_definitions(module_name)] *)
Definition _extract_module_definitions (st : state) (module_name : string) : string :=
  match dict_get module_name (output_files st) with
  | Some elems =>
      fold_left (fun definitions elem =>
                   match type elem with
                   | TEnum => definitions +++ content elem +++ Py.nl +++ Py.nl
                   | _ => definitions
                   end) elems EmptyString
  | None => EmptyString
  end.

Definition header_prologue (file_key : string) : string :=
  text [ "";
         "/* ";
         " * sod_" +++ file_key +++ ".h - Part of the SOD library";
         " * Generated from the original monolithic code";
         " */";
         "";
         "#ifndef SOD_" +++ Py.upper file_key +++ "_H__";
         "#define SOD_" +++ Py.upper file_key +++ "_H__";
         "";
         "#include " +++ dq +++ "sod/sod_common.h" +++ dq;
         "" ].

(** The header of one component, as the value handed to [f.write]. *)
Definition header_of (st : state) (file_key : string) (elements : list Element)
    : pyval * list Element :=
  let nn_types_definitions := _extract_module_definitions st "nn_types" in
  let activation_definitions := _extract_module_definitions st "activation" in
  let hc := header_prologue file_key in
  let hc :=
    if String.eqb file_key "nn_types" && negb (String.eqb nn_types_definitions EmptyString)
    then hc +++ nn_types_definitions +++ Py.nl +++ Py.nl
    else if String.eqb file_key "activation"
            && negb (String.eqb activation_definitions EmptyString)
    then hc +++ activation_definitions +++ Py.nl +++ Py.nl
    else hc in
  let '(header_content, header_elements) :=
    fold_left (header_step file_key) elements (PStr hc, []) in
  let header_elements := close_all header_elements in
  let header_content :=
    fold_left (fun h elem => iadd h (content elem +++ Py.nl +++ Py.nl))
              (sort_by_start header_elements) header_content in
  (iadd header_content
        (Py.nl +++ "#endif /* SOD_" +++ Py.upper file_key +++ "_H__ */" +++ Py.nl),
   header_elements).

Definition type_mappings : list (string * string) :=
  [ ("sod_cnn", "cnn"); ("sod_img", "img_utils"); ("sod_box", "box_utils");
    ("box", "box_utils"); ("network", "nn_types"); ("layer", "nn_types");
    ("tree", "nn_types"); ("ACTIVATION", "activation");
    ("SOD_CNN_LAYER_TYPE", "nn_types"); ("learning_rate_policy", "nn_types");
    ("COST_TYPE", "nn_types"); ("SyBlob", "data_structures");
    ("SySet", "data_structures"); ("SyString", "data_structures");
    ("sod_vfs", "vfs"); ("softmax_layer", "softmax_impl");
    ("local_layer", "local_layer"); ("connected_layer", "connected_impl");
    ("convolutional_layer", "convolutional"); ("cost_layer", "cost_layer");
    ("route_layer", "route_layer") ].

Definition function_prefixes : list (string * string) :=
  [ ("forward_softmax", "softmax_impl"); ("backward_softmax", "softmax_impl");
    ("forward_batchnorm", "batchnorm_impl"); ("backward_batchnorm", "batchnorm_impl");
    ("forward_connected", "connected_impl"); ("backward_connected", "connected_impl");
    ("forward_convolutional", "convolutional"); ("backward_convolutional", "convolutional");
    ("forward_cost", "cost_layer"); ("backward_cost", "cost_layer");
    ("forward_local", "local_layer"); ("backward_local", "local_layer");
    ("forward_route", "route_layer"); ("backward_route", "route_layer");
    ("activate", "activation"); ("gradient", "activation");
    ("SyBlob", "data_structures"); ("SySet", "data_structures");
    ("SyString", "data_structures") ].

(** [_get_necessary_includes(elements)]; the set is listed in the order
    of first insertion (Python leaves the order of a set open). *)
Definition _get_necessary_includes (elements : list Element) : list string :=
  fold_left
    (fun includes elem =>
       let body := content elem in
       let includes :=
         fold_left (fun inc tm =>
                      if Py.contains body (fst tm) && negb (String.eqb (snd tm) "common")
                      then set_add (snd tm) inc else inc)
                   type_mappings includes in
       let includes :=
         fold_left (fun inc pm =>
                      if Py.contains body (fst pm) && negb (String.eqb (snd pm) "common")
                      then set_add (snd pm) inc else inc)
                   function_prefixes includes in
       fold_left
         (fun inc dep =>
            fold_left (fun inc tm =>
                         if String.eqb dep (fst tm) && negb (String.eqb (snd tm) "common")
                         then set_add (snd tm) inc else inc)
                      type_mappings inc)
         (deps elem) includes)
    elements [].

Definition impl_prologue (file_key : string) : string :=
  text [ "";
         "/* ";
         " * sod_" +++ file_key +++ ".c - Part of the SOD library";
         " * Generated from the original monolithic code";
         " */";
         "" ].

(** The bare [endif], [else] and [else if ...] lines that are dropped. *)
Definition stray_endif_or_else_if (line : string) : bool :=
  String.eqb (Py.strip line) "endif" || Py.startswith (Py.strip line) "else if".

Definition stray_line (line : string) : bool :=
  String.eqb (Py.strip line) "endif" || String.eqb (Py.strip line) "else"
  || Py.startswith (Py.strip line) "else if".

(** The pass over [impl_elements]: closing lines are added to a
    conditional, then its bare [endif] / [else if] lines are dropped. *)
Definition fix_impl_element (elem : Element) : Element :=
  match type elem with
  | TConditional =>
      let body := close_conditional (content elem) in
      let elem1 :=
        if close_count (content elem) <? open_count (content elem)
        then with_content elem body else elem in
      let lines := Py.splitlines body in
      let fixed_lines := filter (fun l => negb (stray_endif_or_else_if l)) lines in
      if length fixed_lines <? length lines
      then with_content elem (Py.join Py.nl fixed_lines)
      else elem1
  | _ => elem
  end.

(** What the last loop adds to the implementation file for one element. *)
Definition emit_impl_element (elem : Element) : string :=
  match type elem with
  | TConditional | TFunction =>
      let lines := Py.splitlines (content elem) in
      let fixed_lines := filter (fun l => negb (stray_line l)) lines in
      if length fixed_lines <? length lines
      then Py.join Py.nl fixed_lines +++ Py.nl +++ Py.nl
      else content elem +++ Py.nl +++ Py.nl
  | _ => content elem +++ Py.nl +++ Py.nl
  end.

(** The elements of the implementation unit of a component. *)
Definition impl_elements_of (elements header_elements : list Element) : list Element :=
  filter (fun elem =>
            match type elem with
            | TFunction | TGlobal => true
            | TConditional => negb (any (fun e => elem_eqb e elem) header_elements)
            | _ => false
            end) elements.

(** The text of the implementation unit of one component. *)
Definition impl_of (file_key : string) (elements header_elements : list Element) : string :=
  let ic := impl_prologue file_key in
  let ic := fold_left (fun ic header => ic +++ "#include " +++ header +++ Py.nl)
                      STANDARD_HEADERS ic in
  let ic := ic +++ Py.nl +++ "#include " +++ dq +++ "sod_" +++ file_key +++ ".h" +++ dq
               +++ Py.nl in
  let includes := _get_necessary_includes elements in
  let includes :=
    if negb (Py.mem "common" includes) && negb (String.eqb file_key "common")
    then set_add "common" includes else includes in
  let includes :=
    if Py.mem file_key ["cnn"; "detection"; "box_utils"]
    then set_add "nn_types" includes else includes in
  let includes :=
    if Py.mem file_key ["activation"; "dropout"]
    then set_add "nn_types" includes else includes in
  let ic :=
    fold_left (fun ic include =>
                 if negb (String.eqb include file_key)
                 then ic +++ "#include " +++ dq +++ "sod/sod_" +++ include +++ ".h" +++ dq
                         +++ Py.nl
                 else ic) includes ic in
  let ic := ic +++ Py.nl in
  let ic :=
    if String.eqb file_key "common"
    then ic +++ text ["#ifndef OS_OTHER"; "#define OS_OTHER"; "#endif"; ""]
    else ic in
  let impl_elements := map fix_impl_element (impl_elements_of elements header_elements) in
  fold_left (fun ic elem => ic +++ emit_impl_element elem)
            (sort_by_start impl_elements) ic.

(** What can end a pass: the one exception the synthesizer itself
    raises is the [TypeError] of [f.write] on a [list]. *)
Inductive exn : Type :=
| TypeError
| OtherException
| KeyboardInterrupt.

Definition write_file (fs : files) (path body : string) : files := dict_set path body fs.

(** The body of the loop of [create_output_files] for one component:
    the implementation file is written first; opening the header file
    for writing empties it, then [f.write] raises on a [list]. *)
Definition write_component (st : state) (fs : files) (kv : string * list Element)
    : files * option exn :=
  let '(file_key, elements) := kv in
  let '(header_content, header_elements) := header_of st file_key elements in
  let impl_content := impl_of file_key elements header_elements in
  let fs := write_file fs (c_path file_key) impl_content in
  match header_content with
  | PStr h => (write_file fs (h_path file_key) h, None)
  | PList _ => (write_file fs (h_path file_key) EmptyString, Some TypeError)
  end.

Fixpoint write_components (st : state) (fs : files) (l : list (string * list Element))
    : files * option exn :=
  match l with
  | [] => (fs, None)
  | kv :: tl =>
      match write_component st fs kv with
      | (fs', None) => write_components st fs' tl
      | (fs', Some e) => (fs', Some e)
      end
  end.

(** [_create_common_header]: the class defines the method twice and the
    second definition is the one in force. *)
Definition _create_common_header (st : state) (fs : files) : files :=
  let hc := text [ "";
                   "/* ";
                   " * sod_common.h - Common definitions for the SOD library";
                   " * Generated from the original monolithic code";
                   " */";
                   "";
                   "#ifndef SOD_COMMON_H__";
                   "#define SOD_COMMON_H__";
                   "";
                   "/* Standard includes */" ] in
  let hc := fold_left (fun hc header => hc +++ "#include " +++ header +++ Py.nl)
                      STANDARD_HEADERS hc in
  let hc := hc +++ Py.nl +++ SOD_API_EXPORT_MACRO +++ Py.nl in
  let hc := hc +++ Py.nl +++ REQUIRED_TYPEDEFS +++ Py.nl in
  let hc := hc +++ Py.nl +++ "/* Required constants */" +++ Py.nl in
  let hc :=
    fold_left (fun hc constant =>
                 match find (fun macro => String.eqb (name macro) constant) (macros st) with
                 | Some macro => hc +++ content macro +++ Py.nl
                 | None => hc
                 end) REQUIRED_CONSTANTS hc in
  let hc := hc +++ Py.nl +++ "/* Forward declarations for common types */" +++ Py.nl in
  let hc :=
    fold_left (fun hc type_name =>
                 hc +++ "typedef struct " +++ type_name +++ " " +++ type_name +++ ";"
                    +++ Py.nl) COMMON_TYPES hc in
  let hc := hc +++ Py.nl +++ "/* Common enumerations */" +++ Py.nl in
  let hc :=
    fold_left (fun hc enum =>
                 if Py.mem (name enum) COMMON_ENUMS
                 then hc +++ content enum +++ Py.nl +++ Py.nl else hc)
              (enums st) hc in
  let hc := hc +++ Py.nl +++ "#endif /* SOD_COMMON_H__ */" +++ Py.nl in
  write_file fs (h_path "common") hc.

(** [create_output_files] *)
Definition create_output_files (st : state) (fs : files) : files * option exn :=
  write_components st (_create_common_header st fs) (output_files st).

(** [sorted(keys)] *)
Fixpoint insert_str (x : string) (l : list string) : list string :=
  match l with
  | [] => [x]
  | y :: tl => if String.ltb x y then x :: y :: tl else y :: insert_str x tl
  end.

Definition sorted_str (l : list string) : list string :=
  fold_left (fun acc x => insert_str x acc) l [].

Definition main_header_path : string := "include/sod/../sod.h".

(** [create_main_header] *)
Definition create_main_header (st : state) (fs : files) : files :=
  let hc := text [ "";
                   "/* ";
                   " * sod.h - Main header file for the SOD library";
                   " * Generated from the original monolithic code";
                   " */";
                   "";
                   "#ifndef SOD_H__";
                   "#define SOD_H__";
                   "";
                   "/* Include all component headers */";
                   "#include " +++ dq +++ "sod/sod_common.h" +++ dq ] in
  let hc :=
    fold_left (fun hc c =>
                 if negb (String.eqb c "common")
                 then hc +++ "#include " +++ dq +++ "sod/sod_" +++ c +++ ".h" +++ dq +++ Py.nl
                 else hc)
              (sorted_str (map fst (output_files st))) hc in
  write_file fs main_header_path (hc +++ Py.nl +++ "#endif /* SOD_H__ */" +++ Py.nl).

(** ** Integrity Verifier/Repairer *)

(** The wall-clock gates: every check of a file is guarded by a test of
    the time spent on it.  A budget says how many gates are passed in
    time, in [_check_for_common_issues] and in [_check_for_macro_issues]. *)
Record budget : Type := mkBudget {
  common_gates : nat;
  macro_gates : nat
}.

Definition unlimited : budget := mkBudget 7 6.

(** [str(n)] *)
Definition str_of_nat (n : nat) : string := NilZero.string_of_uint (Nat.to_uint n).

(** *** Unterminated string literals *)

Definition is_comment_line (line : string) : bool :=
  Py.startswith (Py.strip line) "//" || Py.startswith (Py.strip line) "/*".

Definition odd_quotes (line : string) : bool :=
  Nat.odd (Py.count_char (ascii_of_nat 34) line).

Definition unterminated (line : string) : bool :=
  negb (is_comment_line line) && odd_quotes line.

Definition fix_strings (body : string) : string * bool :=
  let lines := Py.split "010" body in
  if any unterminated lines then
    (Py.join Py.nl (map (fun line => if unterminated line then line +++ dq else line) lines),
     true)
  else (body, false).

(** *** Braces *)

(** The scan of one line from index [j]: [prev] is [line[j-1]];
    [in_string] is the inner loop that runs to the closing quote. *)
Fixpoint scan_line (rest : string) (prev : option ascii) (in_string in_comment : bool)
    (brace_balance : Z) : bool * Z :=
  match rest with
  | EmptyString => (in_comment, brace_balance)
  | String c tl =>
      let quote := ascii_of_nat 34 in
      let bslash := ascii_of_nat 92 in
      let prev_is_bslash :=
        match prev with Some p => Ascii.eqb p bslash | None => false end in
      if in_string then
        if negb (Ascii.eqb c quote) || prev_is_bslash
        then scan_line tl (Some c) true in_comment brace_balance
        else scan_line tl (Some c) false in_comment brace_balance
      else if Ascii.eqb c quote && negb prev_is_bslash
      then scan_line tl (Some c) true in_comment brace_balance
      else
        match tl with
        | String d tl2 =>
            if Ascii.eqb c "/" && Ascii.eqb d "/" then (in_comment, brace_balance)
            else if Ascii.eqb c "/" && Ascii.eqb d "*"
            then scan_line tl2 (Some d) false true brace_balance
            else if in_comment && Ascii.eqb c "*" && Ascii.eqb d "/"
            then scan_line tl2 (Some d) false false brace_balance
            else if in_comment then scan_line tl (Some c) false in_comment brace_balance
            else
              let b := if Ascii.eqb c "{" then (brace_balance + 1)%Z
                       else if Ascii.eqb c "}" then (brace_balance - 1)%Z
                       else brace_balance in
              scan_line tl (Some c) false in_comment b
        | EmptyString =>
            if in_comment then (in_comment, brace_balance)
            else
              let b := if Ascii.eqb c "{" then (brace_balance + 1)%Z
                       else if Ascii.eqb c "}" then (brace_balance - 1)%Z
                       else brace_balance in
              (in_comment, b)
        end
  end.

Definition brace_balance_of (lines : list string) : Z :=
  snd (fold_left (fun st line => scan_line line None false (fst st) (snd st))
                 lines (false, 0%Z)).

Definition brace_note : string := "/* Extra closing brace removed */".

(** From the last line backwards, the last closing brace of a line is
    turned into a note, for as many lines as there are extra braces. *)
Fixpoint remove_extra_braces (rev_lines : list string) (extra_braces : nat) : list string :=
  match rev_lines with
  | [] => []
  | line :: tl =>
      match extra_braces with
      | 0 => rev_lines
      | S extra' =>
          if Py.contains line "}" && negb (Py.startswith (Py.strip line) "//")
             && negb (Py.contains line "/*") then
            match Py.rfind_char "}" line with
            | Some last_brace =>
                (Py.take last_brace line +++ brace_note +++ Py.drop (last_brace + 1) line)
                  :: remove_extra_braces tl extra'
            | None => line :: remove_extra_braces tl extra_braces
            end
          else line :: remove_extra_braces tl extra_braces
      end
  end.

Definition fix_braces (body : string) : string * bool :=
  let lines := Py.split "010" body in
  let brace_balance := brace_balance_of lines in
  if (0 <? brace_balance)%Z then
    (body +++ Py.nl +++ Py.repeat_str "}" (Z.to_nat brace_balance)
          +++ " /* Auto-added to balance braces */" +++ Py.nl, true)
  else if (brace_balance <? 0)%Z then
    (Py.join Py.nl (rev (remove_extra_braces (rev lines) (Z.to_nat (- brace_balance)))),
     true)
  else (body, false).

(** *** Terminators of struct and enum definitions *)

Definition struct_enum_def_rx : regex :=
  seqs [ Grp 1 (Alt (seqs [lit "typedef"; plus ws; lit "struct"])
                    (seqs [lit "typedef"; plus ws; lit "enum"]));
         star (none_of ";{"); Chr "{"; star (none_of "}"); Chr "}"; star ws;
         Grp 2 ident; star ws; NotAhead (Chr ";") ].

(** The pattern built from one finding: both captured texts literally. *)
Definition struct_enum_fix_rx (head nm : string) : regex :=
  seqs [ Grp 1 (seqs [ lit head; star (none_of ";{"); Chr "{"; star (none_of "}");
                       Chr "}"; star ws; lit nm ]);
         star ws; NotAhead (Chr ";") ].

Definition fix_semicolons (body : string) : string * bool :=
  let struct_enum_defs := finditer struct_enum_def_rx body in
  match struct_enum_defs with
  | [] => (body, false)
  | _ =>
      (fold_left (fun fixed m =>
                    sub (struct_enum_fix_rx (group_str m 1) (group_str m 2))
                        [TRef 1; TText ";"] fixed)
                 (firstn 50 struct_enum_defs) body,
       true)
  end.

(** *** Malformed enum terminators *)

Definition enum_extra_semis_rx : regex :=
  seqs [ Chr "}"; star ws; Grp 1 ident; star ws; Chr ";";
         star (Cls true [COne ";"; COne "{"; COne "}"; COne "010"]%char); Chr ";" ].

Definition enum_extra_lazy_rx : regex :=
  seqs [ Chr "}"; star ws; Grp 1 ident; star ws; Chr ";";
         star_lazy (Cls true [COne "{"; COne "}"; COne "010"]%char); Chr ";" ].

(** The three substitutions are made on the text repaired so far; the
    findings are reported from the text as it was read. *)
Definition fix_enums (original fixed : string) : string * bool :=
  let fixed := sub enum_fix_E enum_fix_template fixed in
  let fixed := sub enum_extra_semis_rx enum_fix_template fixed in
  let fixed := sub enum_extra_lazy_rx enum_fix_template fixed in
  let malformed_enums := finditer enum_fix_E original in
  let malformed_enums2 := finditer enum_extra_semis_rx original in
  (fixed, negb (Nat.eqb (length malformed_enums) 0)
          || negb (Nat.eqb (length malformed_enums2) 0)).

(** *** [Windows.h] *)

Definition windows_include_rx : regex :=
  seqs [ lit "#include"; plus ws; lit "<Windows"; Dot; lit "h>" ].

Definition fix_windows (os_is_nt : bool) (body : string) : string * bool :=
  if Py.contains body "Windows.h" && negb os_is_nt then
    (sub windows_include_rx
         [TText ("#ifdef _WIN32" +++ Py.nl +++ "#include <windows.h>" +++ Py.nl +++ "#endif")]
         body, true)
  else (body, false).

(** *** Macro checks: [_check_for_macro_issues] *)

(** Long [#define] lines are cut at column 79 and continued; the line
    after one is indented, and only then is the repair counted.
    [indent] says that the line at the head was indented that way. *)
Fixpoint fix_long_macros (lines : list string) (indent : bool) : list string * bool :=
  match lines with
  | [] => ([], false)
  | line0 :: tl =>
      let line := if indent then "    " +++ line0 else line0 in
      if Py.startswith line "#define" && (80 <? String.length line)
         && negb (Py.endswith line backslash) then
        let line' := Py.take 79 line +++ " " +++ backslash in
        match tl with
        | next :: _ =>
            if negb (Py.startswith next "#") then
              let '(r, _) := fix_long_macros tl true in (line' :: r, true)
            else
              let '(r, f) := fix_long_macros tl false in (line' :: r, f)
        | [] => ([line'], false)
        end
      else
        let '(r, f) := fix_long_macros tl false in (line :: r, f)
  end.

Definition if_line_rx : regex := seqs [Bos; star ws; Chr "#"; star ws; lit "if"].
Definition endif_line_rx : regex := seqs [Bos; star ws; Chr "#"; star ws; lit "endif"].
Definition define_line_rx : regex :=
  seqs [Bos; star ws; Chr "#"; star ws; lit "define"; plus ws; Grp 1 ident].

(** The state of the scan for redefinitions. *)
Record redef_state : Type := mkRedef {
  macro_defs : list string;
  in_guard : list string;
  directive_stack : list string;
  redef_fixed : bool
}.

Definition redef_step (st : redef_state) (line : string) : redef_state * string :=
  let stack :=
    if found (match_ if_line_rx line) then directive_stack st ++ [line]
    else if found (match_ endif_line_rx line) then removelast (directive_stack st)
    else directive_stack st in
  match match_ define_line_rx line with
  | Some macro_match =>
      let macro_name := group_str macro_match 1 in
      let is_guarded :=
        match stack with
        | [] => false
        | _ => found (search (seqs [lit "#ifndef"; plus ws; lit macro_name])
                             (last stack EmptyString))
        end in
      let guards := if is_guarded then set_add macro_name (in_guard st) else in_guard st in
      if negb is_guarded && negb (Py.mem macro_name guards) then
        if Py.mem macro_name (macro_defs st) then
          (mkRedef (macro_defs st) guards stack true,
           "/* Duplicate definition removed: " +++ line +++ " */")
        else (mkRedef (macro_defs st ++ [macro_name]) guards stack (redef_fixed st), line)
      else (mkRedef (macro_defs st) guards stack (redef_fixed st), line)
  | None => (mkRedef (macro_defs st) (in_guard st) stack (redef_fixed st), line)
  end.

Fixpoint fix_redefinitions (lines : list string) (st : redef_state)
    : list string * bool :=
  match lines with
  | [] => ([], redef_fixed st)
  | line :: tl =>
      let '(st', line') := redef_step st line in
      let '(r, f) := fix_redefinitions tl st' in
      (line' :: r, f)
  end.

Definition define_rx : regex :=
  seqs [Chr "#"; star ws; lit "define"; plus ws; Grp 1 ident].
Definition undef_rx : regex :=
  seqs [Chr "#"; star ws; lit "undef"; plus ws; Grp 1 ident].

(** Each [#undef] of a name with no [#define] is wrapped in a comment,
    at the offsets its match had in the text before the first wrapping. *)
Definition fix_undefs (body : string) : string * bool :=
  let defined_macros := map (fun m => group_str m 1) (finditer define_rx body) in
  fold_left
    (fun acc m =>
       let '(fixed, f) := acc in
       if negb (Py.mem (group_str m 1) defined_macros) then
         let s := N.to_nat (m_start m) in
         let e := N.to_nat (m_end m) in
         (Py.take s fixed +++ "/* Commented out as no matching #define found: "
            +++ Py.slice s e fixed +++ " */" +++ Py.drop e fixed, true)
       else acc)
    (finditer undef_rx body) (body, false).

Definition open_line_rx : regex :=
  seqs [ Bos; star ws; Chr "#"; star ws;
         Grp 1 (alts [lit "if"; lit "ifdef"; lit "ifndef"]); WordB ].
Definition close_line_rx : regex :=
  seqs [Bos; star ws; Chr "#"; star ws; lit "endif"; WordB].

(** The nesting scan: the opening directives still open, and the line
    numbers of the [#endif] lines that close nothing. *)
Fixpoint nesting_scan (lines : list (nat * string)) (stack : list (nat * string))
    (unmatched_endifs : list nat) : list (nat * string) * list nat :=
  match lines with
  | [] => (stack, unmatched_endifs)
  | (i, line) :: tl =>
      let stripped := Py.strip line in
      if Py.startswith stripped "//" || Py.startswith stripped "/*"
      then nesting_scan tl stack unmatched_endifs
      else if found (match_ open_line_rx stripped)
      then nesting_scan tl (stack ++ [(i, stripped)]) unmatched_endifs
      else if found (match_ close_line_rx stripped) then
        match stack with
        | [] => nesting_scan tl stack (unmatched_endifs ++ [i])
        | _ => nesting_scan tl (removelast stack) unmatched_endifs
        end
      else nesting_scan tl stack unmatched_endifs
  end.

Definition fix_nesting (body : string) : string * bool :=
  let lines := Py.splitlines body in
  let '(stack, unmatched_endifs) := nesting_scan (enumerate lines) [] [] in
  match stack, unmatched_endifs with
  | [], [] => (body, false)
  | _, _ =>
      let lines :=
        map (fun il => if existsb (Nat.eqb (fst il)) unmatched_endifs
                       then "/* Extra #endif removed: " +++ snd il +++ " */"
                       else snd il) (enumerate lines) in
      let lines :=
        lines ++ map (fun id => "#endif /* Auto-added to match " +++ snd id +++ " at line "
                                +++ str_of_nat (fst id + 1) +++ " */") stack in
      (Py.join Py.nl lines, true)
  end.

(** [_check_for_macro_issues(path, content)]; the last check of the
    source only prints and is left out. *)
Definition _check_for_macro_issues (gates : nat) (body : string) : string :=
  let fixed := body in
  let issues_fixed := false in
  let '(fixed, issues_fixed) :=
    if 0 <? gates then
      let '(lines, f) := fix_long_macros (Py.splitlines fixed) false in
      if f || issues_fixed then (Py.join Py.nl lines, true) else (fixed, issues_fixed)
    else (fixed, issues_fixed) in
  let '(fixed, issues_fixed) :=
    if 1 <? gates then
      let '(lines, f) :=
        fix_redefinitions (Py.splitlines fixed) (mkRedef [] [] [] issues_fixed) in
      if f then (Py.join Py.nl lines, true) else (fixed, issues_fixed)
    else (fixed, issues_fixed) in
  let '(fixed, issues_fixed) :=
    if 2 <? gates then
      let '(fixed', f) := fix_undefs fixed in (fixed', f || issues_fixed)
    else (fixed, issues_fixed) in
  let '(fixed, issues_fixed) :=
    if 3 <? gates then
      let '(fixed', f) := fix_nesting fixed in (fixed', f || issues_fixed)
    else (fixed, issues_fixed) in
  if issues_fixed then fixed else body.

(** *** [_check_for_common_issues] and [_verify_output] *)

(** [_check_for_common_issues(path, content)]: the text to leave in the
    file and the value returned.  The macro checks change the text
    without a part in the returned flag. *)
Definition check_common (b : budget) (os_is_nt : bool) (body : string) : string * bool :=
  let gates := common_gates b in
  let '(fixed, issues_found) :=
    if 0 <? gates then fix_strings body else (body, false) in
  let '(fixed, issues_found) :=
    if 1 <? gates then
      let '(fixed', f) := fix_braces fixed in (fixed', f || issues_found)
    else (fixed, issues_found) in
  let '(fixed, issues_found) :=
    if 2 <? gates then
      let '(fixed', f) := fix_semicolons fixed in (fixed', f || issues_found)
    else (fixed, issues_found) in
  let '(fixed, issues_found) :=
    if 3 <? gates then
      let '(fixed', f) := fix_enums body fixed in (fixed', f || issues_found)
    else (fixed, issues_found) in
  let '(fixed, issues_found) :=
    if 4 <? gates then
      let '(fixed', f) := fix_windows os_is_nt fixed in (fixed', f || issues_found)
    else (fixed, issues_found) in
  let fixed :=
    if 5 <? gates then _check_for_macro_issues (macro_gates b) fixed else fixed in
  (fixed, issues_found).

Definition _check_for_common_issues (b : budget) (os_is_nt : bool) (fs : files)
    (path body : string) : files * bool * list event :=
  let '(fixed, issues_found) := check_common b os_is_nt body in
  let '(fs, evs) :=
    if negb (String.eqb fixed body)
    then (write_file fs path fixed, [FixedIssues path])
    else (fs, []) in
  let evs := if issues_found then WarnIssue "common" path :: evs else evs in
  let evs := if common_gates b <? 7 then evs ++ [WarnIssue "timed out" path] else evs in
  (fs, issues_found, evs).

Definition auto_endif_balance : string :=
  Py.nl +++ "#endif /* Auto-added to balance directives */" +++ Py.nl.

(** The balance step of [_verify_output] on the text of one file: what
    is appended to the file. *)
Definition balance_file (body : string) : string :=
  let open_directives := open_count body in
  let close_directives := close_count body in
  if close_directives <? open_directives
  then body +++ Py.repeat_str auto_endif_balance (open_directives - close_directives)
  else body.

(** The body of the loop of [_verify_output] for one path. *)
Definition verify_path (bud : string -> budget) (os_is_nt : bool)
    (acc : files * bool * list event) (path : string) : files * bool * list event :=
  let '(fs, issues_found, evs) := acc in
  match dict_get path fs with
  | Some body =>
      let open_directives := open_count body in
      let close_directives := close_count body in
      let '(fs, issues_found, evs) :=
        if negb (open_directives =? close_directives) then
          let evs := evs ++ [WarnUnbalanced path open_directives close_directives] in
          if close_directives <? open_directives then
            (write_file fs path (balance_file body), true,
             evs ++ [FixedByAddingEndif path (open_directives - close_directives)])
          else (fs, true, evs ++ [WarnMoreEndif path])
        else (fs, issues_found, evs) in
      let '(fs, file_issues, evs') :=
        _check_for_common_issues (bud path) os_is_nt fs path body in
      (fs, file_issues || issues_found, evs ++ evs')
  | None => acc
  end.

(** [_verify_output]: the files after the pass, the value returned, and
    what was printed. *)
Definition _verify_output (bud : string -> budget) (os_is_nt : bool) (st : state)
    (fs : files) : files * bool * list event :=
  fold_left
    (fun acc kv =>
       fold_left (verify_path bud os_is_nt) [c_path (fst kv); h_path (fst kv)] acc)
    (output_files st) (fs, false, []).

(** ** The run *)

(** What the run does not decide itself. *)
Record env : Type := mkEnv {
  input : option string;          (* the text of the input file, if it can be read *)
  skip_verification : bool;       (* --skip-verification *)
  strict : bool;                  (* --strict *)
  near_timeout : bool;            (* 80% of --max-time spent after processing *)
  os_is_nt : bool;                (* os.name == 'nt' *)
  interrupt : bool;               (* the user interrupts while processing starts *)
  budget_first : string -> budget;   (* time gates of the first verification *)
  budget_second : string -> budget   (* time gates of the second verification *)
}.

(** [extract_and_process]: every [Exception] raised inside is caught
    here, reported, and the method returns. *)
Definition extract_and_process (e : env) (source : string) : state * files :=
  let st := extract_symbols source init_state in
  let st := map_symbols_to_components st in
  match create_output_files st [] with
  | (fs, Some _) => (print (print st ErrorDuringProcessing) Traceback, fs)
  | (fs, None) =>
      let fs := create_main_header st fs in
      let '(fs, _, evs) := _verify_output (budget_first e) (os_is_nt e) st fs in
      (set_log st (log st ++ evs), fs)
  end.

(** The outcome of [main]: exit status, written files, printed events. *)
Record outcome : Type := mkOutcome {
  exit_status : nat;
  written : files;
  printed : list event
}.

(** [main] *)
Definition main (e : env) : outcome :=
  match input e with
  | None => mkOutcome 1 [] [ErrorDuringProcessing; Traceback]
  | Some source =>
      if interrupt e then mkOutcome 0 [] [Interrupted]
      else
        let '(st, fs) := extract_and_process e source in
        if skip_verification e then
          mkOutcome 0 fs (log st ++ [SkippingVerification; CompletedSuccessfully])
        else if near_timeout e then
          mkOutcome 0 fs (log st ++ [SkippingVerification; CompletedSuccessfully])
        else
          let '(fs, issues_found, evs) :=
            _verify_output (budget_second e) (os_is_nt e) st fs in
          if strict e && issues_found
          then mkOutcome 1 fs (log st ++ evs ++ [ErrorStrict])
          else mkOutcome 0 fs (log st ++ evs ++ [CompletedSuccessfully])
  end.

(** ** Parts of the source outside the run's data flow *)

(** [COMPONENT_GROUPS]: the components, each with the components it
    depends on. *)
Definition COMPONENT_GROUPS : list (string * list string) :=
  [ ("common", []);
    ("data_structures", ["common"]);
    ("nn_types", ["common"; "data_structures"]);
    ("activation", ["common"; "nn_types"]);
    ("cpu_utils", ["common"; "nn_types"; "data_structures"]);
    ("nn_utils", ["common"; "nn_types"; "data_structures"; "activation"; "cpu_utils"]);
    ("cost_layer", ["common"; "nn_types"; "data_structures"; "activation"]);
    ("softmax_impl", ["common"; "nn_types"; "data_structures"; "activation"; "cpu_utils"]);
    ("batchnorm_impl", ["common"; "nn_types"; "data_structures"; "activation"; "cpu_utils"]);
    ("connected_impl", ["common"; "nn_types"; "data_structures"; "activation"; "cpu_utils"]);
    ("convolutional", ["common"; "nn_types"; "data_structures"; "activation"; "cpu_utils"]);
    ("dropout", ["common"; "nn_types"; "data_structures"; "activation"; "cpu_utils"]);
    ("normalization", ["common"; "nn_types"; "data_structures"; "activation"; "cpu_utils"]);
    ("local_layer", ["common"; "nn_types"; "data_structures"; "activation"; "cpu_utils"]);
    ("route_layer", ["common"; "nn_types"; "data_structures"; "activation"; "cpu_utils"]);
    ("box_utils", ["common"; "data_structures"; "nn_types"]);
    ("cnn", ["common"; "nn_types"; "data_structures"; "box_utils"; "dropout"]);
    ("img_utils", ["common"; "data_structures"; "box_utils"]);
    ("detection", ["common"; "nn_types"; "data_structures"; "box_utils"; "cnn";
                   "img_utils"; "dropout"]);
    ("vfs", ["common"; "data_structures"]);
    ("cfg_parser", ["common"; "data_structures"; "nn_types"]);
    ("rnn", ["common"; "nn_types"; "data_structures"; "activation"; "cpu_utils"]) ].

(** [module_deps[k].add(v)] on a [defaultdict(set)]. *)
Fixpoint deps_add (k v : string) (d : list (string * list string))
    : list (string * list string) :=
  match d with
  | [] => [(k, [v])]
  | (k', s) :: tl =>
      if String.eqb k' k then (k', set_add v s) :: tl else (k', s) :: deps_add k v tl
  end.

(** [_analyze_module_dependencies]: what it leaves in [module_deps]. *)
Definition _analyze_module_dependencies (sm : list (string * info))
    (module_deps : list (string * list string)) : list (string * list string) :=
  fold_left
    (fun md si =>
       match component (snd si) with
       | Some source_component =>
           fold_left (fun md c =>
                        if negb (String.eqb c source_component)
                        then deps_add c source_component md else md)
                     (used_in (snd si)) md
       | None => md
       end)
    sm module_deps.

(** [.] under [re.DOTALL], and [$] under [re.MULTILINE]: the end of the
    text or of a line, that is, no character other than a line feed
    follows. *)
Definition any_char : regex := Cls true [].
Definition eol : regex := NotAhead Dot.

(** [r'/\*.*?\*/|//.*?$'] with [re.DOTALL | re.MULTILINE] *)
Definition comment_regex : regex :=
  Alt (seqs [lit "/*"; star_lazy any_char; lit "*/"])
      (seqs [lit "//"; star_lazy any_char; eol]).

(** The pattern of an include directive: [#include\s+], an opening
    angle bracket or a double quote, as group 1 one or more characters
    that are neither a double quote nor a closing angle bracket, and one
    of these two characters. *)
Definition include_regex : regex :=
  seqs [ lit "#include"; plus ws;
         Cls false [COne "<"%char; COne (ascii_of_nat 34)];
         Grp 1 (plus (Cls true [COne (ascii_of_nat 34); COne ">"%char]));
         Cls false [COne (ascii_of_nat 34); COne ">"%char] ].

(** [extract_comments]: the elements added to [self.comments]. *)
Definition extract_comments (source : string) (comments : list Element) : list Element :=
  fold_left
    (fun comments m =>
       comments ++ [mkElement "comment" TComment (m_text m)
                              (N.to_nat (m_start m)) (N.to_nat (m_end m)) []])
    (finditer comment_regex source) comments.

(** [extract_includes]: the elements added to [self.includes]. *)
Definition extract_includes (source : string) (includes : list Element) : list Element :=
  fold_left
    (fun includes m =>
       includes ++ [mkElement (group_str m 1) TInclude (m_text m)
                              (N.to_nat (m_start m)) (N.to_nat (m_end m)) []])
    (finditer include_regex source) includes.

(** ** Vocabulary of the statements *)

(** The allow-list that pins names of a kind to ["common"], and the
    component the mapping pass chooses for an element of each kind. *)
Definition allow_list (t : etype) : list string :=
  match t with
  | TTypedef => COMMON_TYPES
  | TEnum => COMMON_ENUMS
  | TMacro => REQUIRED_CONSTANTS
  | _ => []
  end.

Definition classify (e : Element) : string :=
  match type e with
  | TFunction => function_component e
  | TStruct => struct_component e
  | TEnum => enum_component e
  | TTypedef => typedef_component e
  | TGlobal => global_component e
  | TMacro => macro_component e
  | _ => "common"
  end.



(** The run with every time gate passed, off Windows, no flag set. *)
Definition plain_run (source : string) : env :=
  mkEnv (Some source) false false false false false
        (fun _ => unlimited) (fun _ => unlimited).


Definition total (f : string -> nat) (fs : files) : nat :=
  fold_left (fun n kv => n + f (snd kv)) fs 0.

(** The nesting depth of the directive stream, as the extractor counts
    it: an opening directive adds one, an [#endif] takes one off a
    positive depth. *)
Definition depth_step (d : nat) (x : nat * string) : nat :=
  if is_opening (snd x) then d + 1
  else if Py.startswith (snd x) "#endif" then d - 1
  else d.

Definition depth_after (ds : list (nat * string)) (d : nat) : nat :=
  fold_left depth_step ds d.

Definition final_depth (source : string) : nat :=
  depth_after (directive_lines source) 0.

(** How the directive stream is cut into elements: a directive that
    opens nothing is passed over; an opening directive takes all the
    directives up to the [#endif] that closes it into one element, and
    the cutting goes on after that [#endif]; an opening directive that
    is never closed gives the repaired element and ends the cutting. *)
Inductive segments (source : string) : list (nat * string) -> list Element -> Prop :=
| seg_done : segments source [] []
| seg_pass : forall x tl es,
    Py.startswith (snd x) "#if" = false ->
    segments source tl es ->
    segments source (x :: tl) es
| seg_block : forall line_num directive tl end_line chain rest es,
    Py.startswith directive "#if" = true ->
    scan_block tl 1 [(line_num, directive)]
      = Some (end_line, (line_num, directive) :: chain, rest) ->
    tl = chain ++ rest ->
    segments source rest es ->
    segments source ((line_num, directive) :: tl)
      (complete_conditional source line_num end_line directive
         ((line_num, directive) :: chain) :: es)
| seg_open : forall line_num directive tl,
    Py.startswith directive "#if" = true ->
    scan_block tl 1 [(line_num, directive)] = None ->
    segments source ((line_num, directive) :: tl) [fixed_conditional source line_num].

(** The appends [_map_conditionals] makes, in order: every member of a
    group with the component chosen for the group. *)
Definition assignments (st : state) : list (string * Element) :=
  flat_map (fun g => map (fun c => (group_component (symbol_map st) g, c)) g)
           (_group_related_conditionals st).

(** The state in which [_map_conditionals] is run. *)
Definition mapped_symbols (st : state) : state :=
  _map_macros (_map_globals (_map_typedefs (_map_enums (_map_structs (_map_functions st))))).

(** An element that is not the repaired one. *)
Definition not_fixed (e : Element) : Prop := name e <> "conditional_fixed".

(** The offset of line [n]: [len('\n'.join(lines[:n]))]. *)
Definition offset (lines : list string) (n : nat) : nat :=
  String.length (Py.join Py.nl (firstn n lines)).

(** Directive lines in increasing line order from line [m] on, each the
    stripped text of its line. *)
Fixpoint ok_from (lines : list string) (m : nat) (ds : list (nat * string)) : Prop :=
  match ds with
  | [] => True
  | (i, d) :: tl =>
      m <= i /\ i < length lines /\ d = Py.strip (nth i lines EmptyString)
      /\ ok_from lines (S i) tl
  end.

(** A conditional as the extractor builds it. *)
Definition canonical (e : Element) : Prop :=
  type e = TConditional /\ deps e = _extract_dependencies (content e).



(** Matches of a pattern that is a literal followed by [\b], read off
    the text directly: the literal is a prefix and the next character,
    if any, is not a word character. *)
Fixpoint strip_prefix (p l : list ascii) : option (list ascii) :=
  match p, l with
  | [], _ => Some l
  | a :: p', x :: l' => if Ascii.eqb a x then strip_prefix p' l' else None
  | _ :: _, [] => None
  end.

Definition hit_lit (p : string) (l : list ascii) : option nat :=
  match strip_prefix (list_ascii_of_string p) l with
  | Some l' => if is_word_opt (hd_error l') then None else Some (String.length p)
  | None => None
  end.

Definition hit_open (l : list ascii) : option nat :=
  or_else (hit_lit "#if" l) (or_else (hit_lit "#ifdef" l) (hit_lit "#ifndef" l)).

Definition hit_close (l : list ascii) : option nat := hit_lit "#endif" l.

(** The non-overlapping matches counted along the text: [skip] is the
    number of characters still covered by the last match. *)
Fixpoint cnt (hit : list ascii -> option nat) (l : list ascii) (skip : nat) : nat :=
  match l with
  | [] => 0
  | _ :: l' =>
      match skip with
      | S k => cnt hit l' k
      | 0 =>
          match hit l with
          | Some n => 1 + cnt hit l' (n - 1)
          | None => cnt hit l' 0
          end
      end
  end.

(** The first match at or after the start: characters before it, and
    its length. *)
Fixpoint first_hit (hit : list ascii -> option nat) (l : list ascii) : option (nat * nat) :=
  match hit l with
  | Some n => Some (0, n)
  | None =>
      match l with
      | [] => None
      | _ :: l' =>
          match first_hit hit l' with
          | Some (k, n) => Some (S k, n)
          | None => None
          end
      end
  end.

(** A text that is empty or starts with a line feed. *)
Definition starts_fresh (t : list ascii) : Prop :=
  t = [] \/ exists t', t = "010"%char :: t'.

(** The last character of a non-empty literal. *)
Fixpoint last_char (p : string) : ascii :=
  match p with
  | EmptyString => Ascii.zero
  | String a EmptyString => a
  | String _ p' => last_char p'
  end.

(** Inputs used below. *)
Definition src_layer_typedef : string := text ["typedef int local_layer;"].

Definition src_ifdef_win32 : string :=
  text [ "int box_area(void) { return 1; }";
         "#ifdef _WIN32";
         "#include <windows.h>";
         "#endif" ].

Definition src_typedef_in_conditional : string :=
  text [ "int box_f(void) { return 0; }";
         "#ifdef box_f";
         "typedef int T;";
         "#endif" ].

Definition src_two_blocks : string :=
  text [ "#ifdef A"; "#endif"; "#ifdef B"; "#endif" ].


(** ** Vocabulary of the further properties *)

(** A component of [COMPONENT_GROUPS]. *)
Definition known_component (c : string) : bool :=
  Py.mem c (map fst COMPONENT_GROUPS).

Definition symbols (st : state) : list Element :=
  functions st ++ structs st ++ enums st ++ typedefs st ++ globals st ++ macros st.


(** The test the header loop makes on the content of a conditional. *)
Definition declares (body : string) : bool :=
  found (search struct_regex body) || found (search enum_regex body)
  || found (search typedef_regex body).

(** A component one of whose conditionals passes that test. *)
Definition rebinds (elements : list Element) : bool :=
  existsb (fun e => etype_eqb (type e) TConditional && declares (content e)) elements.

Definition is_list (v : pyval) : bool :=
  match v with PList _ => true | PStr _ => false end.

(** The prototype element made for a function, when one is made. *)
Definition prototype_of (e : Element) : list Element :=
  match type e with
  | TFunction =>
      match declaration_of e with
      | Some decl =>
          if negb (Py.startswith decl "static")
          then [mkElement (name e) TDeclaration decl (start e)
                          (start e + String.length decl) []]
          else []
      | None => []
      end
  | _ => []
  end.


(** What a pattern can match: the text consumed and the groups set on
    the way.  Assertions ([\b], start of text, lookahead, lookbehind)
    consume nothing and set nothing. *)
Inductive sem : regex -> list ascii -> caps -> caps -> Prop :=
| sem_eps : forall c, sem Eps [] c c
| sem_chr : forall a c, sem (Chr a) [a] c c
| sem_cls : forall neg items x c,
    class_has neg items x = true -> sem (Cls neg items) [x] c c
| sem_dot : forall x c, Ascii.eqb x "010"%char = false -> sem Dot [x] c c
| sem_seq : forall r1 r2 w1 w2 c c1 c2,
    sem r1 w1 c c1 -> sem r2 w2 c1 c2 -> sem (Seq r1 r2) (w1 ++ w2) c c2
| sem_alt_l : forall r1 r2 w c c', sem r1 w c c' -> sem (Alt r1 r2) w c c'
| sem_alt_r : forall r1 r2 w c c', sem r2 w c c' -> sem (Alt r1 r2) w c c'
| sem_star_nil : forall g r c, sem (Star g r) [] c c
| sem_star_more : forall g r w1 w2 c c1 c2,
    sem r w1 c c1 -> sem (Star g r) w2 c1 c2 -> sem (Star g r) (w1 ++ w2) c c2
| sem_grp : forall n r w c c',
    sem r w c c' -> sem (Grp n r) w c (set_cap n (string_of_list_ascii w) c')
| sem_wordb : forall c, sem WordB [] c c
| sem_bos : forall c, sem Bos [] c c
| sem_notahead : forall r c, sem (NotAhead r) [] c c
| sem_notbehind : forall items c, sem (NotBehind items) [] c c.

(** A match object for an occurrence of the pattern in the text. *)
Definition occurs (r : regex) (s : string) (m : mobj) : Prop :=
  exists pre w post,
    list_ascii_of_string s = pre ++ w ++ post
    /\ m_start m = N.of_nat (length pre)
    /\ m_end m = N.of_nat (length pre + length w)
    /\ m_text m = string_of_list_ascii w
    /\ sem r w [] (m_caps m).

(** [[a-zA-Z_][a-zA-Z0-9_]*] *)
Definition is_identifier (s : string) : bool :=
  match s with
  | EmptyString => false
  | String c s' =>
      class_has false az_ c
      && forallb (class_has false az09_) (list_ascii_of_string s')
  end.

(** The offsets of an element delimit its content in the source. *)
Definition delimited (source : string) (slack : nat) (e : Element) : Prop :=
  start e <= end_ e
  /\ end_ e <= String.length source + slack
  /\ content e = Py.strip (Py.slice (start e) (end_ e) source).

(** What the nesting scan makes of a line. *)
Inductive line_kind : Type := KSkip | KOpen | KClose.

Definition kind_of (line : string) : line_kind :=
  let stripped := Py.strip line in
  if Py.startswith stripped "//" || Py.startswith stripped "/*" then KSkip
  else if found (match_ open_line_rx stripped) then KOpen
  else if found (match_ close_line_rx stripped) then KClose
  else KSkip.

(** The depth and the number of unmatched closing lines after lines of
    the given kinds, from depth [d]. *)
Fixpoint balance (ks : list line_kind) (d : nat) : nat * nat :=
  match ks with
  | [] => (d, 0)
  | KSkip :: tl => balance tl d
  | KOpen :: tl => balance tl (d + 1)
  | KClose :: tl =>
      match d with
      | 0 => let '(d', u) := balance tl 0 in (d', S u)
      | S d' => balance tl d'
      end
  end.


Definition src_include_and_comment : string :=
  text [ "#include <stdio.h>"; "/* sizes */"; "int n = 0; // count" ].

Definition func_with_else : Element :=
  mkElement "pick" TFunction
            (text [ "int pick(int a) {"; "  if (a)"; "    return 1;"; "  else";
                    "    return 2;"; "}" ])
            0 60 [].

Definition func_box_f : Element :=
  mkElement "box_f" TFunction "int box_f(void) { return 0; }" 0 29 [].

(** The state of a run when its files are made. *)
Definition run_state (source : string) : state :=
  map_symbols_to_components (extract_symbols source init_state).


(** Every component recorded in the symbol map is a known one. *)
Definition components_known (sm : list (string * info)) : Prop :=
  Forall (fun si => match component (snd si) with
                    | Some c => known_component c = true
                    | None => True
                    end) sm.

(** No entry of the symbol map has a user. *)
Definition no_users (sm : list (string * info)) : Prop :=
  Forall (fun si => used_in (snd si) = []) sm.

(** No entry of the symbol map has a component yet. *)
Definition unmapped (sm : list (string * info)) : Prop :=
  Forall (fun si => component (snd si) = None) sm.

Definition keys_known (o : list (string * list Element)) : Prop :=
  Forall (fun kv => known_component (fst kv) = true) o.

Definition fresh_state (st : state) : Prop :=
  output_files st = [] /\ unmapped (symbol_map st) /\ no_users (symbol_map st).

Definition mapped_state (st : state) : Prop :=
  keys_known (output_files st) /\ components_known (symbol_map st)
  /\ no_users (symbol_map st).

(** The votes are cast for known components only. *)
Definition votes_known (votes : list (string * nat)) : Prop :=
  Forall (fun kn => known_component (fst kn) = true) votes.

Definition registered (st : state) : Prop :=
  forall e, In e (symbols st) -> dict_has (name e) (symbol_map st) = true.

(** A name with an entry that has a component. *)
Definition has_component (nm : string) (sm : list (string * info)) : Prop :=
  exists i c, dict_get nm sm = Some i /\ component i = Some c.

Definition by_start (a b : Element) : Prop := start a <= start b.

(** The texts of a list, one after the other. *)
Definition str_concat (l : list string) : string :=
  fold_right String.append EmptyString l.

Definition closing_guard (file_key : string) : string :=
  Py.nl +++ "#endif /* SOD_" +++ Py.upper file_key +++ "_H__ */" +++ Py.nl.

Definition is_declaration (e : Element) : bool := etype_eqb (type e) TDeclaration.

Definition distinct_keys (st : state) : Prop := NoDup (map fst (output_files st)).

Definition extends (t x : string) : Prop := exists s, x = t +++ s.

Definition common_header_opening : string :=
  text [ "";
         "/* ";
         " * sod_common.h - Common definitions for the SOD library" ].

(** The cursor [cu'] is [cu] moved over the text [w]. *)
Definition moved (cu : cursor) (w : list ascii) (cu' : cursor) : Prop :=
  c_rest cu = w ++ c_rest cu'
  /\ c_pos cu' = (c_pos cu + N.of_nat (length w))%N.

(** A match found from a cursor: the text skipped, the text matched. *)
Definition found_from (r : regex) (pos : N) (rest : list ascii) (m : mobj) : Prop :=
  exists skipped w,
    rest = skipped ++ w ++ c_rest (m_after m)
    /\ m_start m = (pos + N.of_nat (length skipped))%N
    /\ m_end m = (m_start m + N.of_nat (length w))%N
    /\ c_pos (m_after m) = m_end m
    /\ m_text m = string_of_list_ascii w
    /\ sem r w [] (m_caps m).

(** The form of the text of an include directive. *)
Definition include_form (body nm : string) : Prop :=
  exists (spaces : string) (opening closing : ascii),
    body = "#include" +++ spaces +++ String opening (nm +++ String closing EmptyString)
    /\ spaces <> EmptyString
    /\ forallb Py.isspace (list_ascii_of_string spaces) = true
    /\ (opening = "<"%char \/ opening = ascii_of_nat 34)
    /\ (closing = ">"%char \/ closing = ascii_of_nat 34)
    /\ nm <> EmptyString
    /\ forallb (fun x => negb (Ascii.eqb x (ascii_of_nat 34)) && negb (Ascii.eqb x ">"%char))
               (list_ascii_of_string nm) = true.

(** The form of the text of a comment. *)
Definition comment_form (body : string) : Prop :=
  (exists middle, body = "/*" +++ middle +++ "*/")
  \/ (exists rest, body = "//" +++ rest).

(** The lengths of the pieces of a text, each with its separator. *)
Definition pieces_length (l : list string) : nat :=
  fold_right (fun x n => String.length x + 1 + n) 0 l.

Definition offsets_ok (source : string) (st : state) : Prop :=
  Forall (delimited source 0) (functions st)
  /\ Forall (delimited source 0) (structs st)
  /\ Forall (delimited source 0) (globals st)
  /\ Forall (delimited source 0) (typedefs st)
  /\ Forall (delimited source 1) (macros st).

(** A text without the character [c]. *)
Definition free_of (c : ascii) (s : string) : Prop := Py.count_char c s = 0.

Definition after_break (x : ascii) (s : string) : string :=
  if Ascii.eqb x "013"%char then
    match s with
    | String y s' => if Ascii.eqb y "010"%char then s' else s
    | EmptyString => s
    end
  else s.

(** A line: a text without a line boundary. *)
Definition is_line (s : string) : Prop :=
  forallb (fun c => negb (Py.islinebreak c)) (list_ascii_of_string s) = true.

(** The lines of a text made by joining lines with line feeds: the
    lines themselves, without an empty last one. *)
Fixpoint without_empty_last (ls : list string) : list string :=
  match ls with
  | [] => []
  | [x] => match x with EmptyString => [] | _ => [x] end
  | x :: tl => x :: without_empty_last tl
  end.

(** The line put in the place of an unmatched [#endif], and the line
    added for a directive left open. *)
Definition removed_endif (line : string) : string :=
  "/* Extra #endif removed: " +++ line +++ " */".

Definition added_endif (id : nat * string) : string :=
  "#endif /* Auto-added to match " +++ snd id +++ " at line "
    +++ str_of_nat (fst id + 1) +++ " */".

Definition repaired_line (um : list nat) (il : nat * string) : string :=
  if existsb (Nat.eqb (fst il)) um then removed_endif (snd il) else snd il.

(** The line of the main header that includes a component. *)
Definition include_line (component : string) : string :=
  "#include " +++ dq +++ "sod/sod_" +++ component +++ ".h" +++ dq +++ Py.nl.

(** Every list of the extractor holds elements of its own type. *)
Definition kinds_ok (st : state) : Prop :=
  Forall (fun e => type e = TFunction) (functions st)
  /\ Forall (fun e => type e = TStruct) (structs st)
  /\ Forall (fun e => type e = TEnum) (enums st)
  /\ Forall (fun e => type e = TTypedef) (typedefs st)
  /\ Forall (fun e => type e = TGlobal) (globals st)
  /\ Forall (fun e => type e = TMacro) (macros st).

(** [e] is in the list of component [k]. *)
Definition placed (k : string) (e : Element) (o : list (string * list Element)) : Prop :=
  exists els, In (k, els) o /\ In e els.

(** The enums whose text is taken from the definitions of the module. *)
Definition defined_with_module (file_key : string) (e : Element) : bool :=
  String.eqb file_key "nn_types"
  && Py.mem (name e) ["SOD_CNN_LAYER_TYPE"; "learning_rate_policy"; "COST_TYPE"]
  || String.eqb file_key "activation" && String.eqb (name e) "ACTIVATION".

(** The elements that the header loop takes over as they are. *)
Definition taken_over (file_key : string) (e : Element) : bool :=
  match type e with
  | TStruct | TTypedef | TMacro => true
  | TEnum => negb (defined_with_module file_key e)
  | _ => false
  end.

(** Whether the scan of the lines ends inside a block comment. *)
Definition comment_open_after (lines : list string) : bool :=
  fst (fold_left (fun st line => scan_line line None false (fst st) (snd st))
                 lines (false, 0%Z)).

Definition brace_line_note : string := " /* Auto-added to balance braces */".

(** A group with a member, all of whose members have one name. *)
Definition uniform (g : list Element) : Prop :=
  g <> [] /\ exists nm, Forall (fun e => name e = nm) g.

(** The groups while one of them is being gathered: the last one holds
    blocks named [nm]. *)
Definition gathering (nm : string) (gs : list (list Element)) : Prop :=
  exists done g, gs = done ++ [g] /\ Forall uniform done
                 /\ g <> [] /\ Forall (fun e => name e = nm) g.

(** Two states of the scan that differ at most in the flag. *)
Definition same_scan (s1 s2 : redef_state) : Prop :=
  macro_defs s1 = macro_defs s2 /\ in_guard s1 = in_guard s2
  /\ directive_stack s1 = directive_stack s2.

Definition removed_definition (line : string) : string :=
  "/* Duplicate definition removed: " +++ line +++ " */".

End Splitter.

Import Re Splitter.

(** * Properties *)

(** ** Classification *)

(** C9.  The component of a function depends on its name only: for one
    name, any two contents give the same component, in the cascade
    [_determine_function_component] and so in [_map_functions]. *)
Theorem function_component_ignores_content :
  (forall func_name body1 body2 : string,
      _determine_function_component func_name body1
      = _determine_function_component func_name body2)
  /\ (forall (nm c1 c2 : string) (t1 t2 : etype) (s1 s2 e1 e2 : nat) (d1 d2 : list string),
         function_component (mkElement nm t1 c1 s1 e1 d1)
         = function_component (mkElement nm t2 c2 s2 e2 d2)).
Proof.
  split; intros; reflexivity.
Qed.

Lemma string_eqb_sym (a b : string) : String.eqb a b = String.eqb b a.
Proof.
  destruct (String.eqb_spec a b) as [->|Hab].
  - symmetry. apply String.eqb_refl.
  - symmetry. apply String.eqb_neq. congruence.
Qed.

(** C10.  The similarity test is symmetric in its two conditions. *)
Theorem are_conditions_similar_symmetric :
  forall c1 c2 : string,
    _are_conditions_similar c1 c2 = _are_conditions_similar c2 c1.
Proof.
  intros c1 c2. unfold _are_conditions_similar.
  generalize (normalize_condition c1) (normalize_condition c2). intros a b.
  rewrite (string_eqb_sym b a).
  destruct (String.eqb a b); [reflexivity|].
  rewrite (andb_comm (any (fun platform => Py.contains b platform) platforms)).
  destruct (any (fun platform => Py.contains a platform) platforms
            && any (fun platform => Py.contains b platform) platforms); [reflexivity|].
  rewrite (andb_comm (any (fun feature => Py.startswith b feature) features)).
  destruct (any (fun feature => Py.startswith a feature) features
            && any (fun feature => Py.startswith b feature) features); [reflexivity|].
  destruct (Py.startswith a "!" && String.eqb (Py.drop 1 a) b);
    destruct (Py.startswith b "!" && String.eqb (Py.drop 1 b) a); reflexivity.
Qed.

(** C2, as stated, fails: the typedef [local_layer] is on the allow-list
    [COMMON_TYPES], and the run assigns it to ["nn_types"], because
    [_map_typedefs] tests the [_layer] suffix first. *)
Lemma pinned_typedef_not_common :
  let st := map_symbols_to_components (extract_symbols src_layer_typedef init_state) in
  map name (typedefs st) = ["local_layer"]
  /\ Py.mem "local_layer" (allow_list TTypedef) = true
  /\ map classify (typedefs st) = ["nn_types"]
  /\ map (fun kv => (fst kv, map name (snd kv))) (output_files st)
     = [("nn_types", ["local_layer"])].
Proof.
  vm_compute. repeat split; reflexivity.
Qed.

(** C2, amended.  A name on the allow-list of its kind is assigned to
    ["common"], whatever the cascade of that kind would say, except that
    a typedef whose name ends in [_layer] is assigned to ["nn_types"]:
    for typedefs the suffix test comes before the allow-list. *)
Theorem pinned_names :
  forall e : Element,
    Py.mem (name e) (allow_list (type e)) = true ->
    classify e =
      if etype_eqb (type e) TTypedef && Py.endswith (name e) "_layer"
      then "nn_types" else "common".
Proof.
  intros e H. unfold classify.
  destruct (type e) eqn:T; cbn [allow_list] in H;
    try (cbn in H; discriminate H); cbn [etype_eqb andb].
  - unfold enum_component. rewrite H. reflexivity.
  - unfold typedef_component. rewrite H.
    destruct (Py.endswith (name e) "_layer"); reflexivity.
  - unfold macro_component. rewrite H. reflexivity.
Qed.

Lemma pinned_names_witness :
  classify (mkElement "box" TTypedef "typedef struct box box;" 0 23 ["box"]) = "common"
  /\ classify (mkElement "ACTIVATION" TEnum "typedef enum { A } ACTIVATION;" 0 30 []) = "common".
Proof.
  split.
  - apply (pinned_names (mkElement "box" TTypedef "typedef struct box box;" 0 23 ["box"])).
    reflexivity.
  - apply (pinned_names (mkElement "ACTIVATION" TEnum "typedef enum { A } ACTIVATION;" 0 30 [])).
    reflexivity.
Defined.

(** ** Conditional groups and platform guards *)





(** ** A conditional that holds a typedef *)

(** C4 fails on this input.  Its one function, [box_f], is not static
    and has the prototype [int box_f(void);].  The conditional routed to
    the same component holds a typedef, so [header_content] is rebound
    to a list, [f.write] raises, and the header is left empty: no
    written file holds the prototype. *)
Theorem nonstatic_function_without_prototype :
  let st := map_symbols_to_components
              (extract_symbols src_typedef_in_conditional init_state) in
  let o := main (plain_run src_typedef_in_conditional) in
  map (fun f => (name f, declaration_of f)) (functions st)
    = [("box_f", Some "int box_f(void);")]
  /\ map (fun kv => (fst kv, map name (snd kv))) (output_files st)
     = [("box_utils", ["box_f"; "conditional"]); ("common", ["T"])]
  /\ snd (create_output_files st []) = Some TypeError
  /\ dict_get (h_path "box_utils") (written o) = Some EmptyString
  /\ dict_get (c_path "common") (written o) = None
  /\ forallb (fun kv => negb (Py.contains (snd kv) "int box_f(void);")) (written o) = true.
Proof.
  vm_compute. repeat split; reflexivity.
Qed.

(** C7 fails on the same input.  The [TypeError] raised while the files
    are written is caught inside [extract_and_process], reported with a
    traceback, and the run goes on to report success: the exit status
    is zero. *)
Theorem exception_in_processing_exits_zero :
  let o := main (plain_run src_typedef_in_conditional) in
  exit_status o = 0
  /\ printed o = [ ErrorDuringProcessing; Traceback;
                   FixedIssues "include/sod/sod_common.h"; CompletedSuccessfully ].
Proof.
  vm_compute. split; reflexivity.
Qed.

(** ** The verification pass *)


(** C5, as stated, fails.  The input has two blocks, each closed.  Each
    extracted conditional carries the line before and the line after its
    block, so the second one starts with the [#endif] of the first.  The
    verifier only warns about a surplus of [#endif], and its nesting
    repair wraps the surplus line in a comment that spells [#endif]
    twice: over all written files there are 6 opening directives and 8
    [#endif]. *)
Lemma balanced_input_unbalanced_output :
  let o := main (plain_run src_two_blocks) in
  open_count src_two_blocks = 2 /\ close_count src_two_blocks = 2
  /\ map name (conditionals (extract_symbols src_two_blocks init_state))
     = ["conditional"; "conditional"]
  /\ log (extract_symbols src_two_blocks init_state) = []
  /\ map (fun kv => (fst kv, open_count (snd kv), close_count (snd kv))) (written o)
     = [ ("include/sod/sod_common.h", 1, 1);
         ("src/sod/sod_common.c", 4, 6);
         ("include/sod/../sod.h", 1, 1) ]
  /\ total open_count (written o) = 6
  /\ total close_count (written o) = 8
  /\ total open_count (written o) <> total close_count (written o).
Proof.
  vm_compute. repeat split; try reflexivity. discriminate.
Qed.

(** ** Extraction of conditionals *)

Lemma prefix_app_l (p q d : string) :
  String.prefix (p +++ q) d = true -> String.prefix p d = true.
Proof.
  revert d. induction p as [|a p IH]; intros d H.
  - destruct d; reflexivity.
  - destruct d as [|b d]; cbn in H |- *; [discriminate H|].
    destruct (ascii_dec a b); [|discriminate H].
    apply IH. exact H.
Qed.

Lemma is_opening_if (d : string) : is_opening d = Py.startswith d "#if".
Proof.
  unfold is_opening, Py.startswith.
  destruct (String.prefix "#if" d) eqn:E; [reflexivity|].
  cbn [orb].
  destruct (String.prefix "#ifdef" d) eqn:E1.
  { apply (prefix_app_l "#if" "def") in E1. congruence. }
  destruct (String.prefix "#ifndef" d) eqn:E2.
  { apply (prefix_app_l "#if" "ndef") in E2. congruence. }
  reflexivity.
Qed.

(** What the inner scan returns, against the depth count. *)
Lemma scan_block_spec (ds : list (nat * string)) :
  forall (stack : nat) (block : list (nat * string)),
    1 <= stack ->
    match scan_block ds stack block with
    | Some (end_line, block', rest) =>
        exists mid, ds = mid ++ rest /\ block' = block ++ mid
                    /\ mid <> [] /\ depth_after ds stack = depth_after rest 0
    | None => 1 <= depth_after ds stack
    end.
Proof.
  induction ds as [|[ln d] tl IH]; intros stack block Hs.
  - cbn. exact Hs.
  - cbn [scan_block].
    unfold depth_after. cbn [fold_left].
    unfold depth_step at 2. cbn [snd].
    set (stack' := if is_opening d then stack + 1
                   else if Py.startswith d "#endif" then stack - 1 else stack).
    destruct (stack' =? 0) eqn:E.
    + apply Nat.eqb_eq in E. exists [(ln, d)].
      repeat split; try reflexivity; [discriminate|]. rewrite E. reflexivity.
    + apply Nat.eqb_neq in E.
      specialize (IH stack' (block ++ [(ln, d)])).
      destruct (scan_block tl stack' (block ++ [(ln, d)])) as [[[e b] rest]|].
      * destruct IH as [mid [H1 [H2 [H3 H4]]]]; [lia|].
        exists ((ln, d) :: mid). repeat split.
        -- cbn. f_equal. exact H1.
        -- rewrite H2, <- app_assoc. reflexivity.
        -- discriminate.
        -- exact H4.
      * apply IH. lia.
Qed.


Lemma complete_not_fixed source s e d b :
  not_fixed (complete_conditional source s e d b).
Proof.
  unfold not_fixed, complete_conditional. cbn [name].
  destruct (any _ b); cbn; discriminate.
Qed.

(** The outer loop against the depth count: with enough fuel, a stream
    that ends at depth zero gives no warning and no repaired element; a
    stream that ends deeper gives one warning and the repaired element
    last. *)
Lemma extract_loop_spec (source : string) :
  forall (fuel : nat) (ds : list (nat * string)) (st : state),
    length ds <= fuel ->
    let st' := extract_conditionals_loop fuel source ds st in
    match depth_after ds 0 with
    | 0 =>
        log st' = log st
        /\ exists cs, conditionals st' = conditionals st ++ cs /\ Forall not_fixed cs
    | S _ =>
        exists cs line_num directive,
          log st' = log st ++ [WarnUnterminatedConditional (line_num + 1) directive]
          /\ conditionals st' = conditionals st ++ cs ++ [fixed_conditional source line_num]
          /\ In (line_num, directive) ds
          /\ Py.startswith directive "#if" = true
          /\ Forall not_fixed cs
    end.
Proof.
  induction fuel as [|fuel IH]; intros ds st Hlen.
  - destruct ds; [|cbn in Hlen; lia]. cbn. split; [reflexivity|].
    exists []. rewrite app_nil_r. split; [reflexivity|constructor].
  - destruct ds as [|[ln d] tl].
    + cbn. split; [reflexivity|].
      exists []. rewrite app_nil_r. split; [reflexivity|constructor].
    + cbn [extract_conditionals_loop].
      unfold depth_after. cbn [fold_left].
      unfold depth_step at 2. cbn [snd]. rewrite is_opening_if.
      cbn in Hlen.
      destruct (Py.startswith d "#if") eqn:Eif.
      * pose proof (scan_block_spec tl 1 [(ln, d)] (le_n 1)) as Hscan.
        cbn [Nat.add]. fold (depth_after tl 1).
        destruct (scan_block tl 1 [(ln, d)]) as [[[e b] rest]|].
        -- destruct Hscan as [mid [H1 [H2 [H3 H4]]]].
           assert (Hrest : length rest <= fuel).
           { rewrite H1 in Hlen. rewrite length_app in Hlen.
             destruct mid; [congruence|cbn in Hlen; lia]. }
           specialize (IH rest
             (set_conditionals st
                (conditionals st ++ [complete_conditional source ln e d b])) Hrest).
           cbn zeta in IH. rewrite H4.
           destruct (depth_after rest 0).
           ++ destruct IH as [Hl [cs [Hc Hf]]]. split; [exact Hl|].
              exists (complete_conditional source ln e d b :: cs). split.
              ** rewrite Hc. cbn [conditionals set_conditionals].
                 rewrite <- app_assoc. reflexivity.
              ** constructor; [apply complete_not_fixed|exact Hf].
           ++ destruct IH as [cs [l0 [d0 [Hl [Hc [Hin [Hop Hf]]]]]]].
              exists (complete_conditional source ln e d b :: cs), l0, d0.
              repeat split.
              ** exact Hl.
              ** rewrite Hc. cbn [conditionals set_conditionals].
                 rewrite <- app_assoc. reflexivity.
              ** right. rewrite H1. apply in_or_app. right. exact Hin.
              ** exact Hop.
              ** constructor; [apply complete_not_fixed|exact Hf].
        -- destruct (depth_after tl 1) eqn:Ed; [lia|].
           exists [], ln, d. repeat split.
           ++ left. reflexivity.
           ++ exact Eif.
           ++ constructor.
      * assert (Hd : (if Py.startswith d "#endif" then 0 - 1 else 0) = 0)
          by (destruct (Py.startswith d "#endif"); reflexivity).
        rewrite Hd. fold (depth_after tl 0).
        specialize (IH tl st ltac:(lia)). cbn zeta in IH.
        destruct (depth_after tl 0); [exact IH|].
        destruct IH as [cs [l0 [d0 [Hl [Hc [Hin [Hop Hf]]]]]]].
        exists cs, l0, d0. repeat split; try assumption.
        right. exact Hin.
Qed.

(** C6.  When the directive stream is still inside a block at the end
    of the file, extraction prints exactly one warning and its last
    element is the repaired one: the source from the line of the
    unclosed directive on, with one [#endif] line appended; the elements
    before it are ordinary ones.  When the stream ends at depth zero
    there is no warning and no repaired element.  Extraction returns in
    both cases. *)
Theorem unterminated_conditional_repaired :
  forall (source : string) (st0 : state),
    let st := extract_conditionals source st0 in
    match final_depth source with
    | 0 =>
        log st = log st0
        /\ exists cs, conditionals st = conditionals st0 ++ cs /\ Forall not_fixed cs
    | S _ =>
        exists (pre : list Element) (start_line : nat) (directive : string),
          log st = log st0 ++ [WarnUnterminatedConditional (start_line + 1) directive]
          /\ conditionals st
             = conditionals st0 ++ pre ++ [fixed_conditional source start_line]
          /\ content (fixed_conditional source start_line)
             = Py.join Py.nl (skipn start_line (Py.splitlines source))
               +++ Py.nl +++ "#endif /* Auto-added to fix unterminated conditional */"
               +++ Py.nl
          /\ name (fixed_conditional source start_line) = "conditional_fixed"
          /\ In (start_line, directive) (directive_lines source)
          /\ Py.startswith directive "#if" = true
          /\ Forall not_fixed pre
    end.
Proof.
  intros source st0 st. subst st. unfold extract_conditionals, final_depth.
  pose proof (extract_loop_spec source (length (directive_lines source))
                (directive_lines source) st0 (le_n _)) as H.
  cbn zeta in H.
  destruct (depth_after (directive_lines source) 0).
  - exact H.
  - destruct H as [cs [l0 [d0 [Hl [Hc [Hin [Hop Hf]]]]]]].
    exists cs, l0, d0. repeat split; try assumption.
Qed.

(** The outer loop cuts the stream as [segments] says. *)
Lemma extract_loop_segments (source : string) :
  forall (fuel : nat) (ds : list (nat * string)) (st : state),
    length ds <= fuel ->
    exists es,
      conditionals (extract_conditionals_loop fuel source ds st) = conditionals st ++ es
      /\ segments source ds es.
Proof.
  induction fuel as [|fuel IH]; intros ds st Hlen.
  - destruct ds; [|cbn in Hlen; lia]. exists []. cbn. rewrite app_nil_r.
    split; [reflexivity|constructor].
  - destruct ds as [|[ln d] tl].
    + exists []. cbn. rewrite app_nil_r. split; [reflexivity|constructor].
    + cbn [extract_conditionals_loop]. cbn in Hlen.
      destruct (Py.startswith d "#if") eqn:Eif.
      * pose proof (scan_block_spec tl 1 [(ln, d)] (le_n 1)) as Hscan.
        destruct (scan_block tl 1 [(ln, d)]) as [[[e b] rest]|] eqn:Es.
        -- destruct Hscan as [mid [H1 [H2 [H3 H4]]]].
           assert (Hrest : length rest <= fuel).
           { rewrite H1 in Hlen. rewrite length_app in Hlen.
             destruct mid; [congruence|cbn in Hlen; lia]. }
           destruct (IH rest
             (set_conditionals st
                (conditionals st ++ [complete_conditional source ln e d b])) Hrest)
             as [es [Hc Hseg]].
           exists (complete_conditional source ln e d b :: es). split.
           ++ rewrite Hc. cbn [conditionals set_conditionals].
              rewrite <- app_assoc. reflexivity.
           ++ subst b. cbn [app] in Es |- *.
              eapply seg_block; eauto.
        -- exists [fixed_conditional source ln]. split; [reflexivity|].
           apply seg_open; assumption.
      * destruct (IH tl st ltac:(lia)) as [es [Hc Hseg]].
        exists es. split; [exact Hc|].
        apply seg_pass; assumption.
Qed.

(** Folds that leave a field of the state alone. *)
Lemma fold_left_keeps {A B C : Type} (P : A -> C) (f : A -> B -> A) (l : list B) :
  (forall a x, P (f a x) = P a) -> forall a, P (fold_left f l a) = P a.
Proof.
  intros H. induction l as [|x l IH]; intro a; cbn; [reflexivity|].
  rewrite IH. apply H.
Qed.

Ltac keeps_field :=
  intros;
  repeat match goal with
         | |- context [match ?x with _ => _ end] => destruct x
         end;
  reflexivity.

Lemma extract_enums_conditionals source st :
  conditionals (extract_enums source st) = conditionals st.
Proof. unfold extract_enums. apply fold_left_keeps. keeps_field. Qed.

Lemma extract_functions_conditionals source st :
  conditionals (extract_functions source st) = conditionals st.
Proof. unfold extract_functions. apply fold_left_keeps. keeps_field. Qed.

Lemma extract_structs_conditionals source st :
  conditionals (extract_structs source st) = conditionals st.
Proof. unfold extract_structs. apply fold_left_keeps. keeps_field. Qed.

Lemma extract_globals_conditionals source st :
  conditionals (extract_globals source st) = conditionals st.
Proof. unfold extract_globals. apply fold_left_keeps. keeps_field. Qed.

Lemma extract_typedefs_conditionals source st :
  conditionals (extract_typedefs source st) = conditionals st.
Proof. unfold extract_typedefs. apply fold_left_keeps. keeps_field. Qed.

Lemma extract_macros_conditionals source st :
  conditionals (extract_macros source st) = conditionals st.
Proof. unfold extract_macros. apply fold_left_keeps. keeps_field. Qed.

Lemma map_elements_conditionals choose l st :
  conditionals (map_elements choose l st) = conditionals st.
Proof. unfold map_elements. apply fold_left_keeps. keeps_field. Qed.

Lemma mapped_symbols_conditionals st :
  conditionals (mapped_symbols st) = conditionals st.
Proof.
  unfold mapped_symbols, _map_macros, _map_globals, _map_typedefs, _map_enums,
    _map_structs, _map_functions.
  repeat rewrite map_elements_conditionals. reflexivity.
Qed.

(** The conditionals of a run are the segments of its directive stream. *)
Lemma extracted_segments (source : string) :
  segments source (directive_lines source)
           (conditionals (extract_symbols source init_state)).
Proof.
  unfold extract_symbols.
  rewrite extract_macros_conditionals, extract_typedefs_conditionals,
    extract_globals_conditionals, extract_structs_conditionals,
    extract_functions_conditionals.
  unfold extract_conditionals.
  destruct (extract_loop_segments source (length (directive_lines source))
              (directive_lines source) (extract_enums source init_state) (le_n _))
    as [es [Hc Hseg]].
  rewrite Hc, extract_enums_conditionals. exact Hseg.
Qed.

(** *** The extracted conditionals are pairwise distinct *)

Lemma length_append (a b : string) :
  String.length (a +++ b) = String.length a + String.length b.
Proof. induction a as [|c a IH]; cbn; [reflexivity|]. rewrite IH. reflexivity. Qed.

Lemma join_snoc_length (l : list string) (x : string) :
  String.length (Py.join Py.nl l) + String.length x
  <= String.length (Py.join Py.nl (l ++ [x])).
Proof.
  induction l as [|a l IH]; [cbn; lia|].
  destruct l as [|b l].
  - cbn [app Py.join]. rewrite !length_append. lia.
  - change ((a :: b :: l) ++ [x]) with (a :: (b :: l) ++ [x]).
    change (Py.join Py.nl (a :: b :: l))
      with (a +++ Py.nl +++ Py.join Py.nl (b :: l)).
    assert (E : Py.join Py.nl (a :: (b :: l) ++ [x])
                = a +++ Py.nl +++ Py.join Py.nl ((b :: l) ++ [x])) by reflexivity.
    rewrite E, !length_append. lia.
Qed.

Lemma firstn_S_snoc {A} (d : A) (l : list A) :
  forall n, n < length l -> firstn (S n) l = firstn n l ++ [nth n l d].
Proof.
  induction l as [|a l IH]; intros n H; [cbn in H; lia|].
  destruct n as [|n]; [reflexivity|].
  cbn in H. cbn [firstn nth app]. rewrite <- IH by lia. reflexivity.
Qed.

Lemma offset_step (lines : list string) (n : nat) :
  n < length lines ->
  offset lines n + String.length (nth n lines EmptyString) <= offset lines (S n).
Proof.
  intro H. unfold offset. rewrite (firstn_S_snoc EmptyString) by exact H.
  apply join_snoc_length.
Qed.

Lemma offset_S (lines : list string) (n : nat) : offset lines n <= offset lines (S n).
Proof.
  destruct (Nat.lt_ge_cases n (length lines)) as [H|H].
  - pose proof (offset_step lines n H). lia.
  - unfold offset. rewrite !firstn_all2 by lia. lia.
Qed.

Lemma offset_mono (lines : list string) (n m : nat) :
  n <= m -> offset lines n <= offset lines m.
Proof.
  induction 1 as [|m _ IH]; [lia|].
  pose proof (offset_S lines m). lia.
Qed.

Lemma offset_gap (lines : list string) (ln : nat) :
  ln < length lines ->
  Py.startswith (Py.strip (nth ln lines EmptyString)) "#if" = true ->
  offset lines (ln - 1) < offset lines (S ln).
Proof.
  intros H Hs.
  assert (Hne : 1 <= String.length (nth ln lines EmptyString)).
  { destruct (nth ln lines EmptyString); [discriminate Hs|cbn; lia]. }
  pose proof (offset_step lines ln H).
  pose proof (offset_mono lines (ln - 1) ln ltac:(lia)). lia.
Qed.

Lemma ok_from_weaken (lines : list string) (ds : list (nat * string)) (m m' : nat) :
  m <= m' -> ok_from lines m' ds -> ok_from lines m ds.
Proof.
  destruct ds as [|[i d] tl]; [trivial|].
  cbn. intros Hm [H1 H2]. split; [lia|exact H2].
Qed.

Lemma ok_from_app (lines : list string) (a b : list (nat * string)) :
  forall m, a <> [] -> ok_from lines m (a ++ b) -> ok_from lines (S m) b.
Proof.
  induction a as [|[i d] a IH]; intros m Hne H; [congruence|].
  cbn in H. destruct H as [H1 [H2 [H3 H4]]].
  destruct a as [|y a].
  - cbn in H4. apply (ok_from_weaken lines b (S m) (S i)); [lia|exact H4].
  - apply (ok_from_weaken lines b (S m) (S (S i))); [lia|].
    apply IH; [discriminate|exact H4].
Qed.

Lemma directive_step_cases (acc : list (nat * string)) (k : nat) (x : string) :
  directive_step acc (k, x) = acc \/ directive_step acc (k, x) = acc ++ [(k, Py.strip x)].
Proof.
  unfold directive_step. cbn [fst snd].
  repeat match goal with
         | |- context [if ?c then _ else _] => destruct c
         end; auto.
Qed.

Lemma directive_fold_ok (all : list string) (l : list string) :
  forall (k : nat) (acc : list (nat * string)),
    (forall j, j < length l -> nth (k + j) all EmptyString = nth j l EmptyString) ->
    k + length l <= length all ->
    exists new,
      fold_left directive_step (combine (seq k (length l)) l) acc = acc ++ new
      /\ ok_from all k new.
Proof.
  induction l as [|x l IH]; intros k acc Hnth Hlen.
  - exists []. cbn. rewrite app_nil_r. split; [reflexivity|exact I].
  - cbn [length seq combine fold_left].
    assert (Hx : nth k all EmptyString = x).
    { specialize (Hnth 0 ltac:(cbn; lia)). rewrite Nat.add_0_r in Hnth. exact Hnth. }
    assert (Hnth' : forall j, j < length l ->
                              nth (S k + j) all EmptyString = nth j l EmptyString).
    { intros j Hj. specialize (Hnth (S j) ltac:(cbn; lia)).
      rewrite Nat.add_succ_r in Hnth. exact Hnth. }
    cbn in Hlen.
    destruct (directive_step_cases acc k x) as [E|E]; rewrite E.
    + destruct (IH (S k) acc Hnth' ltac:(lia)) as [new [H1 H2]].
      exists new. split; [exact H1|].
      apply (ok_from_weaken all new k (S k)); [lia|exact H2].
    + destruct (IH (S k) (acc ++ [(k, Py.strip x)]) Hnth' ltac:(lia)) as [new [H1 H2]].
      exists ((k, Py.strip x) :: new). split.
      * rewrite H1, <- app_assoc. reflexivity.
      * cbn. repeat split; try lia; [|exact H2]. rewrite Hx. reflexivity.
Qed.

Lemma directive_lines_ok (source : string) :
  ok_from (Py.splitlines source) 0 (directive_lines source).
Proof.
  unfold directive_lines, enumerate.
  destruct (directive_fold_ok (Py.splitlines source) (Py.splitlines source) 0 [])
    as [new [H1 H2]]; [intros; reflexivity|cbn; lia|].
  rewrite H1. exact H2.
Qed.

Lemma complete_canonical source s e d b : canonical (complete_conditional source s e d b).
Proof. split; reflexivity. Qed.

Lemma fixed_canonical source s : canonical (fixed_conditional source s).
Proof. split; reflexivity. Qed.

Lemma segments_distinct (source : string) (ds : list (nat * string)) (es : list Element) :
  segments source ds es ->
  forall m,
    ok_from (Py.splitlines source) m ds ->
    NoDup es
    /\ Forall (fun e => name e = "conditional_fixed"
                        \/ offset (Py.splitlines source) (m - 1) <= start e) es
    /\ Forall canonical es.
Proof.
  induction 1 as [|x tl es Hx Hseg IH
                  |ln d tl e chain rest es Hop Hscan Htl Hseg IH
                  |ln d tl Hop Hscan]; intros m Hok.
  - repeat split; constructor.
  - destruct x as [i dx]. cbn in Hok. destruct Hok as [H1 [H2 [H3 H4]]].
    apply IH. apply (ok_from_weaken _ tl m (S i)); [lia|exact H4].
  - cbn in Hok. destruct Hok as [H1 [H2 [H3 H4]]].
    pose proof (scan_block_spec tl 1 [(ln, d)] (le_n 1)) as Hs.
    rewrite Hscan in Hs. destruct Hs as [mid [Hs1 [Hs2 [Hs3 _]]]].
    cbn [app] in Hs2. injection Hs2 as Hs2. subst mid.
    rewrite Htl in H4.
    pose proof (ok_from_app _ chain rest (S ln) Hs3 H4) as Hrest.
    destruct (IH (S (S ln)) Hrest) as [Hnd [Hst Hcan]].
    assert (Hgap : offset (Py.splitlines source) (ln - 1)
                   < offset (Py.splitlines source) (S ln)).
    { apply offset_gap; [exact H2|]. rewrite <- H3. exact Hop. }
    repeat split.
    + constructor; [|exact Hnd].
      intro Hin. rewrite Forall_forall in Hst. specialize (Hst _ Hin).
      destruct Hst as [Hf|Hf].
      * exact (complete_not_fixed source ln e d ((ln, d) :: chain) Hf).
      * cbn [start complete_conditional] in Hf.
        change (S (S ln) - 1) with (S ln) in Hf.
        fold (offset (Py.splitlines source) (ln - 1)) in Hf. lia.
    + constructor.
      * right. cbn [start complete_conditional].
        fold (offset (Py.splitlines source) (ln - 1)).
        apply offset_mono. lia.
      * rewrite Forall_forall in Hst |- *. intros y Hy.
        destruct (Hst y Hy) as [Hf|Hf]; [left; exact Hf|right].
        change (S (S ln) - 1) with (S ln) in Hf.
        pose proof (offset_mono (Py.splitlines source) (m - 1) (S ln) ltac:(lia)). lia.
    + constructor; [apply complete_canonical|exact Hcan].
  - repeat split.
    + constructor; [intros []|constructor].
    + constructor; [left; reflexivity|constructor].
    + constructor; [apply fixed_canonical|constructor].
Qed.

Lemma elem_eqb_eq (a b : Element) :
  canonical a -> canonical b -> elem_eqb a b = true -> a = b.
Proof.
  intros [Ta Da] [Tb Db] H.
  destruct a as [na ta ca sa ea da], b as [nb tb cb sb eb db].
  cbn in Ta, Da, Tb, Db. unfold elem_eqb in H. cbn in H.
  repeat (apply andb_prop in H; destruct H as [H ?]).
  repeat match goal with
         | E : String.eqb _ _ = true |- _ => apply String.eqb_eq in E
         | E : Nat.eqb _ _ = true |- _ => apply Nat.eqb_eq in E
         end.
  subst. reflexivity.
Qed.

Lemma elem_eqb_refl (a : Element) : elem_eqb a a = true.
Proof.
  unfold elem_eqb.
  rewrite !String.eqb_refl, !Nat.eqb_refl.
  assert (forallb (fun d => Py.mem d (deps a)) (deps a) = true) as ->.
  { apply forallb_forall. intros x Hx. unfold Py.mem. apply existsb_exists.
    exists x. split; [exact Hx|apply String.eqb_refl]. }
  destruct (type a); reflexivity.
Qed.

(** *** Groups partition the conditionals *)

Lemma elem_in_iff (c : Element) (g : list Element) :
  canonical c -> Forall canonical g -> (elem_in c g = true <-> In c g).
Proof.
  intros Hc Hg. unfold elem_in. rewrite existsb_exists. split.
  - intros [y [Hy E]]. rewrite Forall_forall in Hg.
    rewrite (elem_eqb_eq c y Hc (Hg y Hy) E). exact Hy.
  - intro H. exists c. split; [exact H|apply elem_eqb_refl].
Qed.

Lemma in_some_group_iff (c : Element) (gs : list (list Element)) :
  canonical c -> Forall canonical (concat gs) ->
  (in_some_group c gs = true <-> In c (concat gs)).
Proof.
  intros Hc Hgs. unfold in_some_group, any. rewrite existsb_exists, in_concat.
  assert (Hg : forall g, In g gs -> Forall canonical g).
  { intros g Hin. rewrite Forall_forall in Hgs |- *. intros y Hy.
    apply Hgs. apply in_concat. exists g. split; assumption. }
  split; intros [g [H1 H2]]; exists g; split; try assumption.
  - apply (elem_in_iff c g Hc (Hg g H1)). exact H2.
  - apply (elem_in_iff c g Hc (Hg g H1)). exact H2.
Qed.

Lemma concat_append_last (e : Element) (gs : list (list Element)) :
  gs <> [] -> concat (append_last e gs) = concat gs ++ [e].
Proof.
  induction gs as [|g gs IH]; intro H; [congruence|].
  destruct gs as [|g' gs].
  - cbn. rewrite !app_nil_r. reflexivity.
  - change (append_last e (g :: g' :: gs)) with (g :: append_last e (g' :: gs)).
    cbn [concat]. rewrite IH by discriminate. cbn [concat]. rewrite app_assoc. reflexivity.
Qed.

Lemma append_last_not_nil (e : Element) (gs : list (list Element)) :
  gs <> [] -> append_last e gs <> [].
Proof. destruct gs as [|g [|g' gs]]; intro H; [congruence| |]; discriminate. Qed.

Lemma gather_step_cases (c : Element) (gs : list (list Element)) (other : Element) :
  gather_step c gs other = gs
  \/ (gather_step c gs other = append_last other gs /\ in_some_group other gs = false).
Proof.
  unfold gather_step.
  destruct (elem_eqb other c); [left; reflexivity|]. cbn [orb].
  destruct (in_some_group other gs); [left; reflexivity|].
  destruct (abs_diff (start c) (start other) <? 1000); [|left; reflexivity].
  destruct (_are_conditions_similar _ _); [right; split; reflexivity|left; reflexivity].
Qed.

Lemma gather_spec (c : Element) (sub : list Element) :
  forall gs,
    gs <> [] -> NoDup (concat gs) -> Forall canonical (concat gs) ->
    Forall canonical sub ->
    fold_left (gather_step c) sub gs <> []
    /\ exists extra,
         concat (fold_left (gather_step c) sub gs) = concat gs ++ extra
         /\ NoDup (concat gs ++ extra) /\ incl extra sub.
Proof.
  induction sub as [|o sub IH]; intros gs Hne Hnd Hcan Hsub.
  - cbn. split; [exact Hne|]. exists []. rewrite app_nil_r.
    repeat split; [exact Hnd|intros x []].
  - inversion Hsub as [|? ? Ho Hsub']; subst. cbn [fold_left].
    destruct (gather_step_cases c gs o) as [E|[E Hin]]; rewrite E.
    + destruct (IH gs Hne Hnd Hcan Hsub') as [H1 [extra [H2 [H3 H4]]]].
      split; [exact H1|]. exists extra. repeat split; try assumption.
      intros x Hx. right. apply H4. exact Hx.
    + assert (Hno : ~ In o (concat gs)).
      { intro Hi. apply (in_some_group_iff o gs Ho Hcan) in Hi. congruence. }
      assert (Hnd' : NoDup (concat (append_last o gs))).
      { rewrite concat_append_last by exact Hne.
        apply NoDup_app_remove_l with (l := []). cbn.
        apply Permutation_NoDup with (l := o :: concat gs).
        - apply Permutation_cons_append.
        - constructor; assumption. }
      assert (Hcan' : Forall canonical (concat (append_last o gs))).
      { rewrite concat_append_last by exact Hne. apply Forall_app. split; [exact Hcan|].
        constructor; [exact Ho|constructor]. }
      destruct (IH (append_last o gs) (append_last_not_nil o gs Hne) Hnd' Hcan' Hsub')
        as [H1 [extra [H2 [H3 H4]]]].
      split; [exact H1|]. exists (o :: extra).
      rewrite concat_append_last in H2, H3 by exact Hne.
      rewrite <- app_assoc in H2, H3. cbn [app] in H2, H3.
      repeat split; try assumption.
      intros x [Hx|Hx]; [left; exact Hx|right; apply H4; exact Hx].
Qed.

Lemma group_plain_spec (conds : list Element) (todo : list Element) :
  forall gs,
    NoDup (concat gs) -> Forall canonical (concat gs) ->
    Forall canonical todo -> Forall canonical conds ->
    exists extra,
      concat (fold_left (plain_step conds) todo gs) = concat gs ++ extra
      /\ NoDup (concat gs ++ extra)
      /\ incl extra (todo ++ conds)
      /\ incl todo (concat gs ++ extra).
Proof.
  induction todo as [|c todo IH]; intros gs Hnd Hcan Htodo Hconds.
  - exists []. cbn. rewrite app_nil_r. repeat split; try assumption; intros x [].
  - inversion Htodo as [|? ? Hc Htodo']; subst. cbn [fold_left].
    unfold plain_step at 2.
    destruct (in_some_group c gs) eqn:Ein.
    + destruct (IH gs Hnd Hcan Htodo' Hconds) as [extra [H1 [H2 [H3 H4]]]].
      exists extra. repeat split; try assumption.
      * intros x Hx. specialize (H3 x Hx). cbn. right. exact H3.
      * intros x [Hx|Hx].
        -- subst x. apply in_or_app. left.
           apply (in_some_group_iff c gs Hc Hcan). exact Ein.
        -- apply H4. exact Hx.
    + assert (Hno : ~ In c (concat gs)).
      { intro Hi. apply (in_some_group_iff c gs Hc Hcan) in Hi. congruence. }
      assert (Hcc : concat (gs ++ [[c]]) = concat gs ++ [c]).
      { rewrite concat_app. cbn. reflexivity. }
      assert (Hnd1 : NoDup (concat (gs ++ [[c]]))).
      { rewrite Hcc. apply Permutation_NoDup with (l := c :: concat gs).
        - apply Permutation_cons_append.
        - constructor; assumption. }
      assert (Hcan1 : Forall canonical (concat (gs ++ [[c]]))).
      { rewrite Hcc. apply Forall_app. split; [exact Hcan|].
        constructor; [exact Hc|constructor]. }
      unfold gather_related.
      destruct (gather_spec c conds (gs ++ [[c]])
                  ltac:(destruct gs; discriminate) Hnd1 Hcan1 Hconds)
        as [_ [ex1 [G1 [G2 G3]]]].
      set (gs1 := fold_left (gather_step c) conds (gs ++ [[c]])) in *.
      assert (Hcan2 : Forall canonical (concat gs1)).
      { rewrite G1. apply Forall_app. split; [exact Hcan1|].
        rewrite Forall_forall in Hconds |- *. intros x Hx. apply Hconds, G3, Hx. }
      rewrite <- G1 in G2.
      destruct (IH gs1 G2 Hcan2 Htodo' Hconds) as [extra [H1 [H2 [H3 H4]]]].
      exists ([c] ++ ex1 ++ extra).
      rewrite G1, Hcc in H1, H2, H4. rewrite <- !app_assoc in H1, H2, H4.
      repeat split; try assumption.
      * intros x Hx. apply in_app_or in Hx. destruct Hx as [[Hx|[]]|Hx].
        -- subst x. left. reflexivity.
        -- apply in_app_or in Hx. destruct Hx as [Hx|Hx].
           ++ apply in_or_app. right. apply G3. exact Hx.
           ++ specialize (H3 x Hx). apply in_app_or in H3.
              destruct H3 as [H3|H3]; [right|]; apply in_or_app; [left|right]; assumption.
      * intros x [Hx|Hx].
        -- subst x. apply in_or_app. right. left. reflexivity.
        -- apply H4. exact Hx.
Qed.

Lemma dict_append_perm (k : string) (e : Element) (d : list (string * list Element)) :
  Permutation (concat (map snd (dict_append k e d))) (concat (map snd d) ++ [e]).
Proof.
  induction d as [|[k' l] d IH]; [reflexivity|].
  cbn [dict_append]. destruct (String.eqb k' k); cbn [map snd concat].
  - rewrite <- !app_assoc. apply Permutation_app_head. apply Permutation_app_comm.
  - rewrite <- app_assoc. apply Permutation_app_head. exact IH.
Qed.

Lemma name_groups_perm (l : list Element) :
  Permutation (concat (map snd (name_groups l))) l.
Proof.
  unfold name_groups.
  enough (H : forall d, Permutation
                          (concat (map snd (fold_left (fun d e => dict_append (name e) e d) l d)))
                          (concat (map snd d) ++ l)) by apply (H []).
  induction l as [|e l IH]; intro d; cbn [fold_left].
  - rewrite app_nil_r. reflexivity.
  - rewrite IH. rewrite dict_append_perm, <- app_assoc. reflexivity.
Qed.

Lemma name_fold_spec (ngs : list (string * list Element)) :
  forall gs,
    NoDup (concat gs ++ concat (map snd ngs)) ->
    Forall canonical (concat gs ++ concat (map snd ngs)) ->
    NoDup (concat (fold_left name_step ngs gs))
    /\ forall x, In x (concat (fold_left name_step ngs gs))
                 <-> In x (concat gs ++ concat (map snd ngs)).
Proof.
  induction ngs as [|[nm l] ngs IH]; intros gs Hnd Hcan.
  - cbn in *. rewrite app_nil_r in Hnd. split; [exact Hnd|].
    intro x. rewrite app_nil_r. reflexivity.
  - cbn [fold_left map snd concat] in *.
    set (R := concat (map snd ngs)) in *.
    unfold name_step at 2 4. cbn [fst snd].
    destruct (Py.startswith nm "multipart_conditional_").
    + assert (E : concat (gs ++ [l]) = concat gs ++ l).
      { rewrite concat_app. cbn. rewrite app_nil_r. reflexivity. }
      destruct (IH (gs ++ [l])) as [H1 H2].
      * rewrite E, <- app_assoc. exact Hnd.
      * rewrite E, <- app_assoc. exact Hcan.
      * split; [exact H1|]. intro x. rewrite H2, E, <- app_assoc. reflexivity.
    + apply Forall_app in Hcan. destruct Hcan as [Hcg Hcan].
      apply Forall_app in Hcan. destruct Hcan as [Hcl HcR].
      pose proof (NoDup_app_remove_r _ _ Hnd) as Hndg.
      destruct (group_plain_spec l l gs Hndg Hcg Hcl Hcl) as [extra [G1 [G2 [G3 G4]]]].
      fold (group_plain l gs) in G1.
      assert (Hsame : forall x, In x (concat gs ++ extra) <-> In x (concat gs ++ l)).
      { intro x. rewrite !in_app_iff. split; intros [H|H]; auto.
        - right. specialize (G3 x H). apply in_app_or in G3. tauto.
        - specialize (G4 x H). apply in_app_or in G4. exact G4. }
      destruct (IH (group_plain l gs)) as [H1 H2].
      * rewrite G1. apply NoDup_app; [exact G2| |].
        -- apply NoDup_app_remove_l in Hnd. apply NoDup_app_remove_l in Hnd. exact Hnd.
        -- intros a Ha HR. apply Hsame in Ha.
           rewrite app_assoc in Hnd.
           clear - Hnd Ha HR.
           induction (concat gs ++ l) as [|y ys IHy]; [destruct Ha|].
           cbn in Hnd. inversion Hnd as [|? ? Hy Hys]; subst.
           destruct Ha as [Ha|Ha].
           ++ subst y. apply Hy. apply in_or_app. right. exact HR.
           ++ apply IHy; assumption.
      * rewrite G1. apply Forall_app. split; [|exact HcR].
        rewrite Forall_forall. intros x Hx. apply Hsame in Hx.
        apply in_app_or in Hx. rewrite Forall_forall in Hcg, Hcl.
        destruct Hx; [apply Hcg|apply Hcl]; assumption.
      * split; [exact H1|]. intro x. rewrite H2, G1.
        rewrite !in_app_iff. rewrite <- in_app_iff. rewrite Hsame.
        rewrite !in_app_iff. tauto.
Qed.

(** Under distinctness, every conditional is in exactly one group. *)
Lemma groups_partition (st : state) :
  NoDup (conditionals st) -> Forall canonical (conditionals st) ->
  Permutation (concat (_group_related_conditionals st)) (conditionals st).
Proof.
  intros Hnd Hcan. unfold _group_related_conditionals.
  pose proof (name_groups_perm (conditionals st)) as Hp.
  destruct (name_fold_spec (name_groups (conditionals st)) []) as [H1 H2].
  - cbn. apply (Permutation_NoDup (Permutation_sym Hp)). exact Hnd.
  - cbn. apply (Permutation_Forall (Permutation_sym Hp)). exact Hcan.
  - apply NoDup_Permutation; [exact H1|exact Hnd|].
    intro x. rewrite H2. cbn. split; intro H.
    + apply (Permutation_in _ Hp). exact H.
    + apply (Permutation_in _ (Permutation_sym Hp)). exact H.
Qed.

Lemma assignments_elements (st : state) :
  map snd (assignments st) = concat (_group_related_conditionals st).
Proof.
  unfold assignments.
  induction (_group_related_conditionals st) as [|g gs IH]; [reflexivity|].
  cbn [flat_map concat]. rewrite map_app, IH. f_equal.
  rewrite map_map. cbn. apply map_id.
Qed.

Lemma map_group_spec (k : string) (conds : list Element) :
  forall st,
    symbol_map (fold_left (append_output k) conds st) = symbol_map st
    /\ output_files (fold_left (append_output k) conds st)
       = fold_left (fun o kc => dict_append (fst kc) (snd kc) o)
                   (map (fun c => (k, c)) conds) (output_files st).
Proof.
  induction conds as [|c conds IH]; intro st; [split; reflexivity|].
  cbn [fold_left map]. destruct (IH (append_output k st c)) as [H1 H2].
  split; [rewrite H1; reflexivity|rewrite H2; reflexivity].
Qed.

Lemma map_conditionals_spec (sm : list (string * info)) (groups : list (list Element)) :
  forall st,
    symbol_map st = sm ->
    output_files (fold_left map_group groups st)
    = fold_left (fun o kc => dict_append (fst kc) (snd kc) o)
                (flat_map (fun g => map (fun c => (group_component sm g, c)) g) groups)
                (output_files st).
Proof.
  induction groups as [|g groups IH]; intros st Hsm; [reflexivity|].
  cbn [fold_left flat_map]. rewrite fold_left_app.
  unfold map_group at 2.
  destruct (map_group_spec (group_component (symbol_map st) g) g st) as [H1 H2].
  rewrite IH by (rewrite H1; exact Hsm).
  rewrite H2, Hsm. reflexivity.
Qed.

(** *** The content of an extracted conditional *)








(** *** Synthesis keeps a conditional in the files of its component *)




(** ** Counting directives *)

Section Counting.

Variable r : regex.
Variable hit : list ascii -> option nat.

Hypothesis hit_bound : forall l n, hit l = Some n -> 1 <= n <= length l.

Hypothesis hit_local :
  forall a t, starts_fresh t -> hit (a ++ t) = hit a.

Hypothesis hit_match :
  forall pos prev rest,
    match hit rest with
    | Some n =>
        exists m, match_at r (mkCursor pos prev rest) false = Some m
                  /\ (m_end m =? m_start m)%N = false
                  /\ c_rest (m_after m) = skipn n rest
    | None => match_at r (mkCursor pos prev rest) false = None
    end.

Lemma hit_nil : hit [] = None.
Proof.
  destruct (hit []) as [n|] eqn:E; [|reflexivity].
  apply hit_bound in E. cbn in E. lia.
Qed.

Lemma cnt_skip (l : list ascii) : forall k, cnt hit l k = cnt hit (skipn k l) 0.
Proof.
  induction l as [|c l IH]; intro k.
  - rewrite skipn_nil. destruct k; reflexivity.
  - destruct k as [|k]; [reflexivity|]. cbn [cnt skipn]. apply IH.
Qed.

Lemma cnt_first (l : list ascii) :
  cnt hit l 0 = match first_hit hit l with
                | Some (k, n) => 1 + cnt hit (skipn (k + n) l) 0
                | None => 0
                end.
Proof.
  induction l as [|c l IH].
  - cbn. rewrite hit_nil. reflexivity.
  - cbn [cnt first_hit]. destruct (hit (c :: l)) as [n|] eqn:E.
    + apply hit_bound in E. rewrite cnt_skip.
      destruct n as [|n]; [lia|]. replace (S n - 1) with n by lia. reflexivity.
    + rewrite IH. destruct (first_hit hit l) as [[k n]|]; reflexivity.
Qed.

Lemma search_first (rest : list ascii) :
  forall pos prev,
    match first_hit hit rest with
    | Some (k, n) =>
        exists m, search_from r pos prev rest false = Some m
                  /\ (m_end m =? m_start m)%N = false
                  /\ c_rest (m_after m) = skipn (k + n) rest
    | None => search_from r pos prev rest false = None
    end.
Proof.
  induction rest as [|c rest IH]; intros pos prev.
  - cbn [first_hit search_from]. pose proof (hit_match pos prev []) as H.
    rewrite hit_nil in H |- *. rewrite H. reflexivity.
  - cbn [first_hit search_from]. pose proof (hit_match pos prev (c :: rest)) as H.
    destruct (hit (c :: rest)) as [n|].
    + destruct H as [m [H1 [H2 H3]]]. exists m. rewrite H1. auto.
    + rewrite H. specialize (IH (N.succ pos) (Some c)).
      destruct (first_hit hit rest) as [[k n]|].
      * destruct IH as [m [H1 [H2 H3]]]. exists m. auto.
      * exact IH.
Qed.

Lemma first_hit_bound (l : list ascii) :
  forall k n, first_hit hit l = Some (k, n) -> 1 <= n /\ k + n <= length l.
Proof.
  induction l as [|c l IH]; intros k n H.
  - cbn in H. rewrite hit_nil in H. discriminate H.
  - cbn [first_hit] in H. destruct (hit (c :: l)) as [n0|] eqn:E.
    + injection H as <- <-. apply hit_bound in E. cbn in E |- *. lia.
    + destruct (first_hit hit l) as [[k0 n0]|]; [|discriminate H].
      injection H as <- <-. destruct (IH k0 n0 eq_refl). cbn. lia.
Qed.

Lemma finditer_cnt (fuel : nat) :
  forall cu,
    length (c_rest cu) < fuel ->
    length (finditer_go fuel r cu false) = cnt hit (c_rest cu) 0.
Proof.
  induction fuel as [|fuel IH]; intros cu Hlen; [lia|].
  cbn [finditer_go]. rewrite cnt_first.
  pose proof (search_first (c_rest cu) (c_pos cu) (c_prev cu)) as H.
  destruct (first_hit hit (c_rest cu)) as [[k n]|] eqn:E.
  - destruct H as [m [H1 [H2 H3]]]. rewrite H1, H2. cbn [length].
    rewrite IH; [rewrite H3; reflexivity|].
    rewrite H3, length_skipn. apply first_hit_bound in E. lia.
  - rewrite H. reflexivity.
Qed.

Lemma count_cnt (s : string) : count r s = cnt hit (list_ascii_of_string s) 0.
Proof.
  unfold count, finditer. apply finditer_cnt. cbn [start_cursor c_rest].
  assert (length (list_ascii_of_string s) = String.length s) as ->.
  { induction s as [|c s IH]; cbn; [reflexivity|]. rewrite IH. reflexivity. }
  lia.
Qed.

Lemma cnt_app (a t : list ascii) :
  starts_fresh t ->
  forall k, k <= length a -> cnt hit (a ++ t) k = cnt hit a k + cnt hit t 0.
Proof.
  intro Ht. induction a as [|c a IH]; intros k Hk.
  - cbn in Hk. assert (k = 0) as -> by lia. reflexivity.
  - cbn [app cnt]. destruct k as [|k].
    + change (c :: a ++ t) with ((c :: a) ++ t). rewrite (hit_local (c :: a) t Ht).
      destruct (hit (c :: a)) as [n|] eqn:E.
      * apply hit_bound in E. cbn in E. rewrite IH by lia. reflexivity.
      * apply IH. lia.
    + cbn in Hk. apply IH. lia.
Qed.

Lemma list_ascii_app (s t : string) :
  list_ascii_of_string (s +++ t) = list_ascii_of_string s ++ list_ascii_of_string t.
Proof. induction s as [|c s IH]; cbn; [reflexivity|]. rewrite IH. reflexivity. Qed.

Lemma count_app (s t : string) :
  starts_fresh (list_ascii_of_string t) ->
  count r (s +++ t) = count r s + count r t.
Proof.
  intro Ht. rewrite !count_cnt, list_ascii_app. apply cnt_app; [exact Ht|lia].
Qed.

Lemma fresh_repeat (t : string) (n : nat) :
  starts_fresh (list_ascii_of_string t) ->
  starts_fresh (list_ascii_of_string (Py.repeat_str t n)).
Proof.
  intros Ht. destruct n as [|n]; [left; reflexivity|].
  cbn [Py.repeat_str]. rewrite list_ascii_app.
  destruct Ht as [Ht|[t' Ht]].
  - rewrite Ht. cbn [app]. clear -Ht.
    induction n as [|n IH]; [left; reflexivity|].
    cbn [Py.repeat_str]. rewrite list_ascii_app, Ht. exact IH.
  - right. rewrite Ht. eexists. reflexivity.
Qed.

Lemma count_repeat (t : string) (n : nat) :
  starts_fresh (list_ascii_of_string t) ->
  count r (Py.repeat_str t n) = n * count r t.
Proof.
  intro Ht. induction n as [|n IH]; [rewrite count_cnt; reflexivity|].
  cbn [Py.repeat_str]. rewrite count_app by (apply fresh_repeat; exact Ht).
  rewrite IH. cbn. reflexivity.
Qed.

End Counting.

(** The two counting patterns against their direct reading. *)

Lemma strip_prefix_length (p l l' : list ascii) :
  strip_prefix p l = Some l' -> length l = length p + length l'.
Proof.
  revert l. induction p as [|a p IH]; intros l H.
  - injection H as <-. reflexivity.
  - destruct l as [|x l]; [discriminate H|]. cbn in H.
    destruct (Ascii.eqb a x); [|discriminate H].
    cbn. rewrite (IH l H). reflexivity.
Qed.

Lemma strip_prefix_app (p a t : list ascii) :
  ~ In "010"%char p -> starts_fresh t ->
  strip_prefix p (a ++ t) = option_map (fun l' => l' ++ t) (strip_prefix p a).
Proof.
  intros Hp Ht. revert a. induction p as [|c p IH]; intro a; [reflexivity|].
  destruct a as [|x a].
  - cbn [app]. destruct Ht as [->|[t' ->]]; [reflexivity|].
    cbn. destruct (Ascii.eqb_spec c "010"%char) as [E|E]; [|reflexivity].
    exfalso. apply Hp. left. exact E.
  - cbn. destruct (Ascii.eqb c x); [|reflexivity].
    apply IH. intro H. apply Hp. right. exact H.
Qed.

Lemma hd_error_fresh (l t : list ascii) :
  starts_fresh t -> is_word_opt (hd_error (l ++ t)) = is_word_opt (hd_error l).
Proof.
  intros Ht. destruct l as [|x l]; [|reflexivity].
  destruct Ht as [->|[t' ->]]; reflexivity.
Qed.

Lemma hit_lit_bound (p : string) (l : list ascii) (n : nat) :
  1 <= String.length p -> hit_lit p l = Some n -> 1 <= n <= length l.
Proof.
  intros Hp H. unfold hit_lit in H.
  destruct (strip_prefix (list_ascii_of_string p) l) as [l'|] eqn:E; [|discriminate H].
  destruct (is_word_opt (hd_error l')); [discriminate H|]. injection H as <-.
  apply strip_prefix_length in E.
  assert (length (list_ascii_of_string p) = String.length p).
  { clear. induction p as [|c p IH]; cbn; [reflexivity|]. rewrite IH. reflexivity. }
  lia.
Qed.

Lemma hit_lit_local (p : string) (a t : list ascii) :
  ~ In "010"%char (list_ascii_of_string p) -> starts_fresh t ->
  hit_lit p (a ++ t) = hit_lit p a.
Proof.
  intros Hp Ht. unfold hit_lit. rewrite (strip_prefix_app _ a t Hp Ht).
  destruct (strip_prefix (list_ascii_of_string p) a) as [l'|]; [|reflexivity].
  cbn [option_map]. rewrite (hd_error_fresh l' t Ht). reflexivity.
Qed.

Ltac no_linefeed :=
  let H := fresh "H" in
  cbn; intro H;
  repeat (destruct H as [H|H]; [discriminate H|]); exact H.

Lemma hit_close_bound l n : hit_close l = Some n -> 1 <= n <= length l.
Proof. apply hit_lit_bound. cbn. lia. Qed.

Lemma hit_close_local a t : starts_fresh t -> hit_close (a ++ t) = hit_close a.
Proof. apply hit_lit_local. no_linefeed. Qed.

Lemma hit_open_bound l n : hit_open l = Some n -> 1 <= n <= length l.
Proof.
  unfold hit_open, or_else. intro H.
  destruct (hit_lit "#if" l) eqn:E1.
  { injection H as <-. apply (hit_lit_bound "#if"); [cbn; lia|exact E1]. }
  destruct (hit_lit "#ifdef" l) eqn:E2.
  { injection H as <-. apply (hit_lit_bound "#ifdef"); [cbn; lia|exact E2]. }
  apply (hit_lit_bound "#ifndef"); [cbn; lia|exact H].
Qed.

Lemma hit_open_local a t : starts_fresh t -> hit_open (a ++ t) = hit_open a.
Proof.
  intro Ht. unfold hit_open.
  rewrite !hit_lit_local by (try exact Ht; no_linefeed). reflexivity.
Qed.

Lemma run_lit {R : Type} (p : string) :
  forall (cu : cursor) (c : caps) (k : cursor -> caps -> option R),
    p <> EmptyString ->
    run (lit p) cu c k
    = match strip_prefix (list_ascii_of_string p) (c_rest cu) with
      | Some l' =>
          k (mkCursor (c_pos cu + N.of_nat (String.length p)) (Some (last_char p)) l') c
      | None => None
      end.
Proof.
  induction p as [|a p IH]; intros cu c k Hp; [congruence|].
  destruct cu as [pos prev rest].
  destruct p as [|b p].
  - destruct rest as [|x rest]; [reflexivity|].
    cbn [lit run step_if c_rest c_pos list_ascii_of_string strip_prefix
         String.length last_char].
    destruct (Ascii.eqb a x) eqn:E; [|reflexivity].
    apply Ascii.eqb_eq in E. subst x.
    rewrite N.add_1_r. reflexivity.
  - change (lit (String a (String b p))) with (Seq (Chr a) (lit (String b p))).
    change (list_ascii_of_string (String a (String b p)))
      with (a :: list_ascii_of_string (String b p)).
    destruct rest as [|x rest]; [reflexivity|].
    cbn [run step_if c_rest c_pos strip_prefix].
    destruct (Ascii.eqb a x) eqn:E; [|reflexivity].
    apply Ascii.eqb_eq in E. subst x.
    rewrite IH by discriminate. cbn [c_rest c_pos].
    destruct (strip_prefix (list_ascii_of_string (String b p)) rest); [|reflexivity].
    change (last_char (String a (String b p))) with (last_char (String b p)).
    change (String.length (String a (String b p))) with (S (String.length (String b p))).
    rewrite Nat2N.inj_succ, <- N.add_succ_comm. reflexivity.
Qed.

Lemma strip_prefix_skipn (p l l' : list ascii) :
  strip_prefix p l = Some l' -> l' = skipn (length p) l.
Proof.
  revert l. induction p as [|a p IH]; intros l H.
  - injection H as <-. reflexivity.
  - destruct l as [|x l]; [discriminate H|]. cbn in H.
    destruct (Ascii.eqb a x); [|discriminate H]. cbn. apply IH. exact H.
Qed.

Lemma length_list_ascii (p : string) :
  length (list_ascii_of_string p) = String.length p.
Proof. induction p as [|c p IH]; cbn; [reflexivity|]. rewrite IH. reflexivity. Qed.

(** A literal followed by [\b], tried at one position. *)
Lemma match_lit_boundary (p : string) :
  p <> EmptyString -> Py.isword (last_char p) = true ->
  forall pos prev rest,
    match hit_lit p rest with
    | Some n =>
        exists m, match_at (Seq (lit p) WordB) (mkCursor pos prev rest) false = Some m
                  /\ (m_end m =? m_start m)%N = false
                  /\ c_rest (m_after m) = skipn n rest
    | None => match_at (Seq (lit p) WordB) (mkCursor pos prev rest) false = None
    end.
Proof.
  intros Hp Hw pos prev rest. unfold hit_lit, match_at.
  cbn [run]. rewrite run_lit by exact Hp. cbn [c_rest c_pos].
  destruct (strip_prefix (list_ascii_of_string p) rest) as [l'|] eqn:E; [|reflexivity].
  unfold at_word_boundary. cbn [c_prev c_rest is_word_opt]. rewrite Hw.
  destruct (is_word_opt (hd_error l')); cbn [xorb negb andb c_pos]; [reflexivity|].
  eexists. split; [reflexivity|]. cbn [m_end m_start m_after c_rest]. split.
  - apply N.eqb_neq. destruct p; [congruence|]. cbn [String.length]. lia.
  - rewrite <- length_list_ascii. apply strip_prefix_skipn. exact E.
Qed.

Lemma match_at_alt (r1 r2 : regex) (cu : cursor) (ma : bool) :
  match_at (Alt r1 r2) cu ma = or_else (match_at r1 cu ma) (match_at r2 cu ma).
Proof. reflexivity. Qed.

Lemma hit_close_match :
  forall pos prev rest,
    match hit_close rest with
    | Some n =>
        exists m, match_at close_rx (mkCursor pos prev rest) false = Some m
                  /\ (m_end m =? m_start m)%N = false
                  /\ c_rest (m_after m) = skipn n rest
    | None => match_at close_rx (mkCursor pos prev rest) false = None
    end.
Proof.
  intros. apply (match_lit_boundary "#endif"); [discriminate|reflexivity].
Qed.

Lemma hit_open_match :
  forall pos prev rest,
    match hit_open rest with
    | Some n =>
        exists m, match_at open_rx (mkCursor pos prev rest) false = Some m
                  /\ (m_end m =? m_start m)%N = false
                  /\ c_rest (m_after m) = skipn n rest
    | None => match_at open_rx (mkCursor pos prev rest) false = None
    end.
Proof.
  intros pos prev rest. unfold hit_open, open_rx. cbn [alts].
  rewrite !match_at_alt.
  pose proof (match_lit_boundary "#if" ltac:(discriminate) eq_refl pos prev rest) as H1.
  pose proof (match_lit_boundary "#ifdef" ltac:(discriminate) eq_refl pos prev rest) as H2.
  pose proof (match_lit_boundary "#ifndef" ltac:(discriminate) eq_refl pos prev rest) as H3.
  destruct (hit_lit "#if" rest).
  { destruct H1 as [m [E H1]]. rewrite E. exists m. exact (conj eq_refl H1). }
  rewrite H1. cbn [or_else].
  destruct (hit_lit "#ifdef" rest).
  { destruct H2 as [m [E H2]]. rewrite E. exists m. exact (conj eq_refl H2). }
  rewrite H2. cbn [or_else]. exact H3.
Qed.

(** Appending text that starts a new line adds its count. *)
Lemma open_count_app (s t : string) :
  starts_fresh (list_ascii_of_string t) ->
  open_count (s +++ t) = open_count s + open_count t.
Proof.
  apply (count_app open_rx hit_open hit_open_bound hit_open_local hit_open_match).
Qed.

Lemma close_count_app (s t : string) :
  starts_fresh (list_ascii_of_string t) ->
  close_count (s +++ t) = close_count s + close_count t.
Proof.
  apply (count_app close_rx hit_close hit_close_bound hit_close_local hit_close_match).
Qed.

Lemma open_count_repeat (t : string) (n : nat) :
  starts_fresh (list_ascii_of_string t) ->
  open_count (Py.repeat_str t n) = n * open_count t.
Proof.
  apply (count_repeat open_rx hit_open hit_open_bound hit_open_local hit_open_match).
Qed.

Lemma close_count_repeat (t : string) (n : nat) :
  starts_fresh (list_ascii_of_string t) ->
  close_count (Py.repeat_str t n) = n * close_count t.
Proof.
  apply (count_repeat close_rx hit_close hit_close_bound hit_close_local hit_close_match).
Qed.

(** Appending [n] closing lines [t], each with no opening and one
    closing directive, to a text with [n] more openings than closings
    makes the two counts equal. *)
Lemma closing_lines_balance (t body : string) :
  starts_fresh (list_ascii_of_string t) ->
  open_count t = 0 -> close_count t = 1 ->
  close_count body <= open_count body ->
  let fixed := body +++ Py.repeat_str t (open_count body - close_count body) in
  open_count fixed = close_count fixed.
Proof.
  intros Ht Ho Hc Hle fixed. subst fixed.
  rewrite open_count_app, close_count_app by (apply fresh_repeat; exact Ht).
  rewrite open_count_repeat, close_count_repeat by exact Ht.
  rewrite Ho, Hc. lia.
Qed.

(** C5, amended.  The steps that balance directives only add [#endif]
    lines: the balance step of the verifier on a file, and the closing
    pass of the synthesizer on a conditional element, append as many
    [#endif] lines as there are more opening directives than [#endif],
    after which the two counts of that text are equal; a text with no
    more openings than [#endif] is left as it is, so a surplus of
    [#endif] stays.  After the step no text has more openings than
    [#endif]. *)
Theorem balance_step_adds_missing_endifs :
  forall body : string,
    (close_count body < open_count body ->
       balance_file body
       = body +++ Py.repeat_str auto_endif_balance (open_count body - close_count body)
       /\ open_count (balance_file body) = close_count (balance_file body)
       /\ open_count (close_conditional body) = close_count (close_conditional body))
    /\ (open_count body <= close_count body ->
          balance_file body = body /\ close_conditional body = body)
    /\ open_count (balance_file body) <= close_count (balance_file body)
    /\ open_count (close_conditional body) <= close_count (close_conditional body).
Proof.
  intro body.
  assert (Hb : starts_fresh (list_ascii_of_string auto_endif_balance))
    by (right; eexists; reflexivity).
  assert (He : starts_fresh (list_ascii_of_string end_of_condition))
    by (right; eexists; reflexivity).
  assert (Hbo : open_count auto_endif_balance = 0) by (vm_compute; reflexivity).
  assert (Hbc : close_count auto_endif_balance = 1) by (vm_compute; reflexivity).
  assert (Heo : open_count end_of_condition = 0) by (vm_compute; reflexivity).
  assert (Hec : close_count end_of_condition = 1) by (vm_compute; reflexivity).
  unfold balance_file, close_conditional.
  destruct (close_count body <? open_count body) eqn:E.
  - apply Nat.ltb_lt in E.
    pose proof (closing_lines_balance auto_endif_balance body Hb Hbo Hbc ltac:(lia)) as H1.
    pose proof (closing_lines_balance end_of_condition body He Heo Hec ltac:(lia)) as H2.
    cbn zeta in H1, H2.
    repeat split; try (intros; lia); try assumption; try (rewrite H1; lia); rewrite H2; lia.
  - apply Nat.ltb_ge in E. repeat split; try (intros; lia); try reflexivity; exact E.
Qed.

Lemma balance_step_adds_missing_endifs_witness :
  let body := "#ifdef A" +++ Py.nl +++ "#if B" +++ Py.nl +++ "#endif" +++ Py.nl in
  open_count body = 2 /\ close_count body = 1
  /\ balance_file body = body +++ Py.repeat_str auto_endif_balance 1
  /\ open_count (balance_file body) = close_count (balance_file body).
Proof.
  intro body.
  assert (H : close_count body < open_count body) by (vm_compute; lia).
  destruct (proj1 (balance_step_adds_missing_endifs body) H) as [H1 [H2 _]].
  split; [vm_compute; reflexivity|]. split; [vm_compute; reflexivity|].
  split; [exact H1|exact H2].
Defined.

(** * Further properties of the code *)

(** ** Components *)

Lemma mem_In (x : string) (l : list string) : Py.mem x l = true -> In x l.
Proof.
  unfold Py.mem. intro H. apply existsb_exists in H.
  destruct H as [y [Hy E]]. apply String.eqb_eq in E. subst y. exact Hy.
Qed.

Lemma In_mem (x : string) (l : list string) : In x l -> Py.mem x l = true.
Proof.
  intro H. unfold Py.mem. apply existsb_exists. exists x.
  split; [exact H|apply String.eqb_refl].
Qed.

Ltac split_ifs :=
  repeat match goal with
         | |- context [if ?b then _ else _] => destruct b
         end.

Lemma function_component_known (e : Element) :
  known_component (function_component e) = true.
Proof.
  unfold function_component, _determine_function_component. split_ifs; reflexivity.
Qed.

Lemma struct_component_known (e : Element) :
  known_component (struct_component e) = true.
Proof.
  unfold struct_component, _determine_struct_component. split_ifs; reflexivity.
Qed.

Lemma enum_component_known (e : Element) :
  known_component (enum_component e) = true.
Proof.
  unfold enum_component, _determine_enum_component. split_ifs; reflexivity.
Qed.

Lemma typedef_component_known (e : Element) :
  known_component (typedef_component e) = true.
Proof.
  unfold typedef_component, _determine_typedef_component. split_ifs; reflexivity.
Qed.

Lemma global_component_known (e : Element) :
  known_component (global_component e) = true.
Proof.
  unfold global_component, _determine_global_component. split_ifs; reflexivity.
Qed.

Lemma macro_component_known (e : Element) :
  known_component (macro_component e) = true.
Proof.
  unfold macro_component, _determine_macro_component. split_ifs; reflexivity.
Qed.

(** X1.  Whatever the element, each of the six classifiers of [map_symbols_to_components] answers with a key of [COMPONENT_GROUPS]. *)
Theorem classifiers_choose_known_components :
  forall e : Element,
    known_component (function_component e) = true
    /\ known_component (struct_component e) = true
    /\ known_component (enum_component e) = true
    /\ known_component (typedef_component e) = true
    /\ known_component (global_component e) = true
    /\ known_component (macro_component e) = true.
Proof.
  intro e.
  repeat split;
    [ apply function_component_known | apply struct_component_known
    | apply enum_component_known | apply typedef_component_known
    | apply global_component_known | apply macro_component_known ].
Qed.

(** ** Invariants of the symbol map and of the component lists *)

Lemma fold_left_inv {A B : Type} (P : A -> Prop) (f : A -> B -> A) (l : list B) :
  (forall a x, P a -> P (f a x)) -> forall a, P a -> P (fold_left f l a).
Proof.
  intros H. induction l as [|x l IH]; intros a Ha; cbn; [exact Ha|].
  apply IH, H, Ha.
Qed.

Lemma dict_set_Forall {V : Type} (P : string * V -> Prop) (k : string) (v : V)
    (d : list (string * V)) :
  P (k, v) -> Forall P d -> Forall P (dict_set k v d).
Proof.
  intros Hk. induction 1 as [|[k' v'] d Hx Hd IH]; cbn.
  - constructor; [exact Hk|constructor].
  - destruct (String.eqb k' k) eqn:E.
    + apply String.eqb_eq in E. subst k'. constructor; assumption.
    + constructor; assumption.
Qed.

Lemma dict_get_In {V : Type} (k : string) (v : V) (d : list (string * V)) :
  dict_get k d = Some v -> In (k, v) d.
Proof.
  induction d as [|[k' v'] d IH]; cbn; [discriminate|].
  destruct (String.eqb k' k) eqn:E.
  - apply String.eqb_eq in E. intro H. injection H as ->. subst. left. reflexivity.
  - intro H. right. apply IH, H.
Qed.

Lemma dict_get_set_same {V : Type} (k : string) (v : V) (d : list (string * V)) :
  dict_get k (dict_set k v d) = Some v.
Proof.
  induction d as [|[k' v'] d IH]; cbn.
  - rewrite String.eqb_refl. reflexivity.
  - destruct (String.eqb k' k) eqn:E; cbn; rewrite E; [reflexivity|exact IH].
Qed.

Lemma dict_get_set_other {V : Type} (k k0 : string) (v : V) (d : list (string * V)) :
  k0 <> k -> dict_get k0 (dict_set k v d) = dict_get k0 d.
Proof.
  intro Hne. induction d as [|[k' v'] d IH]; cbn.
  - destruct (String.eqb k k0) eqn:E; [|reflexivity].
    apply String.eqb_eq in E. congruence.
  - destruct (String.eqb k' k) eqn:E; cbn.
    + apply String.eqb_eq in E. subst k'.
      destruct (String.eqb k k0) eqn:E2; [|reflexivity].
      apply String.eqb_eq in E2. congruence.
    + rewrite IH. reflexivity.
Qed.

Lemma dict_append_keys_known k e o :
  known_component k = true -> keys_known o -> keys_known (dict_append k e o).
Proof.
  intros Hk. induction 1 as [|[k' l] o Hx Ho IH]; cbn.
  - constructor; [exact Hk|constructor].
  - destruct (String.eqb k' k); constructor; assumption.
Qed.

Lemma set_component_known nm c sm :
  known_component c = true -> components_known sm ->
  components_known (set_component nm c sm).
Proof.
  intros Hc Hsm. unfold set_component. destruct (dict_get nm sm); [|exact Hsm].
  apply dict_set_Forall; [exact Hc|exact Hsm].
Qed.

Lemma set_component_no_users nm c sm :
  no_users sm -> no_users (set_component nm c sm).
Proof.
  intros Hsm. unfold set_component. destruct (dict_get nm sm) as [i|] eqn:E; [|exact Hsm].
  apply dict_set_Forall; [|exact Hsm]. cbn.
  apply dict_get_In in E. unfold no_users in Hsm. rewrite Forall_forall in Hsm.
  exact (Hsm _ E).
Qed.

(** *** Extraction *)

Lemma add_symbol_fresh st nm t :
  fresh_state st -> fresh_state (_add_to_symbol_map st nm t).
Proof.
  intros [H1 [H2 H3]]. unfold _add_to_symbol_map. repeat split; cbn.
  - exact H1.
  - apply dict_set_Forall; [reflexivity|exact H2].
  - apply dict_set_Forall; [reflexivity|exact H3].
Qed.

Ltac fresh_body :=
  intros;
  repeat match goal with
         | |- context [match ?x with _ => _ end] => destruct x
         end;
  try assumption;
  try (apply add_symbol_fresh);
  try match goal with
      | H : fresh_state _ |- _ =>
          destruct H as [? [? ?]]; repeat split; cbn; try assumption;
          try (apply dict_set_Forall; [reflexivity|assumption])
      end.

Lemma extract_enums_fresh source st :
  fresh_state st -> fresh_state (extract_enums source st).
Proof. unfold extract_enums. apply fold_left_inv. fresh_body. Qed.

Lemma extract_functions_fresh source st :
  fresh_state st -> fresh_state (extract_functions source st).
Proof. unfold extract_functions. apply fold_left_inv. fresh_body. Qed.

Lemma extract_structs_fresh source st :
  fresh_state st -> fresh_state (extract_structs source st).
Proof. unfold extract_structs. apply fold_left_inv. fresh_body. Qed.

Lemma extract_globals_fresh source st :
  fresh_state st -> fresh_state (extract_globals source st).
Proof. unfold extract_globals. apply fold_left_inv. fresh_body. Qed.

Lemma extract_typedefs_fresh source st :
  fresh_state st -> fresh_state (extract_typedefs source st).
Proof. unfold extract_typedefs. apply fold_left_inv. fresh_body. Qed.

Lemma extract_macros_fresh source st :
  fresh_state st -> fresh_state (extract_macros source st).
Proof. unfold extract_macros. apply fold_left_inv. fresh_body. Qed.

Lemma extract_loop_fresh source fuel :
  forall ds st, fresh_state st -> fresh_state (extract_conditionals_loop fuel source ds st).
Proof.
  induction fuel as [|fuel IH]; intros ds st H; cbn; [exact H|].
  destruct ds as [|[ln d] tl]; [exact H|].
  destruct (Py.startswith d "#if").
  - destruct (scan_block tl 1 [(ln, d)]) as [[[e b] rest]|].
    + apply IH. exact H.
    + exact H.
  - apply IH. exact H.
Qed.

Lemma extract_symbols_fresh source :
  fresh_state (extract_symbols source init_state).
Proof.
  unfold extract_symbols.
  apply extract_macros_fresh, extract_typedefs_fresh, extract_globals_fresh,
    extract_structs_fresh, extract_functions_fresh.
  unfold extract_conditionals. apply extract_loop_fresh, extract_enums_fresh.
  repeat split; constructor.
Qed.

(** *** Mapping *)

Lemma fresh_mapped st : fresh_state st -> mapped_state st.
Proof.
  intros [H1 [H2 H3]]. repeat split; [rewrite H1; constructor| |exact H3].
  unfold unmapped in H2. unfold components_known.
  rewrite Forall_forall in H2 |- *. intros x Hx. rewrite (H2 x Hx). exact I.
Qed.

Lemma map_elements_mapped choose l st :
  (forall e, known_component (choose e) = true) ->
  mapped_state st -> mapped_state (map_elements choose l st).
Proof.
  intros Hch. unfold map_elements. apply fold_left_inv.
  intros a x [H1 [H2 H3]]. repeat split; cbn.
  - apply dict_append_keys_known; [apply Hch|exact H1].
  - apply set_component_known; [apply Hch|exact H2].
  - apply set_component_no_users. exact H3.
Qed.

Lemma mapped_symbols_mapped st : mapped_state st -> mapped_state (mapped_symbols st).
Proof.
  intro H. unfold mapped_symbols, _map_macros, _map_globals, _map_typedefs, _map_enums,
    _map_structs, _map_functions.
  apply map_elements_mapped; [apply macro_component_known|].
  apply map_elements_mapped; [apply global_component_known|].
  apply map_elements_mapped; [apply typedef_component_known|].
  apply map_elements_mapped; [apply enum_component_known|].
  apply map_elements_mapped; [apply struct_component_known|].
  apply map_elements_mapped; [apply function_component_known|].
  exact H.
Qed.

Lemma counter_incr_known c votes :
  known_component c = true -> votes_known votes -> votes_known (counter_incr c votes).
Proof.
  intros Hc. induction 1 as [|[k n] votes Hx Hv IH]; cbn.
  - constructor; [exact Hc|constructor].
  - destruct (String.eqb k c); constructor; assumption.
Qed.

Lemma count_votes_known sm body votes :
  components_known sm -> votes_known votes -> votes_known (count_votes sm body votes).
Proof.
  intros Hsm. unfold count_votes. revert votes.
  induction Hsm as [|[s i] sm Hx Hsm IH]; intros votes Hv; cbn; [exact Hv|].
  apply IH. cbn in Hx. destruct (component i) as [c|]; [|exact Hv].
  destruct (Py.contains body s); [|exact Hv].
  apply counter_incr_known; assumption.
Qed.

Lemma most_common_from_known votes :
  votes_known votes -> forall best bn,
    known_component best = true -> known_component (most_common_from votes best bn) = true.
Proof.
  induction 1 as [|[k n] votes Hx Hv IH]; intros best bn Hb; cbn [most_common_from];
    [exact Hb|].
  destruct (bn <? n); apply IH; assumption.
Qed.

Lemma guard_owner_known sm body c :
  components_known sm -> guard_owner sm body = Some c -> known_component c = true.
Proof.
  intros Hsm. unfold guard_owner.
  destruct (search macro_guard body) as [m|]; [|discriminate].
  destruct (dict_get (group_str m 2) sm) as [i|] eqn:E; [|discriminate].
  intro H. apply dict_get_In in E. unfold components_known in Hsm.
  rewrite Forall_forall in Hsm. specialize (Hsm _ E). cbn in Hsm.
  rewrite H in Hsm. exact Hsm.
Qed.

Lemma scan_group_known sm conds :
  components_known sm -> forall votes, votes_known votes ->
    match scan_group sm conds votes with
    | (Some c, _) => known_component c = true
    | (None, votes') => votes_known votes'
    end.
Proof.
  intros Hsm. induction conds as [|c conds IH]; intros votes Hv; cbn [scan_group];
    [exact Hv|].
  destruct (found (search platform_guard (content c))); [reflexivity|].
  destruct (found (search os_guard (content c))); [reflexivity|].
  destruct (guard_owner sm (content c)) as [o|] eqn:E.
  - exact (guard_owner_known sm _ o Hsm E).
  - apply IH. apply count_votes_known; assumption.
Qed.

Lemma group_component_known sm conds :
  components_known sm -> known_component (group_component sm conds) = true.
Proof.
  intro Hsm. unfold group_component.
  pose proof (scan_group_known sm conds Hsm [] (Forall_nil _)) as H.
  destruct (scan_group sm conds []) as [[c|] votes]; [exact H|].
  destruct votes as [|[k n] votes]; [reflexivity|]. cbn [most_common].
  inversion H as [|? ? Hk Hv]; subst. apply most_common_from_known; assumption.
Qed.

Lemma map_conditionals_mapped st :
  mapped_state st -> mapped_state (_map_conditionals st).
Proof.
  unfold _map_conditionals. apply fold_left_inv.
  intros a g [H1 [H2 H3]]. unfold map_group.
  pose proof (group_component_known (symbol_map a) g H2) as Hk.
  generalize dependent (group_component (symbol_map a) g). intros k Hk.
  revert a H1 H2 H3. induction g as [|c g IH]; intros a H1 H2 H3; cbn.
  - repeat split; assumption.
  - apply IH; cbn; try assumption. apply dict_append_keys_known; assumption.
Qed.

Lemma map_symbols_mapped st :
  mapped_state st -> mapped_state (map_symbols_to_components st).
Proof.
  intro H. unfold map_symbols_to_components.
  fold (mapped_symbols st).
  pose proof (map_conditionals_mapped _ (mapped_symbols_mapped st H)) as [H1 [H2 H3]].
  repeat split; cbn; try assumption.
  unfold keys_known in *. rewrite Forall_map. cbn. exact H1.
Qed.

(** X2.  After extraction and mapping of any source text, every key of [output_files], conditionals included, is a key of [COMPONENT_GROUPS]. *)
Theorem output_components_are_known :
  forall (source : string) (file_key : string) (elements : list Element),
    In (file_key, elements)
       (output_files (map_symbols_to_components (extract_symbols source init_state))) ->
    In file_key (map fst COMPONENT_GROUPS).
Proof.
  intros source k l Hin.
  pose proof (map_symbols_mapped _ (fresh_mapped _ (extract_symbols_fresh source)))
    as [H _].
  unfold keys_known in H. rewrite Forall_forall in H.
  exact (mem_In _ _ (H _ Hin)).
Qed.

(** X3.  No step of extraction or mapping fills [used_in], so on the symbol map of any run [_analyze_module_dependencies] adds no dependency between components. *)
Theorem module_dependencies_stay_empty :
  forall source : string,
    _analyze_module_dependencies
      (symbol_map (mapped_symbols (extract_symbols source init_state))) [] = [].
Proof.
  intro source.
  pose proof (mapped_symbols_mapped _ (fresh_mapped _ (extract_symbols_fresh source)))
    as [_ [_ H]].
  unfold _analyze_module_dependencies.
  generalize (@nil (string * list string)).
  induction H as [|[s i] sm Hx Hsm IH]; intro md; cbn; [reflexivity|].
  cbn in Hx. rewrite Hx. cbn. destruct (component i); apply IH.
Qed.

(** *** Every extracted symbol is registered and gets a component *)

Lemma dict_has_set {V : Type} (k k0 : string) (v : V) (d : list (string * V)) :
  dict_has k0 d = true -> dict_has k0 (dict_set k v d) = true.
Proof.
  unfold dict_has. intro H.
  destruct (String.eqb k0 k) eqn:E.
  - apply String.eqb_eq in E. subst k0. rewrite dict_get_set_same. reflexivity.
  - apply String.eqb_neq in E. rewrite dict_get_set_other by exact E. exact H.
Qed.

Lemma dict_has_set_same {V : Type} (k : string) (v : V) (d : list (string * V)) :
  dict_has k (dict_set k v d) = true.
Proof. unfold dict_has. rewrite dict_get_set_same. reflexivity. Qed.

Lemma registered_step (st st' : state) (e : Element) (v : info) :
  (forall x, In x (symbols st') -> In x (symbols st) \/ e = x) ->
  symbol_map st' = dict_set (name e) v (symbol_map st) ->
  registered st -> registered st'.
Proof.
  intros Hs Hm H x Hx. rewrite Hm. destruct (Hs x Hx) as [Hin|Heq].
  - apply dict_has_set. apply H. exact Hin.
  - subst x. apply dict_has_set_same.
Qed.

Lemma registered_same (st st' : state) :
  symbols st' = symbols st -> symbol_map st' = symbol_map st ->
  registered st -> registered st'.
Proof. intros Hs Hm H x Hx. rewrite Hm. apply H. rewrite <- Hs. exact Hx. Qed.

Ltac registered_body :=
  let H := fresh "H" in
  intros ? ? H;
  repeat match goal with
         | |- context [match ?x with _ => _ end] => destruct x
         end;
  try exact H;
  try (apply (registered_same _ _ eq_refl eq_refl H));
  match goal with
  | |- registered (_add_to_symbol_map (_ _ (_ ++ [?el])) _ ?t) =>
      eapply registered_step with (e := el) (v := mkInfo t None [] None);
      [ | |exact H]; [|reflexivity]
  | |- registered (set_symbol_map (_ _ (_ ++ [?el])) (dict_set _ ?vl _)) =>
      eapply registered_step with (e := el) (v := vl); [ | |exact H]; [|reflexivity]
  end;
  intro; unfold symbols;
  cbn [functions structs enums globals typedefs macros
       set_functions set_structs set_enums set_globals
       set_typedefs set_macros _add_to_symbol_map set_symbol_map];
  repeat rewrite in_app_iff; cbn [In]; tauto.

Lemma extract_enums_registered source st :
  registered st -> registered (extract_enums source st).
Proof. unfold extract_enums. apply fold_left_inv. registered_body. Qed.

Lemma extract_functions_registered source st :
  registered st -> registered (extract_functions source st).
Proof. unfold extract_functions. apply fold_left_inv. registered_body. Qed.

Lemma extract_structs_registered source st :
  registered st -> registered (extract_structs source st).
Proof. unfold extract_structs. apply fold_left_inv. registered_body. Qed.

Lemma extract_globals_registered source st :
  registered st -> registered (extract_globals source st).
Proof. unfold extract_globals. apply fold_left_inv. registered_body. Qed.

Lemma extract_typedefs_registered source st :
  registered st -> registered (extract_typedefs source st).
Proof. unfold extract_typedefs. apply fold_left_inv. registered_body. Qed.

Lemma extract_macros_registered source st :
  registered st -> registered (extract_macros source st).
Proof. unfold extract_macros. apply fold_left_inv. registered_body. Qed.

Lemma extract_loop_registered source fuel :
  forall ds st, registered st -> registered (extract_conditionals_loop fuel source ds st).
Proof.
  induction fuel as [|fuel IH]; intros ds st H; cbn; [exact H|].
  destruct ds as [|[ln d] tl]; [exact H|].
  destruct (Py.startswith d "#if").
  - destruct (scan_block tl 1 [(ln, d)]) as [[[e b] rest]|].
    + apply IH. exact H.
    + exact H.
  - apply IH. exact H.
Qed.

Lemma extract_symbols_registered source :
  registered (extract_symbols source init_state).
Proof.
  unfold extract_symbols.
  apply extract_macros_registered, extract_typedefs_registered, extract_globals_registered,
    extract_structs_registered, extract_functions_registered.
  unfold extract_conditionals. apply extract_loop_registered, extract_enums_registered.
  intros e [].
Qed.

Lemma set_component_sets nm c sm :
  dict_has nm sm = true -> has_component nm (set_component nm c sm).
Proof.
  unfold dict_has, set_component. destruct (dict_get nm sm) as [i|]; [|discriminate].
  intros _. eexists _, c. rewrite dict_get_set_same. split; reflexivity.
Qed.

Lemma set_component_keeps nm n c sm :
  has_component n sm -> has_component n (set_component nm c sm).
Proof.
  intros [i [c0 [H1 H2]]]. unfold set_component.
  destruct (dict_get nm sm) as [j|] eqn:E; [|exists i, c0; split; assumption].
  destruct (String.eqb n nm) eqn:En.
  - apply String.eqb_eq in En. subst n. eexists _, c.
    rewrite dict_get_set_same. split; reflexivity.
  - apply String.eqb_neq in En. exists i, c0.
    rewrite dict_get_set_other by exact En. split; assumption.
Qed.

Lemma set_component_has nm n c sm :
  dict_has n sm = true -> dict_has n (set_component nm c sm) = true.
Proof.
  intro H. unfold set_component. destruct (dict_get nm sm); [|exact H].
  apply dict_has_set. exact H.
Qed.

Lemma map_elements_keeps_component choose l n :
  forall st, has_component n (symbol_map st) ->
             has_component n (symbol_map (map_elements choose l st)).
Proof.
  unfold map_elements. induction l as [|x l IH]; intros st H; cbn [fold_left]; [exact H|].
  apply IH. cbn. apply set_component_keeps. exact H.
Qed.

Lemma map_elements_keeps_has choose l n :
  forall st, dict_has n (symbol_map st) = true ->
             dict_has n (symbol_map (map_elements choose l st)) = true.
Proof.
  unfold map_elements. induction l as [|x l IH]; intros st H; cbn [fold_left]; [exact H|].
  apply IH. cbn. apply set_component_has. exact H.
Qed.

Lemma map_elements_sets choose l :
  forall st, (forall e, In e l -> dict_has (name e) (symbol_map st) = true) ->
             forall e, In e l ->
                       has_component (name e) (symbol_map (map_elements choose l st)).
Proof.
  induction l as [|x l IH]; intros st H e Hin; [destruct Hin|].
  unfold map_elements. cbn [fold_left].
  match goal with
  | |- has_component _ (symbol_map (fold_left ?f l ?s)) =>
      change (fold_left f l s) with (map_elements choose l s); set (st1 := s)
  end.
  destruct Hin as [->|Hin].
  - apply map_elements_keeps_component. cbn. apply set_component_sets.
    apply H. left. reflexivity.
  - apply IH; [|exact Hin]. intros y Hy. cbn. apply set_component_has.
    apply H. right. exact Hy.
Qed.

Lemma map_elements_functions choose l st :
  functions (map_elements choose l st) = functions st.
Proof. unfold map_elements. apply fold_left_keeps. keeps_field. Qed.
Lemma map_elements_structs choose l st :
  structs (map_elements choose l st) = structs st.
Proof. unfold map_elements. apply fold_left_keeps. keeps_field. Qed.
Lemma map_elements_enums choose l st :
  enums (map_elements choose l st) = enums st.
Proof. unfold map_elements. apply fold_left_keeps. keeps_field. Qed.
Lemma map_elements_typedefs choose l st :
  typedefs (map_elements choose l st) = typedefs st.
Proof. unfold map_elements. apply fold_left_keeps. keeps_field. Qed.
Lemma map_elements_globals choose l st :
  globals (map_elements choose l st) = globals st.
Proof. unfold map_elements. apply fold_left_keeps. keeps_field. Qed.
Lemma map_elements_macros choose l st :
  macros (map_elements choose l st) = macros st.
Proof. unfold map_elements. apply fold_left_keeps. keeps_field. Qed.

Ltac map_fields :=
  repeat rewrite ?map_elements_functions, ?map_elements_structs, ?map_elements_enums,
    ?map_elements_typedefs, ?map_elements_globals, ?map_elements_macros,
    ?map_elements_conditionals.

Lemma mapped_symbols_components st :
  registered st ->
  forall e, In e (symbols st) -> has_component (name e) (symbol_map (mapped_symbols st)).
Proof.
  intros Hreg e Hin.
  assert (R : forall x, In x (symbols st) -> dict_has (name x) (symbol_map st) = true)
    by exact Hreg.
  unfold mapped_symbols, _map_macros, _map_globals, _map_typedefs, _map_enums,
    _map_structs, _map_functions.
  map_fields.
  unfold symbols in Hin, R. repeat rewrite in_app_iff in Hin.
  assert (Rf : forall x, In x (functions st) -> dict_has (name x) (symbol_map st) = true)
    by (intros; apply R; repeat rewrite in_app_iff; tauto).
  assert (Rs : forall x, In x (structs st) -> dict_has (name x) (symbol_map st) = true)
    by (intros; apply R; repeat rewrite in_app_iff; tauto).
  assert (Re : forall x, In x (enums st) -> dict_has (name x) (symbol_map st) = true)
    by (intros; apply R; repeat rewrite in_app_iff; tauto).
  assert (Rt : forall x, In x (typedefs st) -> dict_has (name x) (symbol_map st) = true)
    by (intros; apply R; repeat rewrite in_app_iff; tauto).
  assert (Rg : forall x, In x (globals st) -> dict_has (name x) (symbol_map st) = true)
    by (intros; apply R; repeat rewrite in_app_iff; tauto).
  assert (Rm : forall x, In x (macros st) -> dict_has (name x) (symbol_map st) = true)
    by (intros; apply R; repeat rewrite in_app_iff; tauto).
  clear R.
  destruct Hin as [H|[H|[H|[H|[H|H]]]]].
  - do 5 apply map_elements_keeps_component. apply map_elements_sets; assumption.
  - do 4 apply map_elements_keeps_component. apply map_elements_sets; [|exact H].
    intros x Hx. apply map_elements_keeps_has. apply Rs, Hx.
  - do 3 apply map_elements_keeps_component. apply map_elements_sets; [|exact H].
    intros x Hx. do 2 apply map_elements_keeps_has. apply Re, Hx.
  - do 2 apply map_elements_keeps_component. apply map_elements_sets; [|exact H].
    intros x Hx. do 3 apply map_elements_keeps_has. apply Rt, Hx.
  - apply map_elements_keeps_component. apply map_elements_sets; [|exact H].
    intros x Hx. do 4 apply map_elements_keeps_has. apply Rg, Hx.
  - apply map_elements_sets; [|exact H].
    intros x Hx. do 5 apply map_elements_keeps_has. apply Rm, Hx.
Qed.

Lemma map_conditionals_symbol_map st :
  symbol_map (_map_conditionals st) = symbol_map st.
Proof.
  unfold _map_conditionals. apply fold_left_keeps. intros a g. unfold map_group.
  apply (proj1 (map_group_spec (group_component (symbol_map a) g) g a)).
Qed.

(** X4.  Every function, struct, enum, typedef, global and macro that extraction finds has, after mapping, an entry in [symbol_map] under its name whose component is set to a key of [COMPONENT_GROUPS]. *)
Theorem every_symbol_gets_a_component :
  forall (source : string) (e : Element),
    let st0 := extract_symbols source init_state in
    In e (functions st0 ++ structs st0 ++ enums st0 ++ typedefs st0 ++ globals st0
          ++ macros st0) ->
    exists i c,
      dict_get (name e) (symbol_map (map_symbols_to_components st0)) = Some i
      /\ component i = Some c
      /\ In c (map fst COMPONENT_GROUPS).
Proof.
  intros source e st0 Hin.
  assert (Hsm : symbol_map (map_symbols_to_components st0) = symbol_map (mapped_symbols st0)).
  { unfold map_symbols_to_components. cbn [symbol_map set_output_files].
    rewrite map_conditionals_symbol_map. reflexivity. }
  rewrite Hsm.
  destruct (mapped_symbols_components st0 (extract_symbols_registered source) e Hin)
    as [i [c [H1 H2]]].
  exists i, c. split; [exact H1|]. split; [exact H2|].
  pose proof (mapped_symbols_mapped _ (fresh_mapped _ (extract_symbols_fresh source)))
    as [_ [Hk _]].
  fold st0 in Hk. unfold components_known in Hk. rewrite Forall_forall in Hk.
  specialize (Hk _ (dict_get_In _ _ _ H1)). cbn [snd] in Hk. rewrite H2 in Hk.
  apply mem_In. exact Hk.
Qed.

(** *** The component lists partition the extracted elements *)

Lemma map_elements_perm choose l :
  forall st,
    Permutation (concat (map snd (output_files (map_elements choose l st))))
                (concat (map snd (output_files st)) ++ l).
Proof.
  unfold map_elements. induction l as [|x l IH]; intro st; cbn [fold_left].
  - rewrite app_nil_r. reflexivity.
  - rewrite IH. cbn [output_files set_symbol_map set_output_files].
    rewrite dict_append_perm, <- app_assoc. reflexivity.
Qed.

Lemma fold_dict_append_perm (kcs : list (string * Element)) :
  forall o,
    Permutation
      (concat (map snd (fold_left (fun o kc => dict_append (fst kc) (snd kc) o) kcs o)))
      (concat (map snd o) ++ map snd kcs).
Proof.
  induction kcs as [|[k c] kcs IH]; intro o; cbn [fold_left map].
  - rewrite app_nil_r. reflexivity.
  - rewrite IH. cbn [fst snd]. rewrite dict_append_perm, <- app_assoc. reflexivity.
Qed.

Lemma insert_by_start_perm e l : Permutation (insert_by_start e l) (e :: l).
Proof.
  induction l as [|x l IH]; cbn [insert_by_start]; [reflexivity|].
  destruct (start e <? start x); [reflexivity|].
  rewrite IH. apply perm_swap.
Qed.

Lemma sort_by_start_perm l : Permutation (sort_by_start l) l.
Proof.
  unfold sort_by_start.
  enough (H : forall acc, Permutation (fold_left (fun acc e => insert_by_start e acc) l acc)
                                      (acc ++ l))
    by apply (H []).
  induction l as [|x l IH]; intro acc; cbn [fold_left].
  - rewrite app_nil_r. reflexivity.
  - rewrite IH, insert_by_start_perm. apply Permutation_middle.
Qed.

Lemma sorted_lists_perm (o : list (string * list Element)) :
  Permutation (concat (map snd (map (fun kv => (fst kv, sort_by_start (snd kv))) o)))
              (concat (map snd o)).
Proof.
  induction o as [|[k l] o IH]; cbn [map concat fst snd]; [reflexivity|].
  apply Permutation_app; [apply sort_by_start_perm|exact IH].
Qed.

Lemma mapped_symbols_functions st : functions (mapped_symbols st) = functions st.
Proof.
  unfold mapped_symbols, _map_macros, _map_globals, _map_typedefs, _map_enums,
    _map_structs, _map_functions. map_fields. reflexivity.
Qed.

Lemma mapped_symbols_perm st :
  Permutation (concat (map snd (output_files (mapped_symbols st))))
              (concat (map snd (output_files st)) ++ symbols st).
Proof.
  unfold mapped_symbols, _map_macros, _map_globals, _map_typedefs, _map_enums,
    _map_structs, _map_functions, symbols.
  map_fields.
  repeat rewrite map_elements_perm. repeat rewrite <- app_assoc. reflexivity.
Qed.

Lemma run_elements_perm :
  forall source : string,
    let st0 := extract_symbols source init_state in
    Permutation
      (concat (map snd (output_files (map_symbols_to_components st0))))
      (functions st0 ++ structs st0 ++ enums st0 ++ typedefs st0 ++ globals st0
       ++ macros st0 ++ conditionals st0).
Proof.
  intros source st0.
  unfold map_symbols_to_components. fold (mapped_symbols st0).
  cbn [output_files set_output_files].
  rewrite sorted_lists_perm.
  unfold _map_conditionals.
  rewrite (map_conditionals_spec (symbol_map (mapped_symbols st0))) by reflexivity.
  fold (assignments (mapped_symbols st0)).
  rewrite fold_dict_append_perm, mapped_symbols_perm.
  destruct (extract_symbols_fresh source) as [Ho _]. fold st0 in Ho. rewrite Ho.
  cbn [map concat app].
  pose proof (extracted_segments source) as Hseg. fold st0 in Hseg.
  destruct (segments_distinct source _ _ Hseg 0 (directive_lines_ok source))
    as [Hnd [_ Hcan]].
  rewrite assignments_elements.
  pose proof (mapped_symbols_conditionals st0) as Hc.
  rewrite (groups_partition (mapped_symbols st0)) by (rewrite Hc; assumption).
  rewrite Hc. unfold symbols. repeat rewrite <- app_assoc. reflexivity.
Qed.

(** X5.  Mapping neither drops nor duplicates: the lists of [output_files] taken together are a permutation of the extracted functions, structs, enums, typedefs, globals, macros and conditionals. *)
Theorem mapping_partitions_the_elements :
  forall source : string,
    let st0 := extract_symbols source init_state in
    Permutation
      (concat (map snd (output_files (map_symbols_to_components st0))))
      (functions st0 ++ structs st0 ++ enums st0 ++ typedefs st0 ++ globals st0
       ++ macros st0 ++ conditionals st0).
Proof. exact run_elements_perm. Qed.

(** *** Each component list is in source order *)

Lemma insert_by_start_sorted e l :
  StronglySorted by_start l -> StronglySorted by_start (insert_by_start e l).
Proof.
  induction 1 as [|x l Hs IH Hx]; cbn [insert_by_start].
  - constructor; constructor.
  - destruct (start e <? start x) eqn:E.
    + apply Nat.ltb_lt in E. constructor; [constructor; assumption|].
      constructor; [unfold by_start; lia|].
      rewrite Forall_forall in Hx |- *. intros y Hy. specialize (Hx y Hy).
      unfold by_start in *. lia.
    + apply Nat.ltb_ge in E. constructor; [exact IH|].
      rewrite Forall_forall in Hx |- *. intros y Hy.
      apply (Permutation_in _ (insert_by_start_perm e l)) in Hy.
      destruct Hy as [<-|Hy]; [exact E|apply Hx, Hy].
Qed.

Lemma sort_by_start_sorted l : StronglySorted by_start (sort_by_start l).
Proof.
  unfold sort_by_start.
  enough (H : forall acc, StronglySorted by_start acc ->
                          StronglySorted by_start
                            (fold_left (fun acc e => insert_by_start e acc) l acc))
    by (apply H; constructor).
  induction l as [|x l IH]; intros acc Ha; cbn [fold_left]; [exact Ha|].
  apply IH, insert_by_start_sorted, Ha.
Qed.

(** X6.  After [map_symbols_to_components] the elements of every component are in the order of their start offsets. *)
Theorem component_lists_in_source_order :
  forall (st : state) (file_key : string) (elements : list Element),
    In (file_key, elements) (output_files (map_symbols_to_components st)) ->
    StronglySorted (fun a b => start a <= start b) elements.
Proof.
  intros st k l Hin. unfold map_symbols_to_components in Hin.
  cbn [output_files set_output_files] in Hin. apply in_map_iff in Hin.
  destruct Hin as [[k' l'] [E _]]. cbn [fst snd] in E. injection E as _ <-.
  apply sort_by_start_sorted.
Qed.


(** ** Synthesis *)

Lemma iadd_is_list v s : is_list (iadd v s) = is_list v.
Proof. destruct v; reflexivity. Qed.

Lemma header_step_is_list k acc e :
  is_list (fst (header_step k acc e))
  = is_list (fst acc) || (etype_eqb (type e) TConditional && declares (content e)).
Proof.
  destruct acc as [hc he]. unfold header_step, declares.
  destruct (type e); cbn [etype_eqb andb fst]; try (rewrite orb_false_r; reflexivity).
  - repeat match goal with
           | |- context [if ?b then _ else _] => destruct b
           end; cbn [fst]; rewrite orb_false_r; reflexivity.
  - destruct (found (search struct_regex (content e)) || found (search enum_regex (content e))
              || found (search typedef_regex (content e))).
    + destruct (declarations_in (content e)); cbn [fst is_list]; rewrite orb_true_r; reflexivity.
    + rewrite orb_false_r. reflexivity.
  - destruct (declaration_of e) as [d|]; [|rewrite orb_false_r; reflexivity].
    destruct (negb (Py.startswith d "static")); cbn [fst]; rewrite orb_false_r; reflexivity.
Qed.

Lemma header_fold_is_list k els :
  forall acc, is_list (fst (fold_left (header_step k) els acc))
              = is_list (fst acc) || rebinds els.
Proof.
  induction els as [|e els IH]; intro acc; cbn [fold_left rebinds existsb].
  - rewrite orb_false_r. reflexivity.
  - rewrite IH, header_step_is_list, orb_assoc. reflexivity.
Qed.

Lemma fold_iadd_is_list (l : list Element) :
  forall v, is_list (fold_left (fun h elem => iadd h (content elem +++ Py.nl +++ Py.nl)) l v)
            = is_list v.
Proof.
  induction l as [|x l IH]; intro v; cbn [fold_left]; [reflexivity|].
  rewrite IH. apply iadd_is_list.
Qed.

Lemma header_of_is_list st k els :
  is_list (fst (header_of st k els)) = rebinds els.
Proof.
  unfold header_of.
  match goal with
  | |- context [fold_left (header_step k) els ?a] =>
      pose proof (header_fold_is_list k els a) as H;
      destruct (fold_left (header_step k) els a) as [hc he]
  end.
  cbn [fst] in *. rewrite iadd_is_list, fold_iadd_is_list, H. reflexivity.
Qed.

Lemma write_component_outcome st fs k els :
  snd (write_component st fs (k, els))
  = if rebinds els then Some TypeError else None.
Proof.
  unfold write_component.
  pose proof (header_of_is_list st k els) as H.
  destruct (header_of st k els) as [hc he]. cbn [fst] in H.
  rewrite <- H. destruct hc; reflexivity.
Qed.

Lemma write_components_outcome st l :
  forall fs,
    snd (write_components st fs l)
    = if existsb (fun kv => rebinds (snd kv)) l then Some TypeError else None.
Proof.
  induction l as [|[k els] l IH]; intro fs; cbn [write_components existsb snd];
    [reflexivity|].
  pose proof (write_component_outcome st fs k els) as H.
  destruct (write_component st fs (k, els)) as [fs' [e|]]; cbn [snd] in H.
  - destruct (rebinds els); [|discriminate]. cbn [orb snd]. exact H.
  - destruct (rebinds els); [discriminate|]. cbn [orb]. apply IH.
Qed.

(** X7.  [create_output_files] ends in the [TypeError] of [f.write] exactly when some component holds a conditional whose text matches the struct, enum or typedef pattern. *)
Theorem synthesis_fails_iff_a_conditional_declares :
  forall (st : state) (fs : files),
    snd (create_output_files st fs)
    = if existsb (fun kv => rebinds (snd kv)) (output_files st)
      then Some TypeError else None.
Proof. intros st fs. unfold create_output_files. apply write_components_outcome. Qed.

(** *** The files at the point of failure *)

Lemma write_components_stop st pre k els post :
  existsb (fun kv => rebinds (snd kv)) pre = false ->
  rebinds els = true ->
  forall fs,
    exists fs0,
      write_components st fs (pre ++ (k, els) :: post)
      = (write_file
           (write_file fs0 (c_path k) (impl_of k els (snd (header_of st k els))))
           (h_path k) EmptyString,
         Some TypeError).
Proof.
  intros Hpre Hels. induction pre as [|[k0 e0] pre IH]; intro fs; cbn [app write_components].
  - exists fs. unfold write_component.
    pose proof (header_of_is_list st k els) as H. rewrite Hels in H.
    destruct (header_of st k els) as [hc he]. cbn [fst snd] in *.
    destruct hc; [discriminate|]. reflexivity.
  - cbn [existsb snd] in Hpre. apply orb_false_elim in Hpre. destruct Hpre as [H0 Hpre].
    pose proof (write_component_outcome st fs k0 e0) as H. rewrite H0 in H.
    destruct (write_component st fs (k0, e0)) as [fs' o]. cbn [snd] in H. subst o.
    apply IH. exact Hpre.
Qed.

(** X8.  At the first component with such a conditional the implementation file has been written and the header file is left opened and empty. *)
Theorem first_declaring_component_stops_synthesis :
  forall (st : state) (fs : files) pre file_key elements post,
    output_files st = pre ++ (file_key, elements) :: post ->
    existsb (fun kv => rebinds (snd kv)) pre = false ->
    rebinds elements = true ->
    let fs' := fst (create_output_files st fs) in
    dict_get (h_path file_key) fs' = Some EmptyString
    /\ dict_get (c_path file_key) fs'
       = Some (impl_of file_key elements (snd (header_of st file_key elements))).
Proof.
  intros st fs pre k els post Ho Hpre Hels fs'.
  unfold fs', create_output_files. rewrite Ho.
  destruct (write_components_stop st pre k els post Hpre Hels (_create_common_header st fs))
    as [fs0 E].
  rewrite E. cbn [fst]. unfold write_file. split.
  - apply dict_get_set_same.
  - rewrite dict_get_set_other; [apply dict_get_set_same|].
    unfold c_path, h_path. cbn. discriminate.
Qed.

(** *** The files of a component after a synthesis that succeeds *)

Lemma append_inj_l (p a b : string) : p +++ a = p +++ b -> a = b.
Proof. induction p as [|c p IH]; cbn; intro H; [exact H|]. injection H as H. apply IH, H. Qed.

Lemma append_inj_r (s : string) : forall a b : string, a +++ s = b +++ s -> a = b.
Proof.
  intros a b H.
  assert (L : String.length a = String.length b).
  { apply (f_equal String.length) in H. rewrite !length_append in H. lia. }
  revert b H L. induction a as [|c a IH]; intros [|d b] H L; cbn in *;
    try discriminate; [reflexivity|].
  injection H as -> H. f_equal. apply IH; [exact H|lia].
Qed.

Lemma h_path_inj (k k' : string) : h_path k = h_path k' -> k = k'.
Proof.
  unfold h_path. intro H. apply append_inj_l in H. apply append_inj_r in H. exact H.
Qed.

Lemma c_path_inj (k k' : string) : c_path k = c_path k' -> k = k'.
Proof.
  unfold c_path. intro H. apply append_inj_l in H. apply append_inj_r in H. exact H.
Qed.

Lemma c_path_not_h_path (k k' : string) : c_path k <> h_path k'.
Proof. unfold c_path, h_path. cbn. discriminate. Qed.

Lemma write_component_files st fs k els h :
  fst (header_of st k els) = PStr h ->
  fst (write_component st fs (k, els))
  = write_file (write_file fs (c_path k) (impl_of k els (snd (header_of st k els))))
               (h_path k) h.
Proof.
  unfold write_component. destruct (header_of st k els) as [hc he]. cbn [fst snd].
  intros ->. reflexivity.
Qed.

Lemma not_list_is_str v : is_list v = false -> exists h, v = PStr h.
Proof. destruct v as [h|l]; [exists h; reflexivity|discriminate]. Qed.

Lemma write_components_files st l :
  forall fs,
    NoDup (map fst l) ->
    existsb (fun kv => rebinds (snd kv)) l = false ->
    let fs' := fst (write_components st fs l) in
    (forall k els, In (k, els) l ->
       exists h, fst (header_of st k els) = PStr h
                 /\ dict_get (h_path k) fs' = Some h
                 /\ dict_get (c_path k) fs'
                    = Some (impl_of k els (snd (header_of st k els))))
    /\ (forall p, (forall k, In k (map fst l) -> p <> c_path k /\ p <> h_path k) ->
                  dict_get p fs' = dict_get p fs).
Proof.
  induction l as [|[k0 e0] l IH]; intros fs Hnd Hreb; cbn zeta.
  - split; [intros k els []|]. intros p _. reflexivity.
  - cbn [map fst] in Hnd. inversion Hnd as [|? ? Hk0 Hnd']; subst.
    cbn [existsb snd] in Hreb. apply orb_false_elim in Hreb. destruct Hreb as [H0 Hreb].
    destruct (not_list_is_str _ (eq_trans (header_of_is_list st k0 e0) H0)) as [h0 Eh].
    pose proof (write_component_files st fs k0 e0 h0 Eh) as Ew.
    pose proof (write_component_outcome st fs k0 e0) as Eo. rewrite H0 in Eo.
    cbn [write_components].
    destruct (write_component st fs (k0, e0)) as [fs1 o]. cbn [fst snd] in Ew, Eo. subst o.
    destruct (IH fs1 Hnd' Hreb) as [IH1 IH2]. cbn zeta in IH1, IH2.
    assert (Hfree : forall k, In k (map fst l) ->
                              h_path k0 <> c_path k /\ h_path k0 <> h_path k
                              /\ c_path k0 <> c_path k /\ c_path k0 <> h_path k).
    { intros k Hk. repeat split; intro E.
      - symmetry in E. exact (c_path_not_h_path _ _ E).
      - apply h_path_inj in E. subst k. exact (Hk0 Hk).
      - apply c_path_inj in E. subst k. exact (Hk0 Hk).
      - exact (c_path_not_h_path _ _ E). }
    split.
    + intros k els [E|Hin].
      * injection E as <- <-. exists h0. split; [exact Eh|].
        rewrite !IH2 by (intros k Hk; destruct (Hfree k Hk) as [? [? [? ?]]]; split; assumption).
        rewrite Ew. unfold write_file. split; [apply dict_get_set_same|].
        rewrite dict_get_set_other by apply c_path_not_h_path.
        apply dict_get_set_same.
      * apply IH1. exact Hin.
    + intros p Hp. rewrite IH2.
      * rewrite Ew. unfold write_file.
        destruct (Hp k0 (or_introl eq_refl)) as [Hc Hh].
        rewrite !dict_get_set_other by assumption. reflexivity.
      * intros k Hk. apply Hp. right. exact Hk.
Qed.

(** X9.  When the keys of [output_files] are distinct and no conditional declares a type, synthesis leaves for every component its header text in the header file and its implementation text in the implementation file. *)
Theorem component_files_hold_header_and_implementation :
  forall (st : state) (fs : files) (file_key : string) (elements : list Element),
    NoDup (map fst (output_files st)) ->
    existsb (fun kv => rebinds (snd kv)) (output_files st) = false ->
    In (file_key, elements) (output_files st) ->
    let fs' := fst (create_output_files st fs) in
    exists h,
      fst (header_of st file_key elements) = PStr h
      /\ dict_get (h_path file_key) fs' = Some h
      /\ dict_get (c_path file_key) fs'
         = Some (impl_of file_key elements (snd (header_of st file_key elements))).
Proof.
  intros st fs k els Hnd Hreb Hin fs'. unfold fs', create_output_files.
  exact (proj1 (write_components_files st (output_files st) (_create_common_header st fs)
                  Hnd Hreb) k els Hin).
Qed.

(** Synthesis writes the two files of each component and the common
    header, and nothing else. *)
Lemma write_component_other st fs k els p :
  p <> c_path k -> p <> h_path k ->
  dict_get p (fst (write_component st fs (k, els))) = dict_get p fs.
Proof.
  intros Hc Hh. unfold write_component.
  destruct (header_of st k els) as [[h|hl] he]; cbn [fst]; unfold write_file;
    rewrite !dict_get_set_other by assumption; reflexivity.
Qed.

Lemma write_components_other st l p :
  (forall k, In k (map fst l) -> p <> c_path k /\ p <> h_path k) ->
  forall fs, dict_get p (fst (write_components st fs l)) = dict_get p fs.
Proof.
  induction l as [|[k els] l IH]; intros Hp fs; cbn [write_components]; [reflexivity|].
  destruct (Hp k (or_introl eq_refl)) as [Hc Hh].
  pose proof (write_component_other st fs k els p Hc Hh) as E.
  destruct (write_component st fs (k, els)) as [fs1 [e|]]; cbn [fst] in *.
  - exact E.
  - rewrite IH; [exact E|]. intros k' Hk'. apply Hp. right. exact Hk'.
Qed.

(** X10.  [create_output_files] changes no file other than the common header and the two files of each component. *)
Theorem synthesis_writes_only_component_files :
  forall (st : state) (fs : files) (path : string),
    path <> h_path "common" ->
    (forall file_key, In file_key (map fst (output_files st)) ->
                      path <> c_path file_key /\ path <> h_path file_key) ->
    dict_get path (fst (create_output_files st fs)) = dict_get path fs.
Proof.
  intros st fs p Hcom Hp. unfold create_output_files.
  rewrite write_components_other by exact Hp.
  unfold _create_common_header, write_file. apply dict_get_set_other. exact Hcom.
Qed.

(** *** The form of a header *)

Lemma append_assoc (a b c : string) : (a +++ b) +++ c = a +++ b +++ c.
Proof. induction a as [|x a IH]; cbn; [reflexivity|]. rewrite IH. reflexivity. Qed.

Lemma append_nil_r (a : string) : a +++ EmptyString = a.
Proof. induction a as [|x a IH]; cbn; [reflexivity|]. rewrite IH. reflexivity. Qed.

(** A fold that only appends to a text extends the text it starts from. *)
Lemma fold_appends {B : Type} (f : string -> B -> string) (l : list B) :
  (forall hc x, exists s, f hc x = hc +++ s) ->
  forall a, exists s, fold_left f l a = a +++ s.
Proof.
  intro H. induction l as [|x l IH]; intro a; cbn [fold_left].
  - exists EmptyString. rewrite append_nil_r. reflexivity.
  - destruct (H a x) as [s Es]. destruct (IH (f a x)) as [t Et].
    exists (s +++ t). rewrite Et, Es, append_assoc. reflexivity.
Qed.

Lemma header_step_keeps_text k acc e :
  etype_eqb (type e) TConditional && declares (content e) = false ->
  fst (header_step k acc e) = fst acc.
Proof.
  destruct acc as [hc he]. unfold header_step, declares.
  destruct (type e); cbn [fst etype_eqb andb]; try reflexivity.
  - intros _. repeat match goal with
                     | |- context [if ?b then _ else _] => destruct b
                     end; reflexivity.
  - intros ->. reflexivity.
  - intros _. destruct (declaration_of e) as [d|]; [|reflexivity].
    destruct (negb (Py.startswith d "static")); reflexivity.
Qed.

Lemma header_fold_keeps_text k els :
  rebinds els = false ->
  forall acc, fst (fold_left (header_step k) els acc) = fst acc.
Proof.
  induction els as [|e els IH]; intros Hr acc; cbn [fold_left]; [reflexivity|].
  cbn [rebinds existsb] in Hr. apply orb_false_elim in Hr. destruct Hr as [He Hr].
  rewrite (IH Hr). apply header_step_keeps_text. exact He.
Qed.

Lemma fold_iadd_str (g : Element -> string) (l : list Element) :
  forall a, fold_left (fun h elem => iadd h (g elem)) l (PStr a)
            = PStr (a +++ str_concat (map g l)).
Proof.
  induction l as [|x l IH]; intro a; cbn [fold_left map str_concat fold_right].
  - rewrite append_nil_r. reflexivity.
  - cbn [iadd]. rewrite IH, append_assoc. reflexivity.
Qed.

(** The header text of a component none of whose conditionals declares a
    type: the prologue, the enum definitions hoisted for [nn_types] and
    [activation], the header elements in source order, the closing
    guard. *)
Lemma header_of_text st k els :
  rebinds els = false ->
  exists defs,
    fst (header_of st k els)
    = PStr (header_prologue k +++ defs
            +++ str_concat (map (fun e => content e +++ Py.nl +++ Py.nl)
                                (sort_by_start (snd (header_of st k els))))
            +++ closing_guard k).
Proof.
  intro Hr. unfold header_of.
  match goal with
  | |- context [fold_left (header_step k) els (PStr ?a, [])] =>
      set (hc := a);
      pose proof (header_fold_keeps_text k els Hr (PStr hc, [])) as E;
      destruct (fold_left (header_step k) els (PStr hc, [])) as [h he]
  end.
  cbn [fst snd] in *. subst h.
  assert (Hhc : exists defs, hc = header_prologue k +++ defs).
  { unfold hc.
    repeat match goal with
           | |- context [if ?b then _ else _] => destruct b
           end.
    - eexists. reflexivity.
    - eexists. reflexivity.
    - exists EmptyString. rewrite append_nil_r. reflexivity. }
  destruct Hhc as [defs ->]. exists defs.
  rewrite fold_iadd_str. cbn [iadd]. unfold closing_guard.
  rewrite !append_assoc. reflexivity.
Qed.

(** X11.  A header that is written starts with the prologue of its component, include guard and include of the common header included, and ends with the closing line of the guard. *)
Theorem header_is_wrapped_in_its_guard :
  forall (st : state) (file_key : string) (elements : list Element),
    rebinds elements = false ->
    exists middle,
      fst (header_of st file_key elements)
      = PStr (header_prologue file_key +++ middle
              +++ Py.nl +++ "#endif /* SOD_" +++ Py.upper file_key +++ "_H__ */" +++ Py.nl).
Proof.
  intros st k els Hr. destruct (header_of_text st k els Hr) as [defs E].
  eexists. rewrite E. rewrite append_assoc. reflexivity.
Qed.

(** *** Prototypes *)

Lemma header_step_prototypes k acc e :
  filter is_declaration (snd (header_step k acc e))
  = filter is_declaration (snd acc) ++ prototype_of e.
Proof.
  destruct acc as [hc he]. unfold header_step, prototype_of.
  destruct (type e) eqn:T; cbn [snd]; rewrite ?app_nil_r; try reflexivity.
  - repeat match goal with
           | |- context [if ?b then _ else _] => destruct b
           end; cbn [snd]; rewrite ?filter_app; cbn [filter]; unfold is_declaration;
      rewrite ?T; cbn [etype_eqb]; rewrite ?app_nil_r; reflexivity.
  - destruct (found (search struct_regex (content e)) || found (search enum_regex (content e))
              || found (search typedef_regex (content e))); [|reflexivity].
    destruct (declarations_in (content e)); cbn [snd]; [reflexivity|].
    rewrite filter_app. cbn [filter]. unfold is_declaration at 2, with_content.
    cbn [type]. rewrite T. cbn [etype_eqb]. rewrite app_nil_r. reflexivity.
  - destruct (declaration_of e) as [d|]; [|rewrite app_nil_r; reflexivity].
    destruct (negb (Py.startswith d "static")); cbn [snd]; [|rewrite app_nil_r; reflexivity].
    rewrite filter_app. reflexivity.
  - rewrite filter_app. cbn [filter]. unfold is_declaration at 2. rewrite T.
    cbn [etype_eqb]. rewrite app_nil_r. reflexivity.
  - rewrite filter_app. cbn [filter]. unfold is_declaration at 2. rewrite T.
    cbn [etype_eqb]. rewrite app_nil_r. reflexivity.
  - rewrite filter_app. cbn [filter]. unfold is_declaration at 2. rewrite T.
    cbn [etype_eqb]. rewrite app_nil_r. reflexivity.
Qed.

Lemma header_fold_prototypes k els :
  forall acc,
    filter is_declaration (snd (fold_left (header_step k) els acc))
    = filter is_declaration (snd acc) ++ flat_map prototype_of els.
Proof.
  induction els as [|e els IH]; intro acc; cbn [fold_left flat_map].
  - rewrite app_nil_r. reflexivity.
  - rewrite IH, header_step_prototypes, <- app_assoc. reflexivity.
Qed.

Lemma close_all_declarations l :
  filter is_declaration (close_all l) = filter is_declaration l.
Proof.
  unfold close_all. induction l as [|x l IH]; cbn [map filter]; [reflexivity|].
  rewrite IH.
  match goal with
  | |- (if is_declaration ?fx then _ else _) = _ =>
      assert (E : is_declaration fx = is_declaration x
                  /\ (is_declaration x = true -> fx = x))
  end.
  { unfold is_declaration. destruct (type x) eqn:T; cbn [etype_eqb];
      try (split; [rewrite T|]; reflexivity).
    destruct (close_count (content x) <? open_count (content x));
      cbn [type with_content]; rewrite ?T; split; try reflexivity; discriminate. }
  destruct E as [E1 E2]. rewrite E1.
  destruct (is_declaration x); [rewrite E2 by reflexivity|]; reflexivity.
Qed.

(** X12.  The declarations among the header elements of a component are, in order, the prototypes of its functions that have an opening brace and do not start with static. *)
Theorem header_prototypes_are_those_of_nonstatic_functions :
  forall (st : state) (file_key : string) (elements : list Element),
    filter (fun d => etype_eqb (type d) TDeclaration)
           (snd (header_of st file_key elements))
    = flat_map prototype_of elements.
Proof.
  intros st k els. unfold header_of.
  match goal with
  | |- context [fold_left (header_step k) els ?a] =>
      pose proof (header_fold_prototypes k els a) as H;
      destruct (fold_left (header_step k) els a) as [h he]
  end.
  cbn [snd] in *. fold is_declaration. rewrite close_all_declarations, H. reflexivity.
Qed.

Lemma prefix_append (a b : string) : String.prefix a (a +++ b) = true.
Proof.
  induction a as [|c a IH]; cbn; [destruct b; reflexivity|].
  destruct (ascii_dec c c) as [_|N]; [exact IH|destruct N; reflexivity].
Qed.

Lemma contains_unfold (s sub : string) :
  Py.contains s sub
  = if String.prefix sub s then true
    else match s with
         | EmptyString => false
         | String _ s' => Py.contains s' sub
         end.
Proof. destruct s; reflexivity. Qed.

Lemma contains_here (sub b : string) : Py.contains (sub +++ b) sub = true.
Proof. rewrite contains_unfold, prefix_append. reflexivity. Qed.

Lemma contains_skip (a s sub : string) :
  Py.contains s sub = true -> Py.contains (a +++ s) sub = true.
Proof.
  intro H. induction a as [|c a IH]; [exact H|].
  rewrite contains_unfold. cbn [String.append].
  destruct (String.prefix sub (String c (a +++ s))); [reflexivity|exact IH].
Qed.

Lemma prefix_extend (x a b : string) :
  String.prefix x a = true -> String.prefix x (a +++ b) = true.
Proof.
  revert a. induction x as [|c x IH]; intros a H; [destruct (a +++ b); reflexivity|].
  destruct a as [|d a]; [discriminate H|]. cbn in H |- *.
  destruct (ascii_dec c d); [apply IH, H|discriminate H].
Qed.

Lemma contains_extend (a b x : string) :
  Py.contains a x = true -> Py.contains (a +++ b) x = true.
Proof.
  induction a as [|c a IH]; intro H.
  - rewrite contains_unfold in H. destruct x; [|discriminate H].
    rewrite contains_unfold. destruct (EmptyString +++ b); reflexivity.
  - rewrite contains_unfold in H. rewrite contains_unfold.
    destruct (String.prefix x (String c a)) eqn:P.
    + rewrite (prefix_extend _ _ b P). reflexivity.
    + cbn [String.append].
      destruct (String.prefix x (String c (a +++ b))); [reflexivity|apply IH, H].
Qed.

Lemma contains_concat (x : string) (l : list string) :
  In x l -> Py.contains (str_concat l) x = true.
Proof.
  induction l as [|y l IH]; intro H; [destruct H|].
  destruct H as [E|Hin]; cbn [str_concat fold_right].
  - subst y. apply contains_here.
  - apply contains_skip. apply IH, Hin.
Qed.

(** X13.  The prototype of a function of the component that does not start with static is part of the header text, followed by an empty line. *)
Theorem nonstatic_prototype_is_in_the_header :
  forall (st : state) (file_key : string) (elements : list Element)
         (func : Element) (decl h : string),
    In func elements ->
    type func = TFunction ->
    declaration_of func = Some decl ->
    Py.startswith decl "static" = false ->
    fst (header_of st file_key elements) = PStr h ->
    Py.contains h (decl +++ Py.nl +++ Py.nl) = true.
Proof.
  intros st k els e decl h Hin Ht Hd Hs Hh.
  assert (Hr : rebinds els = false).
  { rewrite <- header_of_is_list with (st := st) (k := k). rewrite Hh. reflexivity. }
  destruct (header_of_text st k els Hr) as [defs E].
  assert (E' : h = header_prologue k +++ defs
                   +++ str_concat (map (fun e => content e +++ Py.nl +++ Py.nl)
                                       (sort_by_start (snd (header_of st k els))))
                   +++ closing_guard k)
    by (rewrite Hh in E; congruence).
  rewrite E'. clear E E' Hh.
  set (d := mkElement (name e) TDeclaration decl (start e) (start e + String.length decl) []).
  assert (Hp : In d (prototype_of e)).
  { unfold prototype_of. rewrite Ht, Hd, Hs. left. reflexivity. }
  assert (Hd' : In d (snd (header_of st k els))).
  { assert (H : In d (filter is_declaration (snd (header_of st k els)))).
    { pose proof (header_fold_prototypes k els) as _.
      unfold header_of.
      match goal with
      | |- context [fold_left (header_step k) els ?a] =>
          pose proof (header_fold_prototypes k els a) as H;
          destruct (fold_left (header_step k) els a) as [hh he]
      end.
      cbn [snd] in *. rewrite close_all_declarations, H. cbn [filter app].
      apply in_flat_map. exists e. split; assumption. }
    apply filter_In in H. exact (proj1 H). }
  apply contains_skip, contains_skip, contains_extend, contains_concat.
  apply in_map_iff. exists d. split; [reflexivity|].
  apply (Permutation_in _ (Permutation_sym (sort_by_start_perm _))). exact Hd'.
Qed.

(** *** The keys of the component lists are distinct *)

Lemma dict_append_keys k e o x :
  In x (map fst (dict_append k e o)) <-> x = k \/ In x (map fst o).
Proof.
  induction o as [|[k' l] o IH]; cbn [dict_append map fst In].
  - intuition.
  - destruct (String.eqb k' k) eqn:E; cbn [map fst In].
    + apply String.eqb_eq in E. subst k'. intuition.
    + rewrite IH. intuition.
Qed.

Lemma dict_append_nodup k e o :
  NoDup (map fst o) -> NoDup (map fst (dict_append k e o)).
Proof.
  induction o as [|[k' l] o IH]; intro H; cbn [dict_append map fst].
  - constructor; [intros []|constructor].
  - cbn [map fst] in H. inversion H as [|? ? Hk Ho]; subst.
    destruct (String.eqb k' k) eqn:E; cbn [map fst].
    + constructor; assumption.
    + constructor; [|apply IH, Ho].
      rewrite dict_append_keys. intros [->|Hin]; [|exact (Hk Hin)].
      rewrite String.eqb_refl in E. discriminate.
Qed.

Lemma map_elements_distinct choose l st :
  distinct_keys st -> distinct_keys (map_elements choose l st).
Proof.
  unfold map_elements. apply fold_left_inv. intros a x H. unfold distinct_keys in *. cbn.
  apply dict_append_nodup, H.
Qed.

Lemma map_groups_distinct gs :
  forall st, distinct_keys st -> distinct_keys (fold_left map_group gs st).
Proof.
  apply fold_left_inv. intros a g. unfold map_group.
  generalize (group_component (symbol_map a) g). intro k. revert a.
  induction g as [|x g IH]; intros a Ha; cbn [fold_left]; [exact Ha|].
  apply IH. unfold append_output, distinct_keys. cbn. apply dict_append_nodup, Ha.
Qed.

Lemma map_symbols_distinct st :
  distinct_keys st -> distinct_keys (map_symbols_to_components st).
Proof.
  intro H. unfold map_symbols_to_components, distinct_keys.
  cbn [output_files set_output_files]. rewrite map_map. cbn [fst].
  apply map_groups_distinct.
  unfold _map_macros, _map_globals, _map_typedefs, _map_enums, _map_structs,
    _map_functions. repeat apply map_elements_distinct. exact H.
Qed.

Lemma run_keys_distinct source :
  distinct_keys (map_symbols_to_components (extract_symbols source init_state)).
Proof.
  apply map_symbols_distinct. unfold distinct_keys.
  rewrite (proj1 (extract_symbols_fresh source)). constructor.
Qed.

(** *** The header of component [common] takes the place of the common header *)

Lemma extends_refl t : extends t t.
Proof. exists EmptyString. rewrite append_nil_r. reflexivity. Qed.

Lemma extends_append t x s : extends t x -> extends t (x +++ s).
Proof. intros [r ->]. exists (r +++ s). apply append_assoc. Qed.

Lemma extends_fold {B : Type} t (f : string -> B -> string) (l : list B) :
  (forall hc x, extends t hc -> extends t (f hc x)) ->
  forall a, extends t a -> extends t (fold_left f l a).
Proof. intro H. apply fold_left_inv. exact H. Qed.

Lemma common_header_text st fs :
  exists hc, dict_get (h_path "common") (_create_common_header st fs) = Some hc
             /\ extends common_header_opening hc.
Proof.
  unfold _create_common_header, write_file. eexists. split; [apply dict_get_set_same|].
  repeat match goal with
         | |- extends _ (String.append _ _) => apply extends_append
         | |- extends _ (fold_left _ _ _) =>
             apply extends_fold;
             [ intros hc x Hx;
               repeat match goal with
                      | |- context [match ?b with _ => _ end] => destruct b
                      end;
               repeat match goal with
                      | |- extends _ (String.append _ _) => apply extends_append
                      end;
               exact Hx | ]
         end.
  eexists. reflexivity.
Qed.

Lemma substring_append (n : nat) (a b : string) :
  n <= String.length a -> substring 0 n (a +++ b) = substring 0 n a.
Proof.
  revert a. induction n as [|n IH]; intros a H.
  - destruct a, b; reflexivity.
  - destruct a as [|c a]; cbn in H; [lia|]. cbn. rewrite IH by lia. reflexivity.
Qed.

Lemma component_header_is_not_common_header (m r : string) :
  header_prologue "common" +++ m <> common_header_opening +++ r.
Proof.
  intro E. apply (f_equal (substring 0 30)) in E.
  rewrite !substring_append in E by (vm_compute; lia).
  vm_compute in E. discriminate E.
Qed.

(** X14.  When a run maps something to the component common and synthesis completes, the file of the common header holds the component header, which differs from the text that [_create_common_header] wrote. *)
Theorem common_header_is_replaced_by_component_header :
  forall (source : string) (elements : list Element),
    let st := map_symbols_to_components (extract_symbols source init_state) in
    In ("common", elements) (output_files st) ->
    snd (create_output_files st []) = None ->
    exists h,
      fst (header_of st "common" elements) = PStr h
      /\ dict_get (h_path "common") (fst (create_output_files st [])) = Some h
      /\ dict_get (h_path "common") (_create_common_header st []) <> Some h.
Proof.
  intros source els st Hin Hok.
  assert (Hreb : existsb (fun kv => rebinds (snd kv)) (output_files st) = false).
  { unfold create_output_files in Hok. rewrite write_components_outcome in Hok.
    destruct (existsb (fun kv => rebinds (snd kv)) (output_files st));
      [discriminate|reflexivity]. }
  destruct (write_components_files st (output_files st) (_create_common_header st [])
              (run_keys_distinct source) Hreb) as [H _].
  destruct (H "common" els Hin) as [h [H1 [H2 _]]].
  exists h. split; [exact H1|]. split; [exact H2|].
  destruct (common_header_text st []) as [hc [E [r Er]]]. rewrite E.
  intro N. injection N as N. subst hc.
  assert (Hr : rebinds els = false).
  { rewrite <- header_of_is_list with (st := st) (k := "common"). rewrite H1. reflexivity. }
  destruct (header_of_text st "common" els Hr) as [defs Et].
  rewrite H1 in Et.
  assert (Eh : h = header_prologue "common"
                   +++ (defs +++ str_concat
                                   (map (fun e => content e +++ Py.nl +++ Py.nl)
                                        (sort_by_start (snd (header_of st "common" els))))
                        +++ closing_guard "common")) by congruence.
  rewrite Eh in N. symmetry in N. exact (component_header_is_not_common_header _ _ N).
Qed.


(** ** The matcher finds occurrences of its pattern *)

Lemma moved_refl cu : moved cu [] cu.
Proof. split; [reflexivity|]. cbn. lia. Qed.

Lemma moved_trans cu w1 cu1 w2 cu2 :
  moved cu w1 cu1 -> moved cu1 w2 cu2 -> moved cu (w1 ++ w2) cu2.
Proof.
  intros [H1 H2] [H3 H4]. split.
  - rewrite H1, H3, app_assoc. reflexivity.
  - rewrite H4, H2, length_app. lia.
Qed.

Lemma step_if_moved p cu cu' :
  step_if p cu = Some cu' ->
  exists x, p x = true /\ moved cu [x] cu'.
Proof.
  unfold step_if. destruct (c_rest cu) as [|x tl] eqn:E; [discriminate|].
  destruct (p x) eqn:P; [|discriminate]. intro H. injection H as <-.
  exists x. split; [exact P|]. split; cbn; [exact E|lia].
Qed.

Lemma or_else_some {A} (a b : option A) x :
  or_else a b = Some x -> a = Some x \/ b = Some x.
Proof. destruct a; cbn; intro H; [left|right]; exact H. Qed.

Lemma run_sound (r : regex) :
  forall (R : Type) (cu : cursor) (c : caps) (k : cursor -> caps -> option R) (x : R),
    run r cu c k = Some x ->
    exists w cu' c', sem r w c c' /\ moved cu w cu' /\ k cu' c' = Some x.
Proof.
  induction r as [|a|neg items| |r1 IH1 r2 IH2|r1 IH1 r2 IH2|g r1 IH1|n r1 IH1| | |r1 IH1|items];
    intros R cu c k x H.
  all: try match goal with
           | H : run (Star _ _) _ _ _ = _ |- _ => idtac
           | H : run _ _ _ _ = _ |- _ => cbn [run] in H
           end.
  - exists [], cu, c. repeat split; [constructor|apply moved_refl|exact H].
  - destruct (step_if (Ascii.eqb a) cu) as [cu'|] eqn:E; [|discriminate].
    destruct (step_if_moved _ _ _ E) as [y [Hy Hm]]. apply Ascii.eqb_eq in Hy. subst y.
    exists [a], cu', c. repeat split; [constructor|apply Hm|apply Hm|exact H].
  - destruct (step_if (class_has neg items) cu) as [cu'|] eqn:E; [|discriminate].
    destruct (step_if_moved _ _ _ E) as [y [Hy Hm]].
    exists [y], cu', c. repeat split; [constructor; exact Hy|apply Hm|apply Hm|exact H].
  - destruct (step_if (fun x => negb (Ascii.eqb x "010"%char)) cu) as [cu'|] eqn:E;
      [|discriminate].
    destruct (step_if_moved _ _ _ E) as [y [Hy Hm]]. apply negb_true_iff in Hy.
    exists [y], cu', c. repeat split; [constructor; exact Hy|apply Hm|apply Hm|exact H].
  - apply IH1 in H. destruct H as [w1 [cu1 [c1 [S1 [M1 H]]]]].
    apply IH2 in H. destruct H as [w2 [cu2 [c2 [S2 [M2 H]]]]].
    exists (w1 ++ w2), cu2, c2. split; [econstructor; eassumption|].
    split; [exact (moved_trans _ _ _ _ _ M1 M2)|exact H].
  - apply or_else_some in H. destruct H as [H|H].
    + apply IH1 in H. destruct H as [w [cu' [c' [S [M H]]]]].
      exists w, cu', c'. split; [apply sem_alt_l, S|]. split; assumption.
    + apply IH2 in H. destruct H as [w [cu' [c' [S [M H]]]]].
      exists w, cu', c'. split; [apply sem_alt_r, S|]. split; assumption.
  - assert (L : forall (fuel : nat) (cu : cursor) (c : caps) (y : R),
               (fix loop (fuel : nat) (cu0 : cursor) (c0 : caps) {struct fuel} : option R :=
                  match fuel with
                  | 0 => k cu0 c0
                  | S fuel' =>
                      let more :=
                        run r1 cu0 c0
                            (fun cu' c' =>
                               if (c_pos cu0 <? c_pos cu')%N
                               then loop fuel' cu' c' else None) in
                      if g then or_else more (k cu0 c0)
                      else or_else (k cu0 c0) more
                  end) fuel cu c = Some y ->
               exists w cu' c', sem (Star g r1) w c c' /\ moved cu w cu'
                                /\ k cu' c' = Some y).
    { clear H. induction fuel as [|fuel IHf]; intros cu0 c0 y H.
      - exists [], cu0, c0. repeat split; [constructor|apply moved_refl|exact H].
      - cbn zeta in H.
        assert (Hnil : k cu0 c0 = Some y ->
                       exists w cu' c', sem (Star g r1) w c0 c' /\ moved cu0 w cu'
                                        /\ k cu' c' = Some y).
        { intros Hy. exists [], cu0, c0.
          repeat split; [constructor|apply moved_refl|exact Hy]. }
        destruct g; apply or_else_some in H; destruct H as [H|H];
          try exact (Hnil H);
          apply IH1 in H; destruct H as [w1 [cu1 [c1 [S1 [M1 Hy]]]]];
          (destruct (c_pos cu0 <? c_pos cu1)%N; [|discriminate]);
          apply IHf in Hy; destruct Hy as [w2 [cu2 [c2 [S2 [M2 Hy]]]]];
          exists (w1 ++ w2), cu2, c2; (split; [econstructor; eassumption|]);
          (split; [exact (moved_trans _ _ _ _ _ M1 M2)|exact Hy]). }
    exact (L (S (length (c_rest cu))) cu c x H).
  - apply IH1 in H. destruct H as [w [cu' [c' [S [M H]]]]].
    exists w, cu', (set_cap n (text_between cu cu') c').
    assert (E : text_between cu cu' = string_of_list_ascii w).
    { unfold text_between. destruct M as [M1 M2]. rewrite M2, M1.
      replace (N.to_nat (c_pos cu + N.of_nat (length w) - c_pos cu)) with (length w) by lia.
      rewrite firstn_app, Nat.sub_diag, firstn_all. cbn. rewrite app_nil_r. reflexivity. }
    split; [rewrite E; constructor; exact S|]. split; [exact M|exact H].
  - destruct (at_word_boundary cu); [|discriminate].
    exists [], cu, c. repeat split; [constructor|apply moved_refl|exact H].
  - destruct (c_pos cu =? 0)%N; [|discriminate].
    exists [], cu, c. repeat split; [constructor|apply moved_refl|exact H].
  - destruct (run r1 cu c (fun _ _ => Some tt)); [discriminate|].
    exists [], cu, c. repeat split; [constructor|apply moved_refl|exact H].
  - exists [], cu, c. repeat split; [constructor|apply moved_refl|].
    destruct (c_prev cu) as [y|]; [|exact H].
    destruct (class_has false items y); [discriminate|exact H].
Qed.

Lemma match_at_sound r cu ma m :
  match_at r cu ma = Some m ->
  exists w, sem r w [] (m_caps m)
            /\ moved cu w (m_after m)
            /\ m_start m = c_pos cu
            /\ m_end m = c_pos (m_after m)
            /\ m_text m = string_of_list_ascii w.
Proof.
  unfold match_at. intro H. apply run_sound in H.
  destruct H as [w [cu' [c' [S [M H]]]]].
  destruct (ma && (c_pos cu' =? c_pos cu)%N); [discriminate|].
  injection H as <-. cbn [m_caps m_after m_start m_end m_text].
  exists w. repeat split; try assumption; try apply M.
  unfold text_between. destruct M as [M1 M2]. rewrite M2, M1.
  replace (N.to_nat (c_pos cu + N.of_nat (length w) - c_pos cu)) with (length w) by lia.
  rewrite firstn_app, Nat.sub_diag, firstn_all. cbn. rewrite app_nil_r. reflexivity.
Qed.

Lemma search_from_sound r rest :
  forall pos prev ma m,
    search_from r pos prev rest ma = Some m -> found_from r pos rest m.
Proof.
  induction rest as [|x tl IH]; intros pos prev ma m H; cbn [search_from] in H.
  - destruct (match_at r (mkCursor pos prev []) ma) as [m0|] eqn:E; [|discriminate].
    injection H as <-. apply match_at_sound in E.
    destruct E as [w [S [[M1 M2] [E1 [E2 E3]]]]]. cbn [c_rest c_pos] in *.
    exists [], w. cbn [app length]. repeat split; try assumption; lia.
  - destruct (match_at r (mkCursor pos prev (x :: tl)) ma) as [m0|] eqn:E.
    + injection H as <-. apply match_at_sound in E.
      destruct E as [w [S [[M1 M2] [E1 [E2 E3]]]]]. cbn [c_rest c_pos] in *.
      exists [], w. cbn [app length]. repeat split; try assumption; lia.
    + apply IH in H. destruct H as [sk [w [H1 [H2 [H3 [H4 [H5 H6]]]]]]].
      exists (x :: sk), w. cbn [app length]. repeat split; try assumption.
      * rewrite H1. reflexivity.
      * rewrite H2. lia.
Qed.

Lemma finditer_go_sound r (all : list ascii) :
  forall fuel cu ma done,
    all = done ++ c_rest cu -> c_pos cu = N.of_nat (length done) ->
    forall m, In m (finditer_go fuel r cu ma) ->
      exists pre w post,
        all = pre ++ w ++ post
        /\ m_start m = N.of_nat (length pre)
        /\ m_end m = N.of_nat (length pre + length w)
        /\ m_text m = string_of_list_ascii w
        /\ sem r w [] (m_caps m).
Proof.
  induction fuel as [|fuel IH]; intros cu ma done Hall Hpos m Hin; cbn [finditer_go] in Hin;
    [destruct Hin|].
  destruct (search_from r (c_pos cu) (c_prev cu) (c_rest cu) ma) as [m0|] eqn:E;
    [|destruct Hin].
  apply search_from_sound in E.
  destruct E as [sk [w [H1 [H2 [H3 [H4 [H5 H6]]]]]]].
  destruct Hin as [<-|Hin].
  - exists (done ++ sk), w, (c_rest (m_after m0)).
    rewrite length_app. repeat split; try assumption.
    + rewrite Hall, H1, <- app_assoc. reflexivity.
    + rewrite H2, Hpos. lia.
    + rewrite H3, H2, Hpos. lia.
  - apply (IH (m_after m0) (m_end m0 =? m_start m0)%N (done ++ sk ++ w)); [| |exact Hin].
    + rewrite Hall, H1, <- !app_assoc. reflexivity.
    + rewrite H4, H3, H2, Hpos, !length_app. lia.
Qed.

Lemma finditer_occurs r s m : In m (finditer r s) -> occurs r s m.
Proof.
  unfold finditer, occurs. intro H.
  apply (finditer_go_sound r (list_ascii_of_string s) _ (start_cursor s) false [] eq_refl
           eq_refl m H).
Qed.

Lemma search_occurs r s m : search r s = Some m -> occurs r s m.
Proof.
  unfold search, occurs. intro H. apply search_from_sound in H.
  destruct H as [sk [w [H1 [H2 [H3 [H4 [H5 H6]]]]]]].
  exists sk, w, (c_rest (m_after m)). repeat split; try assumption; lia.
Qed.

(** *** Offsets and slices *)

Lemma string_list_id (l : list ascii) :
  list_ascii_of_string (string_of_list_ascii l) = l.
Proof. apply list_ascii_of_string_of_list_ascii. Qed.

Lemma list_string_id (s : string) :
  string_of_list_ascii (list_ascii_of_string s) = s.
Proof. apply string_of_list_ascii_of_string. Qed.

Lemma string_of_app (a b : list ascii) :
  string_of_list_ascii (a ++ b) = string_of_list_ascii a +++ string_of_list_ascii b.
Proof. induction a as [|x a IH]; cbn; [reflexivity|]. rewrite IH. reflexivity. Qed.

Lemma length_string_of (l : list ascii) :
  String.length (string_of_list_ascii l) = length l.
Proof. induction l as [|x l IH]; cbn; [reflexivity|]. rewrite IH. reflexivity. Qed.

Lemma drop_append (a b : string) : Py.drop (String.length a) (a +++ b) = b.
Proof. induction a as [|c a IH]; cbn; [destruct b; reflexivity|exact IH]. Qed.

Lemma take_append (a b : string) : Py.take (String.length a) (a +++ b) = a.
Proof.
  unfold Py.take. induction a as [|c a IH]; cbn; [destruct b; reflexivity|].
  rewrite IH. reflexivity.
Qed.

Lemma slice_middle (a w b : string) :
  Py.slice (String.length a) (String.length a + String.length w) (a +++ w +++ b) = w.
Proof.
  unfold Py.slice. rewrite drop_append.
  replace (String.length a + String.length w - String.length a) with (String.length w) by lia.
  apply take_append.
Qed.

Lemma occurs_split r s m :
  occurs r s m ->
  exists a w b,
    s = a +++ w +++ b
    /\ N.to_nat (m_start m) = String.length a
    /\ N.to_nat (m_end m) = String.length a + String.length w
    /\ m_text m = w
    /\ sem r (list_ascii_of_string w) [] (m_caps m).
Proof.
  intros [pre [w [post [H1 [H2 [H3 [H4 H5]]]]]]].
  exists (string_of_list_ascii pre), (string_of_list_ascii w), (string_of_list_ascii post).
  rewrite !length_string_of, string_list_id. repeat split; try assumption; try lia.
  rewrite <- !string_of_app, <- H1, list_string_id. reflexivity.
Qed.

Lemma occurs_slice r s m :
  occurs r s m ->
  Py.slice (N.to_nat (m_start m)) (N.to_nat (m_end m)) s = m_text m
  /\ N.to_nat (m_start m) <= N.to_nat (m_end m) <= String.length s.
Proof.
  intro H. destruct (occurs_split r s m H) as [a [w [b [H1 [H2 [H3 [H4 _]]]]]]].
  rewrite H2, H3, H4, H1. split; [apply slice_middle|].
  rewrite !length_append. lia.
Qed.

(** *** Reading a match off its pattern *)

Lemma sem_lit (p : string) :
  forall w c c', sem (lit p) w c c' -> w = list_ascii_of_string p /\ c' = c.
Proof.
  induction p as [|a p IH]; intros w c c' H; cbn [lit] in H.
  - inversion H; subst. split; reflexivity.
  - destruct p as [|b p'].
    + inversion H; subst. split; reflexivity.
    + inversion H as [| | | |? ? w1 w2 ? c1 ? H1 H2| | | | | | | | |]; subst.
      inversion H1; subst. apply IH in H2. destruct H2 as [-> ->].
      split; reflexivity.
Qed.

Lemma sem_star_cls g neg items :
  forall w c c',
    sem (Star g (Cls neg items)) w c c' ->
    Forall (fun x => class_has neg items x = true) w /\ c' = c.
Proof.
  intros w c c' H. remember (Star g (Cls neg items)) as r eqn:E.
  induction H; try discriminate E.
  - split; [constructor|reflexivity].
  - injection E as -> ->. specialize (IHsem2 eq_refl). destruct IHsem2 as [F ->].
    inversion H; subst. split; [constructor; assumption|reflexivity].
Qed.

Lemma sem_cls neg items w c c' :
  sem (Cls neg items) w c c' ->
  exists x, w = [x] /\ class_has neg items x = true /\ c' = c.
Proof. intro H. inversion H; subst. eexists. repeat split. assumption. Qed.

Lemma sem_seq_inv r1 r2 w c c' :
  sem (Seq r1 r2) w c c' ->
  exists w1 w2 c1, w = w1 ++ w2 /\ sem r1 w1 c c1 /\ sem r2 w2 c1 c'.
Proof. intro H. inversion H; subst. eexists _, _, _. repeat split; eassumption. Qed.

Lemma sem_grp_inv n r w c c' :
  sem (Grp n r) w c c' ->
  exists c1, sem r w c c1 /\ c' = set_cap n (string_of_list_ascii w) c1.
Proof. intro H. inversion H; subst. eexists. split; [eassumption|reflexivity]. Qed.

Lemma sem_empty_inv r w c c' :
  r = WordB \/ r = Bos \/ (exists r1, r = NotAhead r1) \/ (exists i, r = NotBehind i)
  \/ r = Eps ->
  sem r w c c' -> w = [] /\ c' = c.
Proof.
  intros [->|[->|[[r1 ->]|[[i ->]| ->]]]] H; inversion H; subst; split; reflexivity.
Qed.

Lemma sem_ident w c c' :
  sem ident w c c' -> is_identifier (string_of_list_ascii w) = true /\ c' = c.
Proof.
  unfold ident, star. intro H.
  apply sem_seq_inv in H. destruct H as [w1 [w2 [c1 [-> [H1 H2]]]]].
  apply sem_cls in H1. destruct H1 as [x [-> [Hx ->]]].
  apply sem_star_cls in H2. destruct H2 as [F ->].
  split; [|reflexivity]. cbn [app string_of_list_ascii is_identifier].
  rewrite Hx, string_list_id. cbn [andb]. apply forallb_forall.
  rewrite Forall_forall in F. exact F.
Qed.

Lemma get_set_cap n v c : get_cap n (set_cap n v c) = Some v.
Proof.
  induction c as [|[i x] c IH]; cbn.
  - rewrite Nat.eqb_refl. reflexivity.
  - destruct (Nat.eqb i n) eqn:E; cbn; rewrite E; [reflexivity|exact IH].
Qed.

(** ** Dependencies *)

Lemma set_add_in x y s : In y (set_add x s) <-> y = x \/ In y s.
Proof.
  unfold set_add. destruct (Py.mem x s) eqn:E.
  - split; [intro H; right; exact H|]. intros [->|H]; [apply mem_In, E|exact H].
  - rewrite in_app_iff. cbn. intuition.
Qed.

Lemma set_add_nodup x s : NoDup s -> NoDup (set_add x s).
Proof.
  intro H. unfold set_add. destruct (Py.mem x s) eqn:E; [exact H|].
  apply NoDup_app; [exact H|constructor; [intros []|constructor]|].
  intros a Ha [<-|[]]. apply In_mem in Ha. congruence.
Qed.

Lemma contains_middle (a w b : string) : Py.contains (a +++ w +++ b) w = true.
Proof. apply contains_skip, contains_here. Qed.

Lemma word_occurrence body m :
  In m (finditer (seqs [WordB; Grp 1 ident; WordB]) body) ->
  is_identifier (group_str m 1) = true /\ Py.contains body (group_str m 1) = true.
Proof.
  intro H. apply finditer_occurs, occurs_split in H.
  destruct H as [a [w [b [H1 [_ [_ [_ S]]]]]]]. cbn [seqs] in S.
  apply sem_seq_inv in S. destruct S as [w1 [w2 [c1 [E [S1 S2]]]]].
  apply sem_empty_inv in S1; [|left; reflexivity]. destruct S1 as [-> ->].
  apply sem_seq_inv in S2. destruct S2 as [w3 [w4 [c2 [-> [S2 S3]]]]].
  apply sem_empty_inv in S3; [|left; reflexivity]. destruct S3 as [-> E3].
  apply sem_grp_inv in S2. destruct S2 as [c3 [S2 ->]].
  apply sem_ident in S2. destruct S2 as [Hid ->].
  cbn [app] in E. rewrite app_nil_r in E.
  unfold group_str, group. rewrite E3, get_set_cap.
  split; [exact Hid|]. rewrite <- E, list_string_id, H1. apply contains_middle.
Qed.

(** X15.  [_extract_dependencies] lists no word twice; each word is an identifier that occurs in the text and is not one of the excluded keywords. *)
Theorem dependencies_are_identifiers_of_the_content :
  forall (body : string),
    NoDup (_extract_dependencies body)
    /\ forall word : string,
         In word (_extract_dependencies body) ->
         is_identifier word = true
         /\ Py.mem word keywords = false
         /\ Py.contains body word = true.
Proof.
  intro body. unfold _extract_dependencies.
  set (ms := finditer (seqs [WordB; Grp 1 ident; WordB]) body).
  assert (Hms : forall m, In m ms ->
                          is_identifier (group_str m 1) = true
                          /\ Py.contains body (group_str m 1) = true)
    by (intros m Hm; apply word_occurrence, Hm).
  clearbody ms.
  assert (G : forall words deps,
             (forall w, In w words -> is_identifier w = true /\ Py.contains body w = true) ->
             NoDup deps ->
             (forall w, In w deps -> is_identifier w = true /\ Py.mem w keywords = false
                                     /\ Py.contains body w = true) ->
             let r := fold_left (fun deps word =>
                                   if Py.mem word keywords then deps else set_add word deps)
                                words deps in
             NoDup r
             /\ forall w, In w r -> is_identifier w = true /\ Py.mem w keywords = false
                                    /\ Py.contains body w = true).
  { induction words as [|x words IH]; intros deps Hw Hnd Hd; cbn [fold_left].
    - split; assumption.
    - apply IH.
      + intros w Hin. apply Hw. right. exact Hin.
      + destruct (Py.mem x keywords); [exact Hnd|apply set_add_nodup, Hnd].
      + intros w Hin. destruct (Py.mem x keywords) eqn:E; [apply Hd, Hin|].
        apply set_add_in in Hin. destruct Hin as [->|Hin]; [|apply Hd, Hin].
        destruct (Hw x (or_introl eq_refl)) as [H1 H2]. repeat split; assumption. }
  apply G.
  - intros w Hin. apply in_map_iff in Hin. destruct Hin as [m [<- Hm]]. apply Hms, Hm.
  - constructor.
  - intros w [].
Qed.

(** ** Includes and comments *)

Lemma fold_left_inv_in {A B : Type} (P : A -> Prop) (f : A -> B -> A) (l : list B) :
  (forall a x, In x l -> P a -> P (f a x)) -> forall a, P a -> P (fold_left f l a).
Proof.
  induction l as [|x l IH]; intros H a Ha; cbn; [exact Ha|].
  apply IH; [intros b y Hy; apply H; right; exact Hy|].
  apply H; [left; reflexivity|exact Ha].
Qed.

Lemma sem_plus_cls neg items w c c' :
  sem (plus (Cls neg items)) w c c' ->
  w <> [] /\ Forall (fun x => class_has neg items x = true) w /\ c' = c.
Proof.
  unfold plus. intro H. apply sem_seq_inv in H.
  destruct H as [w1 [w2 [c1 [-> [H1 H2]]]]].
  apply sem_cls in H1. destruct H1 as [x [-> [Hx ->]]].
  apply sem_star_cls in H2. destruct H2 as [F ->].
  split; [discriminate|]. split; [constructor; assumption|reflexivity].
Qed.

Lemma one_of_two a b x :
  class_has false [COne a; COne b] x = true -> x = a \/ x = b.
Proof.
  unfold class_has. cbn. rewrite orb_false_r. intro H. apply orb_prop in H.
  destruct H as [H|H]; apply Ascii.eqb_eq in H; [left|right]; symmetry; exact H.
Qed.

Lemma none_of_two a b x :
  class_has true [COne a; COne b] x = true ->
  negb (Ascii.eqb x a) && negb (Ascii.eqb x b) = true.
Proof.
  unfold class_has. cbn. rewrite orb_false_r.
  rewrite (Ascii.eqb_sym a x), (Ascii.eqb_sym b x).
  destruct (Ascii.eqb x a), (Ascii.eqb x b); cbn; intro H; congruence.
Qed.

Lemma include_occurrence source m :
  In m (finditer include_regex source) ->
  include_form (m_text m) (group_str m 1)
  /\ Py.slice (N.to_nat (m_start m)) (N.to_nat (m_end m)) source = m_text m
  /\ N.to_nat (m_start m) < N.to_nat (m_end m) <= String.length source.
Proof.
  intro H. apply finditer_occurs in H.
  pose proof (occurs_slice _ _ _ H) as [Hs Hb].
  destruct (occurs_split _ _ _ H) as [a [w [b [H1 [H2 [H3 [H4 S]]]]]]].
  unfold include_regex in S. cbn [seqs] in S.
  apply sem_seq_inv in S. destruct S as [w1 [r1 [c1 [E1 [S1 S]]]]].
  apply sem_lit in S1. destruct S1 as [-> ->].
  apply sem_seq_inv in S. destruct S as [w2 [r2 [c2 [-> [S2 S]]]]].
  unfold ws in S2. apply sem_plus_cls in S2. destruct S2 as [N2 [F2 ->]].
  apply sem_seq_inv in S. destruct S as [w3 [r3 [c3 [-> [S3 S]]]]].
  apply sem_cls in S3. destruct S3 as [q1 [-> [Hq1 ->]]].
  apply sem_seq_inv in S. destruct S as [w4 [r4 [c4 [-> [S4 S]]]]].
  apply sem_grp_inv in S4. destruct S4 as [c5 [S4 ->]].
  apply sem_plus_cls in S4. destruct S4 as [N4 [F4 ->]].
  apply sem_cls in S. destruct S as [q2 [-> [Hq2 E5]]].
  assert (Eg : group_str m 1 = string_of_list_ascii w4).
  { unfold group_str, group. rewrite E5, get_set_cap. reflexivity. }
  assert (Ew : w = "#include" +++ string_of_list_ascii w2
                   +++ String q1 (string_of_list_ascii w4 +++ String q2 EmptyString)).
  { rewrite <- (list_string_id w), E1, !string_of_app. reflexivity. }
  split; [|split; [exact Hs|]].
  - rewrite H4, Eg. exists (string_of_list_ascii w2), q1, q2.
    split; [exact Ew|].
    split; [destruct w2; [congruence|discriminate]|].
    split.
    { rewrite string_list_id. apply forallb_forall. rewrite Forall_forall in F2.
      intros x Hx. specialize (F2 x Hx). unfold class_has in F2. cbn in F2.
      rewrite orb_false_r in F2. exact F2. }
    split; [apply one_of_two in Hq1; destruct Hq1; [left|right]; assumption|].
    split; [apply one_of_two in Hq2; destruct Hq2; [right|left]; assumption|].
    split; [destruct w4; [congruence|discriminate]|].
    rewrite string_list_id. apply forallb_forall. rewrite Forall_forall in F4.
    intros x Hx. apply none_of_two. apply F4, Hx.
  - split; [|apply Hb]. rewrite H2, H3, Ew. cbn [String.length String.append]. lia.
Qed.

(** X16.  Every element of [extract_includes] has the type include, its content is the directive with the file name between brackets or quotes, the name is that file name, and the offsets delimit the content in the source. *)
Theorem includes_have_the_directive_form :
  forall (source : string) (e : Element),
    In e (extract_includes source []) ->
    type e = TInclude
    /\ include_form (content e) (name e)
    /\ Py.slice (start e) (end_ e) source = content e
    /\ start e < end_ e <= String.length source.
Proof.
  intros source e. unfold extract_includes.
  assert (G : forall ms acc,
             (forall m, In m ms -> In m (finditer include_regex source)) ->
             In e (fold_left
                     (fun includes m =>
                        includes ++ [mkElement (group_str m 1) TInclude (m_text m)
                                               (N.to_nat (m_start m)) (N.to_nat (m_end m)) []])
                     ms acc) ->
             In e acc
             \/ exists m, In m (finditer include_regex source)
                          /\ e = mkElement (group_str m 1) TInclude (m_text m)
                                           (N.to_nat (m_start m)) (N.to_nat (m_end m)) []).
  { induction ms as [|m ms IH]; intros acc Hms Hin; cbn [fold_left] in Hin;
      [left; exact Hin|].
    apply IH in Hin; [|intros x Hx; apply Hms; right; exact Hx].
    destruct Hin as [Hin|Hin]; [|right; exact Hin].
    apply in_app_or in Hin. destruct Hin as [Hin|[<-|[]]]; [left; exact Hin|].
    right. exists m. split; [apply Hms; left; reflexivity|reflexivity]. }
  intro Hin. apply G in Hin; [|intros m Hm; exact Hm].
  destruct Hin as [[]|[m [Hm ->]]]. cbn [type content name start end_].
  destruct (include_occurrence source m Hm) as [H1 [H2 H3]].
  repeat split; try assumption; apply H3.
Qed.

Lemma sem_alt_inv r1 r2 w c c' :
  sem (Alt r1 r2) w c c' -> sem r1 w c c' \/ sem r2 w c c'.
Proof. intro H. inversion H; subst; [left|right]; assumption. Qed.

Lemma comment_occurrence source m :
  In m (finditer comment_regex source) ->
  comment_form (m_text m)
  /\ Py.slice (N.to_nat (m_start m)) (N.to_nat (m_end m)) source = m_text m
  /\ N.to_nat (m_start m) < N.to_nat (m_end m) <= String.length source.
Proof.
  intro H. apply finditer_occurs in H.
  pose proof (occurs_slice _ _ _ H) as [Hs Hb].
  destruct (occurs_split _ _ _ H) as [a [w [b [H1 [H2 [H3 [H4 S]]]]]]].
  unfold comment_regex in S. cbn [seqs] in S.
  assert (Hw : comment_form w).
  { rewrite <- (list_string_id w).
    apply sem_alt_inv in S. destruct S as [S'|S'].
    - apply sem_seq_inv in S'. destruct S' as [w1 [r1 [c1 [E1 [S1 S']]]]].
      apply sem_lit in S1. destruct S1 as [-> ->].
      apply sem_seq_inv in S'. destruct S' as [w2 [r2 [c2 [-> [S2 S']]]]].
      apply sem_lit in S'. destruct S' as [-> _].
      left. exists (string_of_list_ascii w2). rewrite E1, !string_of_app. reflexivity.
    - apply sem_seq_inv in S'. destruct S' as [w1 [r1 [c1 [E1 [S1 S']]]]].
      apply sem_lit in S1. destruct S1 as [-> ->].
      right. exists (string_of_list_ascii r1). rewrite E1, !string_of_app. reflexivity. }
  split; [rewrite H4; exact Hw|]. split; [exact Hs|].
  split; [|apply Hb]. rewrite H2, H3.
  destruct Hw as [[mid ->]|[rest ->]]; rewrite !length_append; cbn [String.length]; lia.
Qed.

(** X17.  Every element of [extract_comments] has the type and name comment, its content starts with the opening and ends with the closing mark of a block comment or starts with the two slashes of a line comment, and the offsets delimit a non-empty content in the source. *)
Theorem comments_have_the_comment_form :
  forall (source : string) (e : Element),
    In e (extract_comments source []) ->
    type e = TComment
    /\ name e = "comment"
    /\ comment_form (content e)
    /\ Py.slice (start e) (end_ e) source = content e
    /\ start e < end_ e <= String.length source.
Proof.
  intros source e. unfold extract_comments.
  assert (G : forall ms acc,
             (forall m, In m ms -> In m (finditer comment_regex source)) ->
             In e (fold_left
                     (fun comments m =>
                        comments ++ [mkElement "comment" TComment (m_text m)
                                               (N.to_nat (m_start m)) (N.to_nat (m_end m)) []])
                     ms acc) ->
             In e acc
             \/ exists m, In m (finditer comment_regex source)
                          /\ e = mkElement "comment" TComment (m_text m)
                                           (N.to_nat (m_start m)) (N.to_nat (m_end m)) []).
  { induction ms as [|m ms IH]; intros acc Hms Hin; cbn [fold_left] in Hin;
      [left; exact Hin|].
    apply IH in Hin; [|intros x Hx; apply Hms; right; exact Hx].
    destruct Hin as [Hin|Hin]; [|right; exact Hin].
    apply in_app_or in Hin. destruct Hin as [Hin|[<-|[]]]; [left; exact Hin|].
    right. exists m. split; [apply Hms; left; reflexivity|reflexivity]. }
  intro Hin. apply G in Hin; [|intros m Hm; exact Hm].
  destruct Hin as [[]|[m [Hm ->]]]. cbn [type content name start end_].
  destruct (comment_occurrence source m Hm) as [H1 [H2 H3]].
  repeat split; try assumption; apply H3.
Qed.

(** ** Dependencies of a macro *)

Lemma sem_chr_inv a w c c' : sem (Chr a) w c c' -> w = [a] /\ c' = c.
Proof. intro H. inversion H; subst. split; reflexivity. Qed.

Lemma macro_ref_occurrence body m :
  In m (finditer (seqs [ NotBehind az09_; Grp 1 ident;
                         NotAhead (alts [ Seq (star ws) (Chr "(");
                                          Seq (star ws) (Chr "=");
                                          Seq (star ws) (Chr "{") ]) ]) body) ->
  is_identifier (group_str m 1) = true /\ Py.contains body (group_str m 1) = true.
Proof.
  intro H. apply finditer_occurs, occurs_split in H.
  destruct H as [a [w [b [H1 [_ [_ [_ S]]]]]]]. cbn [seqs] in S.
  apply sem_seq_inv in S. destruct S as [w1 [w2 [c1 [E [S1 S2]]]]].
  apply sem_empty_inv in S1; [|right; right; right; left; eexists; reflexivity].
  destruct S1 as [-> ->].
  apply sem_seq_inv in S2. destruct S2 as [w3 [w4 [c2 [-> [S2 S3]]]]].
  apply sem_empty_inv in S3; [|right; right; left; eexists; reflexivity].
  destruct S3 as [-> E3].
  apply sem_grp_inv in S2. destruct S2 as [c3 [S2 ->]].
  apply sem_ident in S2. destruct S2 as [Hid ->].
  cbn [app] in E. rewrite app_nil_r in E.
  unfold group_str, group. rewrite E3, get_set_cap.
  split; [exact Hid|]. rewrite <- E, list_string_id, H1. apply contains_middle.
Qed.

Lemma macro_call_occurrence body m :
  In m (finditer (seqs [Grp 1 ident; star ws; Chr "("]) body) ->
  is_identifier (group_str m 1) = true /\ Py.contains body (group_str m 1) = true.
Proof.
  intro H. apply finditer_occurs, occurs_split in H.
  destruct H as [a [w [b [H1 [_ [_ [_ S]]]]]]]. cbn [seqs] in S.
  apply sem_seq_inv in S. destruct S as [w1 [w2 [c1 [E [S1 S2]]]]].
  apply sem_grp_inv in S1. destruct S1 as [c3 [S1 ->]].
  apply sem_ident in S1. destruct S1 as [Hid ->].
  apply sem_seq_inv in S2. destruct S2 as [w3 [w4 [c2 [-> [S2 S3]]]]].
  unfold star, ws in S2. apply sem_star_cls in S2. destruct S2 as [_ ->].
  apply sem_chr_inv in S3. destruct S3 as [-> E3].
  unfold group_str, group. rewrite E3, get_set_cap.
  split; [exact Hid|].
  rewrite H1, <- (list_string_id w), E, string_of_app.
  apply contains_skip. rewrite append_assoc. apply contains_here.
Qed.

(** X18.  [_extract_macro_dependencies] lists no name twice; each name is an identifier that occurs in the macro text, and the word define is never one of them. *)
Theorem macro_dependencies_are_identifiers_of_the_content :
  forall (body : string) (is_function_like : bool) (params : option string),
    let deps := _extract_macro_dependencies body is_function_like params in
    NoDup deps
    /\ forall d : string,
         In d deps ->
         d <> "define" /\ is_identifier d = true /\ Py.contains body d = true.
Proof.
  intros body is_fl params. unfold _extract_macro_dependencies.
  set (pn := match params with
             | Some p => if is_fl && negb (String.eqb p EmptyString)
                         then filter (fun x => negb (String.eqb x EmptyString))
                                     (map Py.strip (Py.split "," p))
                         else []
             | None => []
             end).
  clearbody pn.
  set (Q := fun d : string =>
              d <> "define" /\ is_identifier d = true /\ Py.contains body d = true).
  set (refs := map (fun m => group_str m 1)
                  (finditer (seqs [NotBehind az09_; Grp 1 ident; NotAhead _]) body)).
  assert (Hrefs : forall w, In w refs ->
                            is_identifier w = true /\ Py.contains body w = true).
  { intros w Hin. apply in_map_iff in Hin. destruct Hin as [m [<- Hm]].
    apply macro_ref_occurrence, Hm. }
  clearbody refs.
  set (calls := map (fun m => group_str m 1) (finditer (seqs [Grp 1 ident; star ws; Chr "("]) body)).
  assert (Hcalls : forall w, In w calls ->
                             is_identifier w = true /\ Py.contains body w = true).
  { intros w Hin. apply in_map_iff in Hin. destruct Hin as [m [<- Hm]].
    apply macro_call_occurrence, Hm. }
  clearbody calls. cbn zeta.
  assert (G1 : forall refs deps,
             (forall w, In w refs -> is_identifier w = true /\ Py.contains body w = true) ->
             NoDup deps -> (forall d, In d deps -> Q d) ->
             let r := fold_left (fun deps ref =>
                                   if Py.mem ref pn then deps
                                   else if Py.mem ref (keywords ++ ["define"]) then deps
                                        else set_add ref deps) refs deps in
             NoDup r /\ forall d, In d r -> Q d).
  { clear. induction refs as [|x refs IH]; intros deps Hw Hnd Hd; cbn [fold_left].
    - split; assumption.
    - apply IH.
      + intros w Hin. apply Hw. right. exact Hin.
      + destruct (Py.mem x pn); [exact Hnd|].
        destruct (Py.mem x (keywords ++ ["define"])); [exact Hnd|apply set_add_nodup, Hnd].
      + intros w Hin. destruct (Py.mem x pn); [apply Hd, Hin|].
        destruct (Py.mem x (keywords ++ ["define"])) eqn:E; [apply Hd, Hin|].
        apply set_add_in in Hin. destruct Hin as [->|Hin]; [|apply Hd, Hin].
        destruct (Hw x (or_introl eq_refl)) as [H1 H2]. repeat split; try assumption.
        intros ->. vm_compute in E. discriminate E. }
  assert (G2 : forall calls deps,
             (forall w, In w calls -> is_identifier w = true /\ Py.contains body w = true) ->
             NoDup deps -> (forall d, In d deps -> Q d) ->
             let r := fold_left (fun deps call =>
                                   if String.eqb call "define" then deps
                                   else set_add call deps) calls deps in
             NoDup r /\ forall d, In d r -> Q d).
  { clear. induction calls as [|x calls IH]; intros deps Hw Hnd Hd; cbn [fold_left].
    - split; assumption.
    - apply IH.
      + intros w Hin. apply Hw. right. exact Hin.
      + destruct (String.eqb x "define"); [exact Hnd|apply set_add_nodup, Hnd].
      + intros w Hin. destruct (String.eqb x "define") eqn:E; [apply Hd, Hin|].
        apply set_add_in in Hin. destruct Hin as [->|Hin]; [|apply Hd, Hin].
        destruct (Hw x (or_introl eq_refl)) as [H1 H2]. repeat split; try assumption.
        apply String.eqb_neq. exact E. }
  destruct (G1 refs [] Hrefs (NoDup_nil _) (fun d (H : In d []) => match H with end))
    as [N1 D1].
  exact (G2 calls _ Hcalls N1 D1).
Qed.


(** ** Offsets of the extracted elements *)

Lemma scan_braces_bound (s : string) :
  forall ob cc max, cc <= max -> snd (scan_braces s ob cc max) <= max.
Proof.
  induction s as [|c s IH]; intros ob cc max H; cbn [scan_braces]; [exact H|].
  destruct ((0 <? ob) && (cc <? max)) eqn:E; [|exact H].
  apply andb_prop in E. destruct E as [_ E]. apply Nat.ltb_lt in E.
  apply IH. lia.
Qed.

Lemma find_char_bound c (s : string) :
  forall i, Py.find_char c s = Some i -> i < String.length s.
Proof.
  induction s as [|x s IH]; intros i H; cbn [Py.find_char] in H; [discriminate|].
  destruct (Ascii.eqb x c).
  - injection H as <-. cbn. lia.
  - destruct (Py.find_char c s) as [j|]; [|discriminate]. injection H as <-.
    specialize (IH j eq_refl). cbn. lia.
Qed.

Lemma length_drop (n : nat) :
  forall s, String.length (Py.drop n s) = String.length s - n.
Proof.
  induction n as [|n IH]; intro s; cbn [Py.drop]; [lia|].
  destruct s as [|c s]; [reflexivity|]. rewrite IH. reflexivity.
Qed.

Lemma length_rev_onto (s : string) :
  forall acc, String.length (Py.rev_onto s acc) = String.length s + String.length acc.
Proof.
  induction s as [|c s IH]; intro acc; cbn [Py.rev_onto]; [reflexivity|].
  rewrite IH. cbn. lia.
Qed.

Lemma length_rev_str (s : string) : String.length (Py.rev_str s) = String.length s.
Proof. unfold Py.rev_str. rewrite length_rev_onto. cbn. lia. Qed.

Lemma split_go_length c (s : string) :
  forall cur, pieces_length (Py.split_go c s cur) = String.length s + String.length cur + 1.
Proof.
  induction s as [|x s IH]; intro cur; cbn [Py.split_go].
  - cbn. rewrite length_rev_str. lia.
  - destruct (Ascii.eqb x c); cbn [pieces_length fold_right].
    + fold (pieces_length (Py.split_go c s EmptyString)). rewrite IH, length_rev_str. cbn. lia.
    + rewrite IH. cbn. lia.
Qed.

Lemma macro_end_bounds (lines : list string) :
  forall p, p <= macro_end lines p <= p + pieces_length lines.
Proof.
  induction lines as [|l lines IH]; intro p; cbn [macro_end pieces_length fold_right];
    [lia|].
  fold (pieces_length lines).
  destruct (Py.endswith (Py.strip l) backslash); [|lia].
  specialize (IH (p + (String.length l + 1))). lia.
Qed.

Lemma Forall_snoc {A} (P : A -> Prop) l x : Forall P l -> P x -> Forall P (l ++ [x]).
Proof. intros H1 H2. apply Forall_app. split; [exact H1|constructor; [exact H2|constructor]]. Qed.

Ltac offsets_body :=
  let H := fresh "H" in
  let Hm := fresh "Hm" in
  intros ? ? Hm H;
  repeat match goal with
         | |- context [match ?x with _ => _ end] => destruct x eqn:?
         end;
  try exact H;
  destruct H as [? [? [? [? ?]]]];
  unfold offsets_ok;
  cbn [functions structs globals typedefs macros _add_to_symbol_map set_symbol_map
       set_functions set_structs set_globals set_typedefs set_macros set_enums
       print set_log];
  repeat split; try assumption; apply Forall_snoc; try assumption;
  unfold delimited; cbn [start end_ content];
  apply finditer_occurs, occurs_slice in Hm; destruct Hm as [_ [? ?]].

Lemma extract_enums_offsets source st :
  offsets_ok source st -> offsets_ok source (extract_enums source st).
Proof. unfold extract_enums. apply fold_left_inv_in. offsets_body. Qed.

Lemma extract_structs_offsets source st :
  offsets_ok source st -> offsets_ok source (extract_structs source st).
Proof.
  unfold extract_structs. apply fold_left_inv_in. offsets_body.
  repeat split; [assumption|lia].
Qed.

Lemma extract_typedefs_offsets source st :
  offsets_ok source st -> offsets_ok source (extract_typedefs source st).
Proof.
  unfold extract_typedefs. apply fold_left_inv_in. offsets_body.
  repeat split; [assumption|lia].
Qed.

Lemma extract_functions_offsets source st :
  offsets_ok source st -> offsets_ok source (extract_functions source st).
Proof.
  unfold extract_functions. apply fold_left_inv_in. offsets_body.
  match goal with
  | E : scan_braces ?s ?ob ?cc ?mx = (_, ?n) |- _ =>
      pose proof (scan_braces_bound s ob cc mx (Nat.le_0_l _)) as Hb;
      rewrite E in Hb; cbn [snd] in Hb
  end.
  repeat split; lia.
Qed.

Lemma extract_globals_offsets source st :
  offsets_ok source st -> offsets_ok source (extract_globals source st).
Proof.
  unfold extract_globals. apply fold_left_inv_in. offsets_body.
  match goal with
  | E : find_from _ _ _ = Some ?n |- _ =>
      unfold find_from in E;
      destruct (Py.find_char ";" (Py.drop (N.to_nat (m_end x)) source)) as [i|] eqn:Ei;
      [|discriminate E];
      cbn [option_map] in E; injection E as E;
      apply find_char_bound in Ei; rewrite length_drop in Ei
  end.
  repeat split; lia.
Qed.

Lemma extract_macros_offsets source st :
  offsets_ok source st -> offsets_ok source (extract_macros source st).
Proof.
  unfold extract_macros. apply fold_left_inv_in. offsets_body.
  match goal with
  | |- context [macro_end ?l ?p] =>
      pose proof (macro_end_bounds l p) as Hb;
      unfold Py.split in Hb; rewrite split_go_length, length_drop in Hb;
      fold (Py.split "010" (Py.drop p source)) in Hb
  end.
  cbn [String.length] in Hb.
  repeat split; lia.
Qed.

Lemma extract_loop_offsets source fuel :
  forall ds st, offsets_ok source st ->
                offsets_ok source (extract_conditionals_loop fuel source ds st).
Proof.
  induction fuel as [|fuel IH]; intros ds st H; cbn; [exact H|].
  destruct ds as [|[ln d] tl]; [exact H|].
  destruct (Py.startswith d "#if").
  - destruct (scan_block tl 1 [(ln, d)]) as [[[e b] rest]|].
    + apply IH. exact H.
    + exact H.
  - apply IH. exact H.
Qed.

(** X19.  For each extracted function, struct, global and typedef the offsets lie within the source and the content is the stripped slice between them; for a macro the same holds, with an end offset that may pass the end of the source by one. *)
Theorem offsets_delimit_the_content :
  forall (source : string) (e : Element),
    let st := extract_symbols source init_state in
    (In e (functions st ++ structs st ++ globals st ++ typedefs st) ->
       start e <= end_ e <= String.length source
       /\ content e = Py.strip (Py.slice (start e) (end_ e) source))
    /\ (In e (macros st) ->
          start e <= end_ e <= String.length source + 1
          /\ content e = Py.strip (Py.slice (start e) (end_ e) source)).
Proof.
  intros source e st.
  assert (H : offsets_ok source st).
  { unfold st, extract_symbols.
    apply extract_macros_offsets, extract_typedefs_offsets, extract_globals_offsets,
      extract_structs_offsets, extract_functions_offsets.
    unfold extract_conditionals. apply extract_loop_offsets, extract_enums_offsets.
    repeat split; constructor. }
  destruct H as [Hf [Hs [Hg [Ht Hm]]]].
  rewrite Forall_forall in Hf, Hs, Hg, Ht, Hm. split.
  - intro Hin. repeat rewrite in_app_iff in Hin.
    assert (D : delimited source 0 e)
      by (destruct Hin as [Hin|[Hin|[Hin|Hin]]]; auto).
    destruct D as [D1 [D2 D3]]. repeat split; try assumption. lia.
  - intro Hin. destruct (Hm e Hin) as [D1 [D2 D3]]. repeat split; assumption.
Qed.


(** ** Verification *)

(** *** Verification rewrites component files and nothing else *)

Lemma dict_has_write fs path body p :
  dict_has path fs = true ->
  dict_has p (write_file fs path body) = dict_has p fs.
Proof.
  intro H. unfold write_file, dict_has in *.
  destruct (String.eqb p path) eqn:E.
  - apply String.eqb_eq in E. subst p. rewrite dict_get_set_same.
    destruct (dict_get path fs); [reflexivity|discriminate].
  - apply String.eqb_neq in E. rewrite dict_get_set_other by exact E. reflexivity.
Qed.

Lemma check_issues_files b os fs path body p :
  dict_has path fs = true ->
  let fs' := fst (fst (_check_for_common_issues b os fs path body)) in
  dict_has p fs' = dict_has p fs
  /\ (p <> path -> dict_get p fs' = dict_get p fs).
Proof.
  intro H. unfold _check_for_common_issues.
  destruct (check_common b os body) as [fixed issues].
  destruct (negb (String.eqb fixed body)); cbn [fst]; split; try reflexivity.
  - apply dict_has_write, H.
  - intro N. unfold write_file. apply dict_get_set_other, N.
Qed.

Lemma verify_path_files bud os acc path p :
  let fs := fst (fst acc) in
  let fs' := fst (fst (verify_path bud os acc path)) in
  dict_has p fs' = dict_has p fs
  /\ (p <> path -> dict_get p fs' = dict_get p fs).
Proof.
  destruct acc as [[fs issues] evs]. cbn [fst]. unfold verify_path.
  destruct (dict_get path fs) as [body|] eqn:E; [|split; reflexivity].
  assert (Hp : dict_has path fs = true) by (unfold dict_has; rewrite E; reflexivity).
  destruct (negb (open_count body =? close_count body)).
  - destruct (close_count body <? open_count body).
    + pose proof (check_issues_files (bud path) os
                    (write_file fs path (balance_file body)) path body p) as C.
      assert (Hw : dict_has path (write_file fs path (balance_file body)) = true)
        by (unfold write_file; apply dict_has_set_same).
      specialize (C Hw).
      destruct (_check_for_common_issues (bud path) os
                  (write_file fs path (balance_file body)) path body) as [[fs1 i1] e1].
      cbn [fst] in *. destruct C as [C1 C2]. split.
      * rewrite C1. apply dict_has_write, Hp.
      * intro N. rewrite (C2 N). unfold write_file. apply dict_get_set_other, N.
    + pose proof (check_issues_files (bud path) os fs path body p Hp) as C.
      destruct (_check_for_common_issues (bud path) os fs path body) as [[fs1 i1] e1].
      exact C.
  - pose proof (check_issues_files (bud path) os fs path body p Hp) as C.
    destruct (_check_for_common_issues (bud path) os fs path body) as [[fs1 i1] e1].
    exact C.
Qed.

Lemma main_header_is_no_component_file (k : string) :
  main_header_path <> c_path k /\ main_header_path <> h_path k.
Proof. unfold main_header_path, c_path, h_path. split; cbn; discriminate. Qed.

(** X20.  [_verify_output] creates no file, changes no file besides the .c and .h files of the components, and never touches the main header. *)
Theorem verification_rewrites_only_component_files :
  forall (bud : string -> budget) (os_is_nt : bool) (st : state) (fs : files),
    let fs' := fst (fst (_verify_output bud os_is_nt st fs)) in
    (forall path, dict_has path fs' = dict_has path fs)
    /\ (forall path,
           (forall file_key, In file_key (map fst (output_files st)) ->
                             path <> c_path file_key /\ path <> h_path file_key) ->
           dict_get path fs' = dict_get path fs)
    /\ dict_get main_header_path fs' = dict_get main_header_path fs.
Proof.
  intros bud os st fs fs'.
  assert (G : forall (l : list (string * list Element)) (acc : files * bool * list event),
             let r := fold_left
                        (fun acc kv =>
                           fold_left (verify_path bud os)
                                     [c_path (fst kv); h_path (fst kv)] acc) l acc in
             (forall p, dict_has p (fst (fst r)) = dict_has p (fst (fst acc)))
             /\ (forall p, (forall k, In k (map fst l) -> p <> c_path k /\ p <> h_path k) ->
                           dict_get p (fst (fst r)) = dict_get p (fst (fst acc)))).
  { induction l as [|[k els] l IH]; intro acc; cbn [fold_left map fst].
    - split; intros; reflexivity.
    - set (a1 := verify_path bud os acc (c_path k)).
      set (a2 := verify_path bud os a1 (h_path k)).
      destruct (IH a2) as [I1 I2]. cbn zeta in I1, I2.
      split.
      + intro p. rewrite I1. unfold a2.
        rewrite (proj1 (verify_path_files bud os a1 (h_path k) p)). unfold a1.
        apply (proj1 (verify_path_files bud os acc (c_path k) p)).
      + intros p Hp. rewrite I2 by (intros k' Hk'; apply Hp; right; exact Hk').
        destruct (Hp k (or_introl eq_refl)) as [Hc Hh]. unfold a2.
        rewrite (proj2 (verify_path_files bud os a1 (h_path k) p) Hh). unfold a1.
        apply (proj2 (verify_path_files bud os acc (c_path k) p) Hc). }
  destruct (G (output_files st) (fs, false, [])) as [G1 G2]. cbn zeta in G1, G2.
  cbn [fst] in G1, G2.
  split; [exact G1|]. split; [exact G2|].
  apply G2. intros k _. apply main_header_is_no_component_file.
Qed.

(** ** The exit status *)



(** ** Lines of a text *)

Lemma rev_onto_append (s : string) :
  forall acc, Py.rev_onto s acc = Py.rev_str s +++ acc.
Proof.
  unfold Py.rev_str. induction s as [|c s IH]; intro acc; cbn [Py.rev_onto]; [reflexivity|].
  rewrite IH, (IH (String c EmptyString)), append_assoc. reflexivity.
Qed.

Lemma rev_str_cons c s : Py.rev_str (String c s) = Py.rev_str s +++ String c EmptyString.
Proof. unfold Py.rev_str at 1. cbn [Py.rev_onto]. apply rev_onto_append. Qed.

Lemma rev_str_append (a b : string) :
  Py.rev_str (a +++ b) = Py.rev_str b +++ Py.rev_str a.
Proof.
  induction a as [|c a IH]; cbn [String.append].
  - rewrite append_nil_r. reflexivity.
  - rewrite !rev_str_cons, IH, append_assoc. reflexivity.
Qed.

Lemma rev_str_involutive (s : string) : Py.rev_str (Py.rev_str s) = s.
Proof.
  induction s as [|c s IH]; [reflexivity|].
  rewrite rev_str_cons, rev_str_append, IH. reflexivity.
Qed.

Lemma count_char_append c (a b : string) :
  Py.count_char c (a +++ b) = Py.count_char c a + Py.count_char c b.
Proof. induction a as [|x a IH]; cbn; [reflexivity|]. rewrite IH. lia. Qed.

Lemma count_char_rev c (s : string) : Py.count_char c (Py.rev_str s) = Py.count_char c s.
Proof.
  induction s as [|x s IH]; [reflexivity|].
  rewrite rev_str_cons, count_char_append, IH. cbn. lia.
Qed.

Lemma split_go_free c (x : string) :
  free_of c x ->
  forall s cur, Py.split_go c (x +++ s) cur = Py.split_go c s (Py.rev_str x +++ cur).
Proof.
  unfold free_of. induction x as [|a x IH]; intros H s cur; [reflexivity|].
  cbn [Py.count_char] in H. cbn [String.append Py.split_go].
  destruct (Ascii.eqb a c); [discriminate H|]. cbn in H.
  rewrite IH by exact H. rewrite rev_str_cons, append_assoc. reflexivity.
Qed.

Lemma split_join c (ls : list string) :
  ls <> [] -> Forall (free_of c) ls ->
  Py.split c (Py.join (String c EmptyString) ls) = ls.
Proof.
  unfold Py.split. induction ls as [|x ls IH]; intros N F; [congruence|].
  inversion F as [|? ? Hx F']; subst. destruct ls as [|y ls].
  - cbn [Py.join]. rewrite <- (append_nil_r x) at 1.
    rewrite split_go_free by exact Hx. cbn [Py.split_go].
    rewrite append_nil_r, rev_str_involutive. reflexivity.
  - cbn [Py.join]. rewrite split_go_free by exact Hx.
    cbn [String.append Py.split_go]. rewrite Ascii.eqb_refl.
    rewrite append_nil_r, rev_str_involutive. f_equal.
    apply IH; [discriminate|exact F'].
Qed.

Lemma split_go_pieces_free c (s : string) :
  forall cur, free_of c cur -> Forall (free_of c) (Py.split_go c s cur).
Proof.
  induction s as [|x s IH]; intros cur H; cbn [Py.split_go].
  - constructor; [|constructor]. unfold free_of. rewrite count_char_rev. exact H.
  - destruct (Ascii.eqb x c) eqn:E.
    + constructor; [|apply IH; reflexivity]. unfold free_of. rewrite count_char_rev. exact H.
    + apply IH. unfold free_of. cbn. rewrite E. exact H.
Qed.

Lemma split_not_nil c s : Py.split c s <> [].
Proof.
  unfold Py.split. generalize EmptyString. induction s as [|x s IH]; intro cur;
    cbn [Py.split_go]; [discriminate|].
  destruct (Ascii.eqb x c); [discriminate|apply IH].
Qed.

(** *** The repair of unterminated string literals *)

Lemma odd_quotes_closed (line : string) :
  odd_quotes line = true -> odd_quotes (line +++ dq) = false.
Proof.
  unfold odd_quotes. rewrite count_char_append. cbn [dq Py.count_char].
  rewrite Ascii.eqb_refl. replace (Py.count_char (ascii_of_nat 34) line + (1 + 0))
    with (S (Py.count_char (ascii_of_nat 34) line)) by lia.
  rewrite Nat.odd_succ. rewrite <- Nat.negb_odd. intros ->. reflexivity.
Qed.

(** X22.  The repair of unterminated string literals is idempotent: run on its own result it finds nothing and returns the text unchanged. *)
Theorem string_repair_leaves_nothing_to_repair :
  forall body : string,
    fix_strings (fst (fix_strings body)) = (fst (fix_strings body), false).
Proof.
  intro body. unfold fix_strings at 2 3.
  destruct (any unterminated (Py.split "010" body)) eqn:E; cbn [fst].
  - set (lines := Py.split "010" body).
    set (fixed := map (fun line => if unterminated line then line +++ dq else line) lines).
    assert (Hf : Forall (free_of "010") fixed).
    { unfold fixed. rewrite Forall_map.
      pose proof (split_go_pieces_free "010" body EmptyString eq_refl) as F.
      fold (Py.split "010" body) in F. fold lines in F.
      rewrite Forall_forall in F |- *. intros l Hl.
      destruct (unterminated l); [|apply F, Hl].
      unfold free_of. rewrite count_char_append, (F l Hl). reflexivity. }
    assert (Hn : fixed <> []).
    { unfold fixed. pose proof (split_not_nil "010" body) as N. fold lines in N.
      destruct lines; [congruence|discriminate]. }
    unfold fix_strings. change Py.nl with (String "010"%char EmptyString).
    rewrite (split_join "010" fixed Hn Hf).
    assert (Hu : any unterminated fixed = false).
    { unfold any, fixed. clear. induction lines as [|l lines IH]; [reflexivity|].
      cbn [map existsb]. rewrite IH, orb_false_r.
      destruct (unterminated l) eqn:U; [|exact U].
      unfold unterminated in U |- *. apply andb_prop in U. destruct U as [_ U].
      rewrite (odd_quotes_closed l U). apply andb_false_r. }
    rewrite Hu. reflexivity.
  - unfold fix_strings. rewrite E. reflexivity.
Qed.

(** *** [splitlines] *)

Lemma splitlines_go_cons (x : ascii) (s cur : string) :
  Py.splitlines_go (String x s) cur
  = if Py.islinebreak x
    then Py.rev_str cur :: Py.splitlines_go (after_break x s) EmptyString
    else Py.splitlines_go s (String x cur).
Proof.
  cbn [Py.splitlines_go]. destruct (Py.islinebreak x) eqn:E; [|reflexivity].
  unfold after_break.
  destruct x as [[] [] [] [] [] [] [] []]; cbv in E; try discriminate E;
    try reflexivity.
  destruct s as [|y s']; [reflexivity|].
  destruct y as [[] [] [] [] [] [] [] []]; reflexivity.
Qed.

Lemma is_line_append (a b : string) : is_line a -> is_line b -> is_line (a +++ b).
Proof.
  unfold is_line. intros Ha Hb. induction a as [|c a IH]; [exact Hb|].
  cbn in Ha |- *. apply andb_prop in Ha. destruct Ha as [H1 H2].
  rewrite H1, IH by exact H2. reflexivity.
Qed.

Lemma is_line_rev (s : string) : is_line s -> is_line (Py.rev_str s).
Proof.
  intro H. induction s as [|c s IH]; [exact H|].
  cbn in H. apply andb_prop in H. destruct H as [H1 H2].
  rewrite rev_str_cons. apply is_line_append; [apply IH, H2|].
  unfold is_line. cbn. rewrite H1. reflexivity.
Qed.

Lemma splitlines_go_lines (s : string) :
  forall cur, is_line cur -> Forall is_line (Py.splitlines_go s cur).
Proof.
  remember (String.length s) as n eqn:Hn. revert s Hn.
  induction n as [n IH] using lt_wf_ind. intros s Hn cur Hc.
  destruct s as [|x s].
  - cbn. destruct cur; constructor; [apply is_line_rev, Hc|constructor].
  - rewrite splitlines_go_cons. destruct (Py.islinebreak x) eqn:E.
    + constructor; [apply is_line_rev, Hc|].
      apply (IH (String.length (after_break x s))); [|reflexivity|reflexivity].
      subst n. unfold after_break. destruct (Ascii.eqb x "013"); [|cbn; lia].
      destruct s as [|y s']; [cbn; lia|]. destruct (Ascii.eqb y "010"); cbn; lia.
    + apply (IH (String.length s)); [subst n; cbn; lia|reflexivity|].
      unfold is_line. cbn. rewrite E. exact Hc.
Qed.

Lemma splitlines_lines (s : string) : Forall is_line (Py.splitlines s).
Proof. apply splitlines_go_lines. reflexivity. Qed.

Lemma splitlines_go_line (x : string) :
  is_line x ->
  forall s cur, Py.splitlines_go (x +++ s) cur
                = Py.splitlines_go s (Py.rev_str x +++ cur).
Proof.
  induction x as [|a x IH]; intros H s cur; [reflexivity|].
  unfold is_line in H. cbn in H. apply andb_prop in H. destruct H as [H1 H2].
  cbn [String.append]. rewrite splitlines_go_cons.
  apply negb_true_iff in H1. rewrite H1.
  rewrite IH by exact H2. rewrite rev_str_cons, append_assoc. reflexivity.
Qed.

Lemma splitlines_join (ls : list string) :
  Forall is_line ls ->
  Py.splitlines (Py.join Py.nl ls) = without_empty_last ls.
Proof.
  unfold Py.splitlines. induction ls as [|x ls IH]; intro F; [reflexivity|].
  inversion F as [|? ? Hx F']; subst. destruct ls as [|y ls].
  - cbn [Py.join without_empty_last]. rewrite <- (append_nil_r x) at 1.
    rewrite splitlines_go_line by exact Hx. cbn [Py.splitlines_go].
    rewrite append_nil_r.
    destruct x as [|c x]; [reflexivity|].
    destruct (Py.rev_str (String c x)) eqn:E.
    + apply (f_equal String.length) in E. rewrite length_rev_str in E. discriminate E.
    + rewrite <- E, rev_str_involutive. reflexivity.
  - cbn [Py.join]. rewrite splitlines_go_line by exact Hx.
    unfold Py.nl. cbn [String.append]. rewrite splitlines_go_cons.
    change (Py.islinebreak "010") with true. cbv iota.
    change (after_break "010" (Py.join (String "010" EmptyString) (y :: ls)))
      with (Py.join (String "010" EmptyString) (y :: ls)).
    rewrite append_nil_r, rev_str_involutive.
    change (without_empty_last (x :: y :: ls)) with (x :: without_empty_last (y :: ls)).
    f_equal. apply IH. exact F'.
Qed.


(** *** The repair of directive nesting *)

Lemma nesting_scan_cons i line tl stack um :
  nesting_scan ((i, line) :: tl) stack um
  = match kind_of line with
    | KSkip => nesting_scan tl stack um
    | KOpen => nesting_scan tl (stack ++ [(i, Py.strip line)]) um
    | KClose =>
        match stack with
        | [] => nesting_scan tl stack (um ++ [i])
        | _ => nesting_scan tl (removelast stack) um
        end
    end.
Proof.
  cbn [nesting_scan]. unfold kind_of.
  destruct (Py.startswith (Py.strip line) "//" || Py.startswith (Py.strip line) "/*");
    [reflexivity|].
  destruct (found (match_ open_line_rx (Py.strip line))); [reflexivity|].
  destruct (found (match_ close_line_rx (Py.strip line))); reflexivity.
Qed.

Lemma scan_balance (L : list (nat * string)) :
  forall stack um,
    length (fst (nesting_scan L stack um))
    = fst (balance (map (fun il => kind_of (snd il)) L) (length stack))
    /\ length (snd (nesting_scan L stack um))
       = length um + snd (balance (map (fun il => kind_of (snd il)) L) (length stack)).
Proof.
  induction L as [|[i line] L IH]; intros stack um.
  - cbn. split; lia.
  - rewrite nesting_scan_cons. cbn [map snd balance].
    destruct (kind_of line).
    + apply IH.
    + destruct (IH (stack ++ [(i, Py.strip line)]) um) as [H1 H2].
      rewrite length_app in H1, H2. cbn [length] in H1, H2. split; assumption.
    + destruct stack as [|s0 stack].
      * destruct (IH [] (um ++ [i])) as [H1 H2]. cbn [length] in *.
        rewrite length_app in H2. cbn [length] in H2.
        destruct (balance (map (fun il => kind_of (snd il)) L) 0) as [d u].
        cbn [fst snd] in *. split; lia.
      * destruct (IH (removelast (s0 :: stack)) um) as [H1 H2].
        assert (E : length (removelast (s0 :: stack)) = length stack).
        { rewrite removelast_firstn_len, length_firstn. cbn [length]. lia. }
        rewrite E in H1, H2. cbn [length]. split; assumption.
Qed.

Lemma existsb_eqb_in i um : existsb (Nat.eqb i) um = true <-> In i um.
Proof.
  rewrite existsb_exists. split.
  - intros [x [Hx E]]. apply Nat.eqb_eq in E. subst x. exact Hx.
  - intro H. exists i. split; [exact H|apply Nat.eqb_refl].
Qed.

(** [strip] leaves a text alone that neither starts nor ends with white
    space. *)
Lemma rstrip_last (t : string) (c : ascii) :
  Py.isspace c = false ->
  Py.rstrip (t +++ String c EmptyString) = t +++ String c EmptyString.
Proof.
  intro H. unfold Py.rstrip. rewrite rev_str_append.
  change (Py.rev_str (String c EmptyString)) with (String c EmptyString).
  cbn [String.append Py.lstrip]. rewrite H.
  rewrite rev_str_cons, rev_str_involutive. reflexivity.
Qed.

Lemma strip_clean (a c : ascii) (t : string) :
  Py.isspace a = false -> Py.isspace c = false ->
  Py.strip (String a (t +++ String c EmptyString)) = String a (t +++ String c EmptyString).
Proof.
  intros Ha Hc. unfold Py.strip. cbn [Py.lstrip]. rewrite Ha.
  change (String a (t +++ String c EmptyString))
    with (String a t +++ String c EmptyString).
  apply rstrip_last, Hc.
Qed.

Lemma strip_removed_endif line : Py.strip (removed_endif line) = removed_endif line.
Proof.
  assert (E : removed_endif line
              = String "/" (("* Extra #endif removed: " +++ line +++ " *")
                              +++ String "/" EmptyString)).
  { unfold removed_endif. rewrite !append_assoc. reflexivity. }
  rewrite E. apply strip_clean; reflexivity.
Qed.

Lemma kind_of_removed_endif line : kind_of (removed_endif line) = KSkip.
Proof. unfold kind_of. rewrite strip_removed_endif. reflexivity. Qed.

Lemma strip_added_endif id : Py.strip (added_endif id) = added_endif id.
Proof.
  assert (E : added_endif id
              = String "#" (("endif /* Auto-added to match " +++ snd id +++ " at line "
                               +++ str_of_nat (fst id + 1) +++ " *")
                              +++ String "/" EmptyString)).
  { unfold added_endif. rewrite !append_assoc. reflexivity. }
  rewrite E. apply strip_clean; reflexivity.
Qed.

Lemma kind_of_added_endif id : kind_of (added_endif id) = KClose.
Proof.
  unfold kind_of. rewrite strip_added_endif. unfold added_endif.
  generalize (snd id +++ " at line " +++ str_of_nat (fst id + 1) +++ " */").
  intro t. vm_compute. reflexivity.
Qed.

Lemma scan_unmatched (L : list (nat * string)) :
  forall stack um,
    incl um (snd (nesting_scan L stack um))
    /\ forall i, In i (snd (nesting_scan L stack um)) -> In i um \/ In i (map fst L).
Proof.
  induction L as [|[i line] L IH]; intros stack um.
  - cbn. split; [apply incl_refl|intros i H; left; exact H].
  - rewrite nesting_scan_cons. cbn [map fst In].
    destruct (kind_of line).
    + destruct (IH stack um) as [H1 H2]. split; [exact H1|].
      intros j Hj. destruct (H2 j Hj); tauto.
    + destruct (IH (stack ++ [(i, Py.strip line)]) um) as [H1 H2]. split; [exact H1|].
      intros j Hj. destruct (H2 j Hj); tauto.
    + destruct stack as [|s0 stack].
      * destruct (IH [] (um ++ [i])) as [H1 H2]. split.
        -- intros j Hj. apply H1. apply in_or_app. left. exact Hj.
        -- intros j Hj. destruct (H2 j Hj) as [H|H]; [|tauto].
           apply in_app_or in H. destruct H as [H|[<-|[]]]; tauto.
      * destruct (IH (removelast (s0 :: stack)) um) as [H1 H2]. split; [exact H1|].
        intros j Hj. destruct (H2 j Hj); tauto.
Qed.

(** With the unmatched [#endif] lines turned into comments, the lines
    scanned leave the same directives open and nothing unmatched. *)
Lemma scan_repaired (L : list (nat * string)) :
  forall stack um,
    NoDup (map fst L) ->
    (forall i, In i (map fst L) -> ~ In i um) ->
    let um' := snd (nesting_scan L stack um) in
    balance (map (fun il => kind_of (repaired_line um' il)) L) (length stack)
    = (length (fst (nesting_scan L stack um)), 0).
Proof.
  induction L as [|[i line] L IH]; intros stack um Hnd Hfree; cbn zeta.
  - reflexivity.
  - cbn [map fst] in Hnd. inversion Hnd as [|? ? Hi Hnd']; subst.
    assert (Hfree' : forall j, In j (map fst L) -> ~ In j um)
      by (intros j Hj; apply Hfree; right; exact Hj).
    assert (Hium : ~ In i um) by (apply Hfree; left; reflexivity).
    rewrite nesting_scan_cons. cbn [map balance].
    assert (Hkeep : forall stack1,
               ~ In i (snd (nesting_scan L stack1 um)) ->
               repaired_line (snd (nesting_scan L stack1 um)) (i, line) = line).
    { intros stack1 N. unfold repaired_line. cbn [fst snd].
      destruct (existsb (Nat.eqb i) (snd (nesting_scan L stack1 um))) eqn:E; [|reflexivity].
      apply existsb_eqb_in in E. contradiction. }
    assert (Hnot : forall stack1, ~ In i (snd (nesting_scan L stack1 um))).
    { intros stack1 H. destruct (proj2 (scan_unmatched L stack1 um) i H); contradiction. }
    destruct (kind_of line) eqn:K.
    + rewrite (Hkeep stack (Hnot stack)), K. apply IH; assumption.
    + rewrite (Hkeep _ (Hnot _)), K.
      specialize (IH (stack ++ [(i, Py.strip line)]) um Hnd' Hfree'). cbn zeta in IH.
      rewrite length_app in IH. cbn [length] in IH. exact IH.
    + destruct stack as [|s0 stack].
      * assert (Hin : In i (snd (nesting_scan L [] (um ++ [i])))).
        { apply (proj1 (scan_unmatched L [] (um ++ [i]))). apply in_or_app.
          right. left. reflexivity. }
        unfold repaired_line at 1. cbn [fst snd].
        rewrite (proj2 (existsb_eqb_in _ _) Hin), kind_of_removed_endif.
        apply IH; [exact Hnd'|].
        intros j Hj N. apply in_app_or in N. destruct N as [N|[<-|[]]].
        -- exact (Hfree' j Hj N).
        -- exact (Hi Hj).
      * rewrite (Hkeep _ (Hnot _)), K.
        specialize (IH (removelast (s0 :: stack)) um Hnd' Hfree'). cbn zeta in IH.
        assert (E : length (removelast (s0 :: stack)) = length stack).
        { rewrite removelast_firstn_len, length_firstn. cbn [length]. lia. }
        rewrite E in IH. cbn [length]. exact IH.
Qed.

Lemma balance_app (a b : list line_kind) :
  forall d,
    balance (a ++ b) d
    = (fst (balance b (fst (balance a d))),
       snd (balance a d) + snd (balance b (fst (balance a d)))).
Proof.
  induction a as [|k a IH]; intro d; cbn [app balance].
  - cbn. destruct (balance b d). reflexivity.
  - destruct k; try apply IH. destruct d as [|d]; [|apply IH].
    rewrite IH. destruct (balance a 0) as [d1 u1]. cbn [fst snd].
    destruct (balance b d1). reflexivity.
Qed.

Lemma balance_closers (n : nat) : balance (repeat KClose n) n = (0, 0).
Proof. induction n as [|n IH]; [reflexivity|exact IH]. Qed.

Lemma kind_of_empty : kind_of EmptyString = KSkip.
Proof. vm_compute. reflexivity. Qed.

Lemma balance_without_empty_last (ls : list string) :
  forall d, balance (map kind_of (without_empty_last ls)) d = balance (map kind_of ls) d.
Proof.
  induction ls as [|x ls IH]; intro d; [reflexivity|].
  destruct ls as [|y ls].
  - destruct x; [cbn [without_empty_last map]; rewrite kind_of_empty|]; reflexivity.
  - change (without_empty_last (x :: y :: ls)) with (x :: without_empty_last (y :: ls)).
    cbn [map balance].
    destruct (kind_of x); try apply IH. destruct d; [|apply IH].
    rewrite IH. reflexivity.
Qed.

Lemma is_line_lstrip (s : string) : is_line s -> is_line (Py.lstrip s).
Proof.
  induction s as [|c s IH]; intro H; [exact H|].
  cbn [Py.lstrip]. destruct (Py.isspace c); [|exact H].
  apply IH. unfold is_line in H. cbn in H. apply andb_prop in H. exact (proj2 H).
Qed.

Lemma is_line_strip (s : string) : is_line s -> is_line (Py.strip s).
Proof.
  intro H. unfold Py.strip, Py.rstrip.
  apply is_line_rev, is_line_lstrip, is_line_rev, is_line_lstrip, H.
Qed.

Lemma is_line_digits (d : Decimal.uint) : is_line (NilEmpty.string_of_uint d).
Proof. induction d; cbn [NilEmpty.string_of_uint]; try exact IHd; reflexivity. Qed.

Lemma is_line_str_of_nat (n : nat) : is_line (str_of_nat n).
Proof.
  unfold str_of_nat, NilZero.string_of_uint.
  destruct (Nat.to_uint n); try apply is_line_digits; reflexivity.
Qed.

Lemma scan_stack_lines (L : list (nat * string)) :
  forall stack um,
    Forall (fun il => is_line (snd il)) L ->
    Forall (fun id => is_line (snd id)) stack ->
    Forall (fun id => is_line (snd id)) (fst (nesting_scan L stack um)).
Proof.
  induction L as [|[i line] L IH]; intros stack um HL Hs; [exact Hs|].
  inversion HL as [|? ? Hl HL']; subst. cbn [snd] in Hl.
  rewrite nesting_scan_cons. destruct (kind_of line).
  - apply IH; assumption.
  - apply IH; [exact HL'|]. apply Forall_app. split; [exact Hs|].
    constructor; [apply is_line_strip, Hl|constructor].
  - destruct stack as [|s0 stack]; apply IH; try assumption.
    rewrite removelast_firstn_len. rewrite Forall_forall in Hs |- *.
    intros x Hx. apply Hs.
    rewrite <- (firstn_skipn (Nat.pred (length (s0 :: stack))) (s0 :: stack)).
    apply in_or_app. left. exact Hx.
Qed.

Lemma enumerate_snd {A} (l : list A) : map snd (enumerate l) = l.
Proof.
  unfold enumerate. generalize 0. induction l as [|x l IH]; intro n; [reflexivity|].
  cbn. rewrite IH. reflexivity.
Qed.

Lemma enumerate_fst {A} (l : list A) : map fst (enumerate l) = seq 0 (length l).
Proof.
  unfold enumerate. generalize 0. induction l as [|x l IH]; intro n; [reflexivity|].
  cbn. rewrite IH. reflexivity.
Qed.

(** X23.  The repair of directive nesting is idempotent: on its own result the scan finds neither an open directive nor an unmatched endif line. *)
Theorem nesting_repair_leaves_nothing_to_repair :
  forall body : string,
    fix_nesting (fst (fix_nesting body)) = (fst (fix_nesting body), false).
Proof.
  intro body. unfold fix_nesting at 2 3.
  set (lines := Py.splitlines body).
  destruct (nesting_scan (enumerate lines) [] []) as [stack um] eqn:E.
  assert (Hlines : Forall is_line lines) by apply splitlines_lines.
  assert (Hclean : forall ls, Forall is_line ls -> 
             balance (map kind_of ls) 0 = (0, 0) ->
             fix_nesting (Py.join Py.nl ls) = (Py.join Py.nl ls, false)).
  { intros ls Hls Hb. unfold fix_nesting.
    rewrite splitlines_join by exact Hls.
    pose proof (scan_balance (enumerate (without_empty_last ls)) [] []) as [S1 S2].
    rewrite <- (map_map snd kind_of), enumerate_snd in S1, S2.
    cbn [length] in S1, S2.
    rewrite balance_without_empty_last, Hb in S1, S2. cbn [length fst snd] in S1, S2.
    destruct (nesting_scan (enumerate (without_empty_last ls)) [] []) as [s u].
    cbn [fst snd] in S1, S2.
    destruct s; [|discriminate S1]. destruct u; [|discriminate S2]. reflexivity. }
  assert (Hbody : balance (map kind_of lines) 0 = (0, 0) ->
                  fix_nesting body = (body, false)).
  { intro Hb. unfold fix_nesting. fold lines.
    pose proof (scan_balance (enumerate lines) [] []) as [S1 S2].
    rewrite <- (map_map snd kind_of), enumerate_snd in S1, S2.
    cbn [length] in S1, S2. rewrite Hb in S1, S2.
    cbn [length fst snd] in S1, S2.
    destruct (nesting_scan (enumerate lines) [] []) as [s u]. cbn [fst snd] in S1, S2.
    destruct s; [|discriminate S1]. destruct u; [|discriminate S2]. reflexivity. }
  assert (Hfix :
    fix_nesting
      (Py.join Py.nl
         (map (repaired_line um) (enumerate lines) ++ map added_endif stack))
    = (Py.join Py.nl
         (map (repaired_line um) (enumerate lines) ++ map added_endif stack), false)).
  { apply Hclean.
    - apply Forall_app. split.
      + rewrite Forall_map. rewrite Forall_forall. intros [i l] Hin.
        assert (Hl : is_line l).
        { rewrite Forall_forall in Hlines. apply Hlines.
          rewrite <- (enumerate_snd lines). apply in_map_iff. exists (i, l).
          split; [reflexivity|exact Hin]. }
        unfold repaired_line. cbn [fst snd].
        destruct (existsb (Nat.eqb i) um); [|exact Hl].
        unfold removed_endif. apply is_line_append; [reflexivity|].
        apply is_line_append; [exact Hl|reflexivity].
      + pose proof (scan_stack_lines (enumerate lines) [] []) as Hs.
        rewrite E in Hs. cbn [fst] in Hs. rewrite Forall_map.
        assert (Hs' : Forall (fun id => is_line (snd id)) stack).
        { apply Hs; [|constructor]. rewrite Forall_forall. intros [i l] Hin.
          rewrite Forall_forall in Hlines. apply Hlines.
          rewrite <- (enumerate_snd lines). apply in_map_iff. exists (i, l).
          split; [reflexivity|exact Hin]. }
        rewrite Forall_forall in Hs' |- *. intros id Hid. unfold added_endif.
        apply is_line_append; [reflexivity|].
        apply is_line_append; [apply Hs', Hid|].
        apply is_line_append; [reflexivity|].
        apply is_line_append; [apply is_line_str_of_nat|reflexivity].
    - rewrite map_app, balance_app, !map_map.
      pose proof (scan_repaired (enumerate lines) [] []) as R.
      rewrite enumerate_fst in R. specialize (R (seq_NoDup _ _) (fun _ _ H => H)).
      cbn zeta in R. rewrite E in R. cbn [fst snd length] in R.
      rewrite R. cbn [fst snd].
      assert (Hk : map (fun x => kind_of (added_endif x)) stack
                   = repeat KClose (length stack)).
      { clear. induction stack as [|s stack IH]; [reflexivity|].
        cbn [map length repeat]. rewrite kind_of_added_endif, IH. reflexivity. }
      rewrite Hk, balance_closers. reflexivity. }
  destruct stack as [|s0 stack]; [destruct um as [|u0 um]|]; cbn [fst].
  - apply Hbody.
    pose proof (scan_balance (enumerate lines) [] []) as [S1 S2].
    rewrite <- (map_map snd kind_of), enumerate_snd, E in S1, S2.
    cbn [length fst snd] in S1, S2.
    destruct (balance (map kind_of lines) 0) as [d u]. cbn [fst snd] in S1, S2.
    f_equal; lia.
  - exact Hfix.
  - exact Hfix.
Qed.

(** ** Stray lines in the implementation text *)

Lemma join_snoc (sep x : string) (ls : list string) :
  ls <> [] -> Py.join sep (ls ++ [x]) = Py.join sep ls +++ sep +++ x.
Proof.
  induction ls as [|y ls IH]; intro N; [congruence|].
  destruct ls as [|z ls]; [reflexivity|].
  change (Py.join sep ((y :: z :: ls) ++ [x]))
    with (y +++ sep +++ Py.join sep ((z :: ls) ++ [x])).
  rewrite IH by discriminate.
  change (Py.join sep (y :: z :: ls)) with (y +++ sep +++ Py.join sep (z :: ls)).
  rewrite !append_assoc. reflexivity.
Qed.

Lemma without_empty_last_Forall (P : string -> Prop) (ls : list string) :
  Forall P ls -> Forall P (without_empty_last ls).
Proof.
  induction 1 as [|x ls Hx H IH]; [constructor|].
  destruct ls as [|y ls].
  - destruct x; constructor; [exact Hx|constructor].
  - change (without_empty_last (x :: y :: ls)) with (x :: without_empty_last (y :: ls)).
    constructor; assumption.
Qed.

Lemma filter_all {A} (f : A -> bool) (l : list A) :
  ~ length (filter f l) < length l -> Forall (fun x => f x = true) l.
Proof.
  induction l as [|x l IH]; intro H; [constructor|].
  cbn [filter] in H. pose proof (filter_length_le f l) as L.
  destruct (f x) eqn:E; cbn [length] in H.
  - constructor; [exact E|]. apply IH. lia.
  - exfalso. apply H. lia.
Qed.

Lemma after_break_append (x : ascii) (s t : string) :
  s <> EmptyString -> after_break x (s +++ t) = after_break x s +++ t.
Proof.
  intro N. unfold after_break. destruct (Ascii.eqb x "013"); [|reflexivity].
  destruct s as [|y s]; [congruence|]. cbn [String.append].
  destruct (Ascii.eqb y "010"); reflexivity.
Qed.

Lemma after_break_length (x : ascii) (s : string) :
  String.length (after_break x s) <= String.length s.
Proof.
  unfold after_break. destruct (Ascii.eqb x "013"); [|lia].
  destruct s as [|y s]; [lia|]. destruct (Ascii.eqb y "010"); cbn; lia.
Qed.

(** The lines of a text followed by two line feeds: its own lines, and
    empty ones. *)
Lemma splitlines_go_feeds (s : string) :
  forall cur,
    exists k, Py.splitlines_go (s +++ Py.nl +++ Py.nl) cur
              = Py.splitlines_go s cur ++ repeat EmptyString k.
Proof.
  remember (String.length s) as n eqn:Hn. revert s Hn.
  induction n as [n IH] using lt_wf_ind. intros s Hn cur.
  destruct s as [|x s].
  - cbn [String.append]. unfold Py.nl. cbn [String.append].
    rewrite splitlines_go_cons. change (Py.islinebreak "010") with true. cbv iota.
    change (after_break "010" (String "010" EmptyString)) with (String "010" EmptyString).
    rewrite splitlines_go_cons. change (Py.islinebreak "010") with true. cbv iota.
    change (after_break "010" EmptyString) with EmptyString.
    cbn [Py.splitlines_go]. destruct cur as [|c cur].
    + exists 2. reflexivity.
    + exists 1. reflexivity.
  - cbn [String.append]. rewrite !splitlines_go_cons.
    destruct (Py.islinebreak x) eqn:E.
    + destruct s as [|y s].
      * cbn [String.append]. unfold after_break.
        destruct (Ascii.eqb x "013").
        -- unfold Py.nl. cbn [String.append]. change (Ascii.eqb "010" "010") with true.
           cbv iota. rewrite splitlines_go_cons.
           change (Py.islinebreak "010") with true. cbv iota.
           exists 1. reflexivity.
        -- destruct (IH 0 ltac:(subst n; cbn; lia) EmptyString eq_refl EmptyString)
             as [k Hk].
           cbn [String.append] in Hk. exists k. cbn [app]. rewrite Hk. reflexivity.
      * rewrite after_break_append by discriminate.
        pose proof (after_break_length x (String y s)) as L.
        destruct (IH (String.length (after_break x (String y s)))
                     ltac:(subst n; cbn [String.length] in *; lia)
                     (after_break x (String y s)) eq_refl EmptyString) as [k Hk].
        exists k. cbn [app]. rewrite Hk. reflexivity.
    + destruct (IH (String.length s) ltac:(subst n; cbn; lia) s eq_refl (String x cur))
        as [k Hk].
      exists k. exact Hk.
Qed.

Lemma stray_line_empty : stray_line EmptyString = false.
Proof. vm_compute. reflexivity. Qed.

(** X24.  In the text that the implementation file receives for a function or a conditional, no line is a bare endif, else or else if; for a function this removes the else lines of its body. *)
Theorem emitted_text_has_no_stray_line :
  forall e : Element,
    type e = TFunction \/ type e = TConditional ->
    Forall (fun line => stray_line line = false) (Py.splitlines (emit_impl_element e)).
Proof.
  intros e Ht.
  assert (G :
    let lines := Py.splitlines (content e) in
    let fixed_lines := filter (fun l => negb (stray_line l)) lines in
    Forall (fun line => stray_line line = false)
           (Py.splitlines
              (if length fixed_lines <? length lines
               then Py.join Py.nl fixed_lines +++ Py.nl +++ Py.nl
               else content e +++ Py.nl +++ Py.nl))).
  { cbn zeta.
    set (lines := Py.splitlines (content e)).
    set (fl := filter (fun l => negb (stray_line l)) lines).
    assert (Hfl : Forall (fun line => stray_line line = false) fl).
    { rewrite Forall_forall. intros l Hl. apply filter_In in Hl.
      apply negb_true_iff. exact (proj2 Hl). }
    assert (Hlfl : Forall is_line fl).
    { pose proof (splitlines_lines (content e)) as F. fold lines in F.
      rewrite Forall_forall in F |- *. intros l Hl. apply filter_In in Hl.
      apply F. exact (proj1 Hl). }
    destruct (length fl <? length lines) eqn:E.
    - assert (J : exists ls, Py.join Py.nl fl +++ Py.nl +++ Py.nl = Py.join Py.nl ls
                             /\ Forall is_line ls
                             /\ Forall (fun line => stray_line line = false) ls).
      { destruct fl as [|x fl'] eqn:Efl.
        - exists [EmptyString; EmptyString; EmptyString]. split; [reflexivity|].
          split; repeat constructor.
        - exists ((x :: fl') ++ [EmptyString] ++ [EmptyString]). split.
          + rewrite app_assoc, join_snoc by (destruct fl'; discriminate).
            rewrite join_snoc by discriminate.
            rewrite !append_nil_r, !append_assoc. reflexivity.
          + split; apply Forall_app; (split; [assumption|repeat constructor]). }
      destruct J as [ls [-> [J1 J2]]].
      rewrite splitlines_join by exact J1.
      apply without_empty_last_Forall, J2.
    - apply Nat.ltb_ge in E.
      assert (Hall : Forall (fun line => stray_line line = false) lines).
      { pose proof (filter_all (fun l => negb (stray_line l)) lines ltac:(fold fl; lia)) as F.
        rewrite Forall_forall in F |- *. intros l Hl. apply negb_true_iff, F, Hl. }
      unfold Py.splitlines.
      destruct (splitlines_go_feeds (content e) EmptyString) as [k Hk].
      rewrite Hk. apply Forall_app. split; [exact Hall|].
      clear. induction k; constructor; [apply stray_line_empty|assumption]. }
  unfold emit_impl_element. destruct Ht as [-> | ->]; exact G.
Qed.


(** ** The main header *)

Lemma insert_str_in x y l : In y (insert_str x l) <-> y = x \/ In y l.
Proof.
  induction l as [|z l IH]; cbn [insert_str In].
  - intuition.
  - destruct (String.ltb x z); cbn [In]; [intuition|]. rewrite IH. intuition.
Qed.

Lemma sorted_str_in y l : In y (sorted_str l) <-> In y l.
Proof.
  unfold sorted_str.
  enough (H : forall acc, In y (fold_left (fun acc x => insert_str x acc) l acc)
                          <-> In y acc \/ In y l)
    by (rewrite H; cbn; intuition).
  induction l as [|x l IH]; intro acc; cbn [fold_left In]; [intuition|].
  rewrite IH, insert_str_in. intuition.
Qed.

Lemma main_header_fold (k : string) (l : list string) :
  forall hc,
    (Py.contains hc (include_line k) = true \/ (In k l /\ k <> "common")) ->
    Py.contains
      (fold_left (fun hc c =>
                    if negb (String.eqb c "common")
                    then hc +++ "#include " +++ dq +++ "sod/sod_" +++ c +++ ".h" +++ dq
                            +++ Py.nl
                    else hc) l hc)
      (include_line k) = true.
Proof.
  induction l as [|c l IH]; intros hc H; cbn [fold_left].
  - destruct H as [H|[[] _]]. exact H.
  - apply IH. destruct H as [H|[[<-|Hin] N]].
    + left. destruct (negb (String.eqb c "common")); [|exact H].
      apply contains_extend, H.
    + left. apply String.eqb_neq in N. rewrite N. cbn [negb].
      unfold include_line. apply contains_skip.
      rewrite <- (append_nil_r ("#include " +++ dq +++ "sod/sod_" +++ c +++ ".h" +++ dq
                                  +++ Py.nl)) at 1.
      apply contains_here.
    + right. split; assumption.
Qed.

(** X25.  The main header that [create_main_header] writes includes the common header and the header of every component other than common. *)
Theorem main_header_includes_every_component :
  forall (st : state) (fs : files) (file_key : string) (elements : list Element),
    In (file_key, elements) (output_files st) ->
    file_key <> "common" ->
    exists h,
      dict_get main_header_path (create_main_header st fs) = Some h
      /\ Py.contains h ("#include " +++ dq +++ "sod/sod_" +++ file_key +++ ".h" +++ dq
                          +++ Py.nl) = true
      /\ Py.contains h ("#include " +++ dq +++ "sod/sod_common.h" +++ dq +++ Py.nl) = true.
Proof.
  intros st fs k els Hin N. unfold create_main_header, write_file.
  eexists. split; [apply dict_get_set_same|]. split.
  - apply contains_extend. apply (main_header_fold k). right. split; [|exact N].
    apply sorted_str_in. apply in_map_iff. exists (k, els). split; [reflexivity|exact Hin].
  - apply contains_extend.
    match goal with
    | |- Py.contains (fold_left ?f ?l ?a) ?x = true =>
        assert (G : forall l' hc, Py.contains hc x = true ->
                                  Py.contains (fold_left f l' hc) x = true)
    end.
    { induction l' as [|c l' IH]; intros hc H; cbn [fold_left]; [exact H|].
      apply IH. destruct (negb (String.eqb c "common")); [|exact H].
      apply contains_extend, H. }
    apply G. vm_compute. reflexivity.
Qed.


(** ** From the source text to the written files *)

Ltac kinds_body :=
  let H := fresh "H" in
  intros ? ? H;
  repeat match goal with
         | |- context [match ?x with _ => _ end] => destruct x eqn:?
         end;
  try exact H;
  destruct H as [? [? [? [? [? ?]]]]];
  unfold kinds_ok;
  cbn [functions structs enums globals typedefs macros _add_to_symbol_map set_symbol_map
       set_functions set_structs set_globals set_typedefs set_macros set_enums
       print set_log];
  repeat split; try assumption; apply Forall_snoc; try assumption; reflexivity.

Lemma extract_enums_kinds source st : kinds_ok st -> kinds_ok (extract_enums source st).
Proof. unfold extract_enums. apply fold_left_inv. kinds_body. Qed.

Lemma extract_functions_kinds source st :
  kinds_ok st -> kinds_ok (extract_functions source st).
Proof. unfold extract_functions. apply fold_left_inv. kinds_body. Qed.

Lemma extract_structs_kinds source st : kinds_ok st -> kinds_ok (extract_structs source st).
Proof. unfold extract_structs. apply fold_left_inv. kinds_body. Qed.

Lemma extract_globals_kinds source st : kinds_ok st -> kinds_ok (extract_globals source st).
Proof. unfold extract_globals. apply fold_left_inv. kinds_body. Qed.

Lemma extract_typedefs_kinds source st :
  kinds_ok st -> kinds_ok (extract_typedefs source st).
Proof. unfold extract_typedefs. apply fold_left_inv. kinds_body. Qed.

Lemma extract_macros_kinds source st : kinds_ok st -> kinds_ok (extract_macros source st).
Proof. unfold extract_macros. apply fold_left_inv. kinds_body. Qed.

Lemma extract_loop_kinds source fuel :
  forall ds st, kinds_ok st -> kinds_ok (extract_conditionals_loop fuel source ds st).
Proof.
  induction fuel as [|fuel IH]; intros ds st H; cbn; [exact H|].
  destruct ds as [|[ln d] tl]; [exact H|].
  destruct (Py.startswith d "#if").
  - destruct (scan_block tl 1 [(ln, d)]) as [[[e b] rest]|].
    + apply IH. exact H.
    + exact H.
  - apply IH. exact H.
Qed.

Lemma extract_symbols_kinds source : kinds_ok (extract_symbols source init_state).
Proof.
  unfold extract_symbols.
  apply extract_macros_kinds, extract_typedefs_kinds, extract_globals_kinds,
    extract_structs_kinds, extract_functions_kinds.
  unfold extract_conditionals. apply extract_loop_kinds, extract_enums_kinds.
  repeat split; constructor.
Qed.

Lemma dict_append_placed_new k e o : placed k e (dict_append k e o).
Proof.
  induction o as [|[k' l] o IH]; cbn [dict_append].
  - exists [e]. split; left; reflexivity.
  - destruct (String.eqb k' k) eqn:E.
    + apply String.eqb_eq in E. subst k'. exists (l ++ [e]). split; [left; reflexivity|].
      apply in_or_app. right. left. reflexivity.
    + destruct IH as [els [H1 H2]]. exists els. split; [right; exact H1|exact H2].
Qed.

Lemma dict_append_placed_old k' e' k e o :
  placed k e o -> placed k e (dict_append k' e' o).
Proof.
  induction o as [|[k0 l] o IH]; intros [els [H1 H2]]; cbn [dict_append].
  - destruct H1.
  - destruct H1 as [H1|H1].
    + injection H1 as -> ->. destruct (String.eqb k k') eqn:E.
      * apply String.eqb_eq in E. subst k'. exists (els ++ [e']).
        split; [left; reflexivity|apply in_or_app; left; exact H2].
      * exists els. split; [left; reflexivity|exact H2].
    + destruct (String.eqb k0 k') eqn:E.
      * exists els. split; [right; exact H1|exact H2].
      * destruct IH as [els' [H3 H4]]; [exists els; split; assumption|].
        exists els'. split; [right; exact H3|exact H4].
Qed.

Lemma map_elements_output choose l :
  forall st,
    output_files (map_elements choose l st)
    = fold_left (fun o e => dict_append (choose e) e o) l (output_files st).
Proof.
  unfold map_elements. induction l as [|x l IH]; intro st; cbn [fold_left]; [reflexivity|].
  rewrite IH. reflexivity.
Qed.

Lemma fold_append_keeps {B : Type} (key : B -> string) (el : B -> Element)
    (l : list B) k e :
  forall o, placed k e o ->
            placed k e (fold_left (fun o x => dict_append (key x) (el x) o) l o).
Proof.
  induction l as [|x l IH]; intros o H; cbn [fold_left]; [exact H|].
  apply IH, dict_append_placed_old, H.
Qed.

Lemma fold_append_places {B : Type} (key : B -> string) (el : B -> Element)
    (l : list B) x :
  In x l ->
  forall o, placed (key x) (el x) (fold_left (fun o x => dict_append (key x) (el x) o) l o).
Proof.
  induction l as [|y l IH]; intros Hin o; [destruct Hin|].
  cbn [fold_left]. destruct Hin as [->|Hin].
  - apply fold_append_keeps, dict_append_placed_new.
  - apply IH, Hin.
Qed.

Lemma map_elements_places choose l st e :
  In e l -> placed (choose e) e (output_files (map_elements choose l st)).
Proof.
  intro H. rewrite map_elements_output.
  exact (fold_append_places choose (fun x => x) l e H (output_files st)).
Qed.

Lemma map_elements_keeps_placed choose l st k e :
  placed k e (output_files st) -> placed k e (output_files (map_elements choose l st)).
Proof.
  intro H. rewrite map_elements_output.
  exact (fold_append_keeps choose (fun x => x) l k e (output_files st) H).
Qed.

Lemma map_conditionals_keeps_placed st k e :
  placed k e (output_files st) -> placed k e (output_files (_map_conditionals st)).
Proof.
  intro H. unfold _map_conditionals.
  rewrite (map_conditionals_spec (symbol_map st)) by reflexivity.
  apply (fold_append_keeps fst snd). exact H.
Qed.

Lemma sorting_keeps_placed k e o :
  placed k e o -> placed k e (map (fun kv => (fst kv, sort_by_start (snd kv))) o).
Proof.
  intros [els [H1 H2]]. exists (sort_by_start els). split.
  - apply in_map_iff. exists (k, els). split; [reflexivity|exact H1].
  - apply (Permutation_in _ (Permutation_sym (sort_by_start_perm els))). exact H2.
Qed.

(** Where the six mapping loops put the symbols. *)
Lemma symbols_placed (st0 : state) (e : Element) :
  let st := map_symbols_to_components st0 in
  (In e (functions st0) -> placed (function_component e) e (output_files st))
  /\ (In e (structs st0) -> placed (struct_component e) e (output_files st))
  /\ (In e (enums st0) -> placed (enum_component e) e (output_files st))
  /\ (In e (typedefs st0) -> placed (typedef_component e) e (output_files st))
  /\ (In e (globals st0) -> placed (global_component e) e (output_files st))
  /\ (In e (macros st0) -> placed (macro_component e) e (output_files st)).
Proof.
  cbv zeta. unfold map_symbols_to_components. cbn [output_files set_output_files].
  unfold _map_macros, _map_globals, _map_typedefs, _map_enums, _map_structs, _map_functions.
  map_fields.
  repeat split; intro H; apply sorting_keeps_placed, map_conditionals_keeps_placed.
  - do 5 apply map_elements_keeps_placed. apply map_elements_places, H.
  - do 4 apply map_elements_keeps_placed. apply map_elements_places, H.
  - do 3 apply map_elements_keeps_placed. apply map_elements_places, H.
  - do 2 apply map_elements_keeps_placed. apply map_elements_places, H.
  - do 1 apply map_elements_keeps_placed. apply map_elements_places, H.
  - apply map_elements_places, H.
Qed.

(** *** The implementation file *)

Lemma fold_emit_contains (x : string) (g : Element -> string) (l : list Element) :
  forall ic,
    Py.contains ic x = true \/ (exists e, In e l /\ g e = x) ->
    Py.contains (fold_left (fun ic elem => ic +++ g elem) l ic) x = true.
Proof.
  induction l as [|y l IH]; intros ic H; cbn [fold_left].
  - destruct H as [H|[e [[] _]]]. exact H.
  - apply IH. destruct H as [H|[e [[->|Hin] He]]].
    + left. apply contains_extend, H.
    + left. apply contains_skip. rewrite He. rewrite <- (append_nil_r x) at 1.
      apply contains_here.
    + right. exists e. split; assumption.
Qed.

Lemma impl_of_emits k els hdr e :
  In e (impl_elements_of els hdr) ->
  Py.contains (impl_of k els hdr) (emit_impl_element (fix_impl_element e)) = true.
Proof.
  intro H. unfold impl_of. apply fold_emit_contains. right.
  exists (fix_impl_element e). split; [|reflexivity].
  apply (Permutation_in _ (Permutation_sym (sort_by_start_perm _))).
  apply in_map. exact H.
Qed.

Lemma impl_of_code k els hdr e :
  In e els -> type e = TFunction \/ type e = TGlobal ->
  Py.contains (impl_of k els hdr) (emit_impl_element e) = true.
Proof.
  intros Hin Ht.
  assert (F : fix_impl_element e = e)
    by (unfold fix_impl_element; destruct Ht as [-> | ->]; reflexivity).
  rewrite <- F. apply impl_of_emits. unfold impl_elements_of.
  apply filter_In. split; [exact Hin|]. destruct Ht as [-> | ->]; reflexivity.
Qed.

(** A run that completes has written every component. *)
Lemma completed_run_files source fs :
  let st := map_symbols_to_components (extract_symbols source init_state) in
  snd (create_output_files st fs) = None ->
  forall k els,
    In (k, els) (output_files st) ->
    rebinds els = false
    /\ exists h,
        fst (header_of st k els) = PStr h
        /\ dict_get (h_path k) (fst (create_output_files st fs)) = Some h
        /\ dict_get (c_path k) (fst (create_output_files st fs))
           = Some (impl_of k els (snd (header_of st k els))).
Proof.
  intros st Hc k els Hin.
  unfold create_output_files in *. rewrite write_components_outcome in Hc.
  destruct (existsb (fun kv => rebinds (snd kv)) (output_files st)) eqn:Hr;
    [discriminate Hc|].
  split.
  - destruct (rebinds els) eqn:E; [|reflexivity].
    assert (X : existsb (fun kv => rebinds (snd kv)) (output_files st) = true)
      by (apply existsb_exists; exists (k, els); split; [exact Hin|exact E]).
    congruence.
  - exact (proj1 (write_components_files st (output_files st) (_create_common_header st fs)
                    (run_keys_distinct source) Hr) k els Hin).
Qed.

(** *** The header file *)

Lemma header_step_keeps_elements k acc e x :
  In x (snd acc) -> In x (snd (header_step k acc e)).
Proof.
  intro H. destruct acc as [hc he]. unfold header_step. cbn [snd] in H.
  repeat match goal with
         | |- context [match ?b with _ => _ end] => destruct b
         end; cbn [snd]; try exact H; apply in_or_app; left; exact H.
Qed.

Lemma header_step_takes_over k acc e :
  taken_over k e = true -> In e (snd (header_step k acc e)).
Proof.
  destruct acc as [hc he]. unfold taken_over, defined_with_module, header_step.
  destruct (type e); try discriminate; intro H; cbn [snd];
    try (apply in_or_app; right; left; reflexivity).
  destruct (String.eqb k "nn_types"
            && Py.mem (name e) ["SOD_CNN_LAYER_TYPE"; "learning_rate_policy"; "COST_TYPE"]);
    [discriminate H|].
  destruct (String.eqb k "activation" && String.eqb (name e) "ACTIVATION");
    [discriminate H|].
  cbn [snd]. apply in_or_app. right. left. reflexivity.
Qed.

Lemma header_fold_takes_over k els e :
  forall acc,
    In e (snd acc) \/ (In e els /\ taken_over k e = true) ->
    In e (snd (fold_left (header_step k) els acc)).
Proof.
  induction els as [|y els IH]; intros acc H; cbn [fold_left].
  - destruct H as [H|[[] _]]. exact H.
  - apply IH. destruct H as [H|[[->|Hin] Ht]].
    + left. apply header_step_keeps_elements, H.
    + left. apply header_step_takes_over, Ht.
    + right. split; assumption.
Qed.

Lemma close_all_keeps l e :
  In e l -> type e <> TConditional -> In e (close_all l).
Proof.
  intros Hin Ht. unfold close_all. apply in_map_iff. exists e. split; [|exact Hin].
  destruct (type e); try reflexivity. contradiction Ht. reflexivity.
Qed.

Lemma header_elements_take_over st k els e :
  In e els -> taken_over k e = true -> In e (snd (header_of st k els)).
Proof.
  intros Hin Ht. unfold header_of.
  match goal with
  | |- context [fold_left (header_step k) els ?a] =>
      pose proof (header_fold_takes_over k els e a (or_intror (conj Hin Ht))) as H;
      destruct (fold_left (header_step k) els a) as [hh he]
  end.
  cbn [snd] in *. apply close_all_keeps; [exact H|].
  unfold taken_over in Ht. destruct (type e); discriminate.
Qed.

Lemma dict_get_of_In {V : Type} (k : string) (v : V) (d : list (string * V)) :
  NoDup (map fst d) -> In (k, v) d -> dict_get k d = Some v.
Proof.
  induction d as [|[k' v'] d IH]; intros Hnd Hin; [destruct Hin|].
  cbn [dict_get]. cbn [map fst] in Hnd. inversion Hnd as [|? ? Hn Hnd']; subst.
  destruct Hin as [E|Hin].
  - injection E as -> ->. rewrite String.eqb_refl. reflexivity.
  - destruct (String.eqb k' k) eqn:E.
    + apply String.eqb_eq in E. subst k'. contradiction Hn.
      apply in_map_iff. exists (k, v). split; [reflexivity|exact Hin].
    + apply IH; assumption.
Qed.

Lemma module_definitions_contain st k els e :
  dict_get k (output_files st) = Some els ->
  In e els -> type e = TEnum ->
  Py.contains (_extract_module_definitions st k) (content e +++ Py.nl +++ Py.nl) = true.
Proof.
  intros Hg Hin Ht. unfold _extract_module_definitions. rewrite Hg.
  set (x := content e +++ Py.nl +++ Py.nl).
  enough (G : forall l acc,
             Py.contains acc x = true \/ In e l ->
             Py.contains
               (fold_left (fun definitions elem =>
                             match type elem with
                             | TEnum => definitions +++ content elem +++ Py.nl +++ Py.nl
                             | _ => definitions
                             end) l acc) x = true)
    by (apply G; right; exact Hin).
  induction l as [|y l IH]; intros acc H; cbn [fold_left].
  - destruct H as [H|[]]. exact H.
  - apply IH. destruct H as [H|[->|H]].
    + left. destruct (type y); try exact H. apply contains_extend, H.
    + left. rewrite Ht. apply contains_skip. unfold x.
      rewrite <- (append_nil_r (content e +++ Py.nl +++ Py.nl)) at 1.
      apply contains_here.
    + right. exact H.
Qed.

Lemma contains_nonempty (s a b : string) :
  Py.contains s (a +++ Py.nl +++ b) = true -> String.eqb s EmptyString = false.
Proof.
  destruct s; [|reflexivity]. destruct a; cbn; discriminate.
Qed.

Lemma header_of_start st k els :
  rebinds els = false ->
  exists hc,
    fst (header_of st k els)
    = PStr (hc +++ str_concat (map (fun e => content e +++ Py.nl +++ Py.nl)
                                   (sort_by_start (snd (header_of st k els))))
            +++ closing_guard k)
    /\ hc = (if String.eqb k "nn_types"
                && negb (String.eqb (_extract_module_definitions st "nn_types") EmptyString)
             then header_prologue k +++ _extract_module_definitions st "nn_types"
                    +++ Py.nl +++ Py.nl
             else if String.eqb k "activation"
                     && negb (String.eqb (_extract_module_definitions st "activation")
                                EmptyString)
             then header_prologue k +++ _extract_module_definitions st "activation"
                    +++ Py.nl +++ Py.nl
             else header_prologue k).
Proof.
  intro Hr. unfold header_of.
  match goal with
  | |- context [fold_left (header_step k) els (PStr ?a, [])] =>
      set (hc := a);
      pose proof (header_fold_keeps_text k els Hr (PStr hc, [])) as E;
      destruct (fold_left (header_step k) els (PStr hc, [])) as [h he]
  end.
  cbn [fst snd] in *. subst h. exists hc. split; [|reflexivity].
  rewrite fold_iadd_str. cbn [iadd]. unfold closing_guard.
  rewrite !append_assoc. reflexivity.
Qed.

(** The header of a component holds the text of each of its structs,
    enums, typedefs and macros. *)
Lemma header_holds_declarations st k els e h :
  distinct_keys st ->
  In (k, els) (output_files st) ->
  In e els ->
  type e = TStruct \/ type e = TEnum \/ type e = TTypedef \/ type e = TMacro ->
  fst (header_of st k els) = PStr h ->
  Py.contains h (content e +++ Py.nl +++ Py.nl) = true.
Proof.
  intros Hnd Hk Hin Ht Hh.
  assert (Hr : rebinds els = false).
  { rewrite <- header_of_is_list with (st := st) (k := k). rewrite Hh. reflexivity. }
  destruct (header_of_start st k els Hr) as [hc [E Ehc]].
  assert (E' : h = hc +++ str_concat (map (fun e => content e +++ Py.nl +++ Py.nl)
                                         (sort_by_start (snd (header_of st k els))))
                   +++ closing_guard k)
    by (rewrite Hh in E; congruence).
  rewrite E'. clear E E' Hh.
  destruct (taken_over k e) eqn:Hto.
  - apply contains_skip, contains_extend, contains_concat.
    apply in_map_iff. exists e. split; [reflexivity|].
    apply (Permutation_in _ (Permutation_sym (sort_by_start_perm _))).
    apply header_elements_take_over; assumption.
  - assert (Hte : type e = TEnum).
    { unfold taken_over in Hto. destruct Ht as [Ht|[Ht|[Ht|Ht]]]; rewrite Ht in Hto;
        try discriminate Hto. exact Ht. }
    unfold taken_over in Hto. rewrite Hte in Hto. apply negb_false_iff in Hto.
    pose proof (module_definitions_contain st k els e (dict_get_of_In k els _ Hnd Hk)
                  Hin Hte) as Hd.
    pose proof (contains_nonempty _ _ _ Hd) as Hne.
    apply contains_extend.
    unfold defined_with_module in Hto. apply orb_true_iff in Hto.
    destruct Hto as [Hto|Hto]; apply andb_true_iff in Hto; destruct Hto as [Hk' _];
      apply String.eqb_eq in Hk'; subst k; rewrite Ehc.
    + rewrite String.eqb_refl, Hne. cbn [negb andb].
      apply contains_skip, contains_extend, Hd.
    + change (String.eqb "activation" "nn_types") with false. cbn [andb].
      rewrite String.eqb_refl, Hne. cbn [negb andb].
      apply contains_skip, contains_extend, Hd.
Qed.

(** X26.  When synthesis completes, the text of every extracted struct, enum, typedef and macro, followed by an empty line, is in the header file of the component its classifier chose. *)
Theorem extracted_declarations_reach_their_header :
  forall (source : string) (fs : files) (e : Element),
    let st0 := extract_symbols source init_state in
    let st := map_symbols_to_components st0 in
    let fs' := fst (create_output_files st fs) in
    let in_header_of (file_key : string) :=
      exists h, dict_get (h_path file_key) fs' = Some h
                /\ Py.contains h (content e +++ Py.nl +++ Py.nl) = true in
    snd (create_output_files st fs) = None ->
    (In e (structs st0) -> in_header_of (struct_component e))
    /\ (In e (enums st0) -> in_header_of (enum_component e))
    /\ (In e (typedefs st0) -> in_header_of (typedef_component e))
    /\ (In e (macros st0) -> in_header_of (macro_component e)).
Proof.
  intros source fs e st0 st fs' in_header_of Hc.
  destruct (extract_symbols_kinds source) as [_ [Ks [Ke [Kt [_ Km]]]]].
  fold st0 in Ks, Ke, Kt, Km. rewrite Forall_forall in Ks, Ke, Kt, Km.
  destruct (symbols_placed st0 e) as [_ [Ps [Pe [Pt [_ Pm]]]]].
  assert (G : forall k, placed k e (output_files st) ->
                        type e = TStruct \/ type e = TEnum \/ type e = TTypedef
                        \/ type e = TMacro ->
                        in_header_of k).
  { intros k [els [Hk Hin]] Ht.
    destruct (completed_run_files source fs Hc k els Hk) as [_ [h [Hh [Hf _]]]].
    exists h. split; [exact Hf|].
    apply (header_holds_declarations st k els e h (run_keys_distinct source) Hk Hin Ht Hh). }
  repeat split; intro H; apply G; auto.
Qed.

(** *** Conditionals *)

Lemma header_step_no_conditional k acc e :
  etype_eqb (type e) TConditional && declares (content e) = false ->
  Forall (fun x => type x <> TConditional) (snd acc) ->
  Forall (fun x => type x <> TConditional) (snd (header_step k acc e)).
Proof.
  intros Hd H. destruct acc as [hc he]. unfold header_step. cbn [snd] in H.
  destruct (type e) eqn:Ht; cbn [snd]; try exact H;
    try (apply Forall_snoc; [exact H|rewrite Ht; discriminate]).
  - repeat match goal with
           | |- context [if ?b then _ else _] => destruct b
           end; cbn [snd]; try exact H.
    apply Forall_snoc; [exact H|rewrite Ht; discriminate].
  - cbn [etype_eqb andb] in Hd. unfold declares in Hd. rewrite Hd. exact H.
  - destruct (declaration_of e); [|exact H].
    destruct (negb (Py.startswith s "static")); [|exact H].
    cbn [snd]. apply Forall_snoc; [exact H|cbn; discriminate].
Qed.

Lemma header_fold_no_conditional k els :
  rebinds els = false ->
  forall acc,
    Forall (fun x => type x <> TConditional) (snd acc) ->
    Forall (fun x => type x <> TConditional) (snd (fold_left (header_step k) els acc)).
Proof.
  induction els as [|y els IH]; intros Hr acc H; cbn [fold_left]; [exact H|].
  unfold rebinds in Hr. cbn [existsb] in Hr. apply orb_false_iff in Hr.
  destruct Hr as [Hy Hr]. apply IH; [exact Hr|].
  apply header_step_no_conditional; assumption.
Qed.

Lemma header_has_no_conditional st k els :
  rebinds els = false ->
  Forall (fun x => type x <> TConditional) (snd (header_of st k els)).
Proof.
  intro Hr. unfold header_of.
  match goal with
  | |- context [fold_left (header_step k) els ?a] =>
      pose proof (header_fold_no_conditional k els Hr a (Forall_nil _)) as H;
      destruct (fold_left (header_step k) els a) as [hh he]
  end.
  cbn [snd] in *. unfold close_all. rewrite Forall_forall in *.
  intros x Hx. apply in_map_iff in Hx. destruct Hx as [y [<- Hy]].
  specialize (H y Hy). destruct (type y) eqn:Ty; try (rewrite Ty; discriminate).
  contradiction H. reflexivity.
Qed.

Lemma conditional_is_implementation st k els c :
  rebinds els = false -> In c els -> type c = TConditional ->
  In c (impl_elements_of els (snd (header_of st k els))).
Proof.
  intros Hr Hin Ht. unfold impl_elements_of. apply filter_In. split; [exact Hin|].
  rewrite Ht. apply negb_true_iff. unfold any.
  destruct (existsb (fun e => elem_eqb e c) (snd (header_of st k els))) eqn:E;
    [|reflexivity].
  apply existsb_exists in E. destruct E as [x [Hx Hxc]].
  pose proof (header_has_no_conditional st k els Hr) as F.
  rewrite Forall_forall in F. specialize (F x Hx).
  unfold elem_eqb in Hxc. repeat (apply andb_true_iff in Hxc; destruct Hxc as [Hxc ?]).
  rewrite Ht in *. destruct (type x); try discriminate. contradiction F. reflexivity.
Qed.

(** X27.  When synthesis completes, every extracted function and global is in the implementation file of the component its classifier chose, a function as the text emitted for it, and every extracted conditional is in the implementation file of some component. *)
Theorem extracted_code_reaches_an_implementation_file :
  forall (source : string) (fs : files) (e : Element),
    let st0 := extract_symbols source init_state in
    let st := map_symbols_to_components st0 in
    let fs' := fst (create_output_files st fs) in
    let in_file_of (file_key text : string) :=
      exists body, dict_get (c_path file_key) fs' = Some body
                   /\ Py.contains body text = true in
    snd (create_output_files st fs) = None ->
    (In e (functions st0) -> in_file_of (function_component e) (emit_impl_element e))
    /\ (In e (globals st0) ->
        in_file_of (global_component e) (content e +++ Py.nl +++ Py.nl))
    /\ (In e (conditionals st0) ->
        exists file_key,
          In file_key (map fst (output_files st))
          /\ in_file_of file_key (emit_impl_element (fix_impl_element e))).
Proof.
  intros source fs e st0 st fs' in_file_of Hc.
  destruct (extract_symbols_kinds source) as [Kf [_ [_ [_ [Kg _]]]]].
  fold st0 in Kf, Kg. rewrite Forall_forall in Kf, Kg.
  destruct (symbols_placed st0 e) as [Pf [_ [_ [_ [Pg _]]]]].
  assert (G : forall k, placed k e (output_files st) ->
                        type e = TFunction \/ type e = TGlobal ->
                        in_file_of k (emit_impl_element e)).
  { intros k [els [Hk Hin]] Ht.
    destruct (completed_run_files source fs Hc k els Hk) as [_ [h [_ [_ Hf]]]].
    eexists. split; [exact Hf|]. apply impl_of_code; assumption. }
  split; [|split].
  - intro H. apply G; auto.
  - intro H. specialize (G _ (Pg H) (or_intror (Kg e H))).
    unfold emit_impl_element in G. rewrite (Kg e H) in G. exact G.
  - intro H.
    assert (Hin : In e (concat (map snd (output_files st)))).
    { apply (Permutation_in _ (Permutation_sym (run_elements_perm source))).
      fold st0. repeat (apply in_or_app; right). exact H. }
    apply in_concat in Hin. destruct Hin as [els [Hels Hin]].
    apply in_map_iff in Hels. destruct Hels as [[k els'] [E Hk]]. cbn [snd] in E. subst els'.
    destruct (completed_run_files source fs Hc k els Hk) as [Hr [h [_ [_ Hf]]]].
    exists k. split; [apply in_map_iff; exists (k, els); split; [reflexivity|exact Hk]|].
    eexists. split; [exact Hf|]. apply impl_of_emits.
    apply conditional_is_implementation; [exact Hr|exact Hin|].
    pose proof (extracted_segments source) as Hseg. fold st0 in Hseg.
    destruct (segments_distinct source _ _ Hseg 0 (directive_lines_ok source))
      as [_ [_ Hcan]].
    rewrite Forall_forall in Hcan. exact (proj1 (Hcan e H)).
Qed.


(** ** The repair of braces *)

Lemma split_go_app (c : ascii) (a s : string) :
  forall cur,
    Py.split_go c (a +++ String c s) cur = Py.split_go c a cur ++ Py.split_go c s EmptyString.
Proof.
  induction a as [|x a IH]; intro cur; cbn [String.append Py.split_go].
  - rewrite Ascii.eqb_refl. reflexivity.
  - destruct (Ascii.eqb x c); [rewrite IH; reflexivity|apply IH].
Qed.

Lemma free_of_repeat_brace n : free_of "010" (Py.repeat_str "}" n +++ brace_line_note).
Proof.
  unfold free_of. rewrite count_char_append.
  replace (Py.count_char "010" brace_line_note) with 0 by reflexivity.
  induction n as [|n IH]; [reflexivity|].
  cbn [Py.repeat_str String.append Py.count_char]. exact IH.
Qed.

Lemma scan_note (p : option ascii) (co : bool) (b : Z) :
  scan_line brace_line_note p false co b = (false, b).
Proof. destruct p as [p|]; destruct co; reflexivity. Qed.

Lemma scan_brace (d : ascii) (tl : string) (p : option ascii) (co : bool) (b : Z) :
  scan_line (String "}" (String d tl)) p false co b
  = scan_line (String d tl) (Some "}"%char) false co (if co then b else (b - 1)%Z).
Proof. destruct co; reflexivity. Qed.

Lemma scan_closers n :
  forall (p : option ascii) (co : bool) (b : Z),
    scan_line (Py.repeat_str "}" n +++ brace_line_note) p false co b
    = (false, if co then b else (b - Z.of_nat n)%Z).
Proof.
  induction n as [|n IH]; intros p co b.
  - cbn [Py.repeat_str String.append]. rewrite scan_note.
    destruct co; [reflexivity|f_equal; cbn; lia].
  - cbn [Py.repeat_str]. rewrite append_assoc.
    assert (E : exists d tl, Py.repeat_str "}" n +++ brace_line_note = String d tl).
    { destruct n; cbn [Py.repeat_str String.append]; eexists; eexists; reflexivity. }
    destruct E as [d [tl E]].
    specialize (IH (Some "}"%char) co).
    rewrite E in *. cbn [String.append]. rewrite scan_brace, IH.
    destruct co; f_equal. lia.
Qed.

Lemma lines_after_adding (body : string) (n : nat) :
  Py.split "010" (body +++ Py.nl +++ Py.repeat_str "}" n +++ brace_line_note +++ Py.nl)
  = Py.split "010" body ++ [Py.repeat_str "}" n +++ brace_line_note; EmptyString].
Proof.
  unfold Py.split, Py.nl. cbn [String.append]. rewrite split_go_app. f_equal.
  rewrite <- append_assoc, split_go_app. cbn [Py.split_go app].
  pose proof (split_join "010" [Py.repeat_str "}" n +++ brace_line_note]) as H.
  cbn [Py.join] in H. unfold Py.split in H. rewrite H; [reflexivity|discriminate|].
  constructor; [apply free_of_repeat_brace|constructor].
Qed.

Lemma fold_scan_app (l1 l2 : list string) (st : bool * Z) :
  fold_left (fun st line => scan_line line None false (fst st) (snd st)) (l1 ++ l2) st
  = fold_left (fun st line => scan_line line None false (fst st) (snd st)) l2
      (fold_left (fun st line => scan_line line None false (fst st) (snd st)) l1 st).
Proof. apply fold_left_app. Qed.

(** X28.  When the brace count of a text is positive, the closing braces that the repair adds bring the count to zero, unless the text ends inside a block comment: then they are not counted and the count stays as it was. *)
Theorem added_braces_balance_outside_comments :
  forall body : string,
    (0 < brace_balance_of (Py.split "010" body))%Z ->
    brace_balance_of (Py.split "010" (fst (fix_braces body)))
    = if comment_open_after (Py.split "010" body)
      then brace_balance_of (Py.split "010" body)
      else 0%Z.
Proof.
  intros body Hb. unfold fix_braces.
  apply Z.ltb_lt in Hb. rewrite Hb. cbn [fst]. apply Z.ltb_lt in Hb.
  fold brace_line_note. rewrite lines_after_adding.
  unfold brace_balance_of, comment_open_after in *. rewrite fold_scan_app.
  destruct (fold_left (fun st line => scan_line line None false (fst st) (snd st))
                      (Py.split "010" body) (false, 0%Z)) as [co b].
  cbn [fst snd fold_left] in *. rewrite scan_closers. cbn [fst snd scan_line].
  destruct co; [reflexivity|]. rewrite Z2Nat.id by lia. lia.
Qed.


(** ** The groups of conditionals *)

Lemma name_groups_named (l : list Element) :
  Forall (fun kv => snd kv <> [] /\ Forall (fun e => name e = fst kv) (snd kv))
         (name_groups l).
Proof.
  unfold name_groups.
  apply fold_left_inv with
    (P := Forall (fun kv : string * list Element =>
                    snd kv <> [] /\ Forall (fun e => name e = fst kv) (snd kv)));
    [|constructor].
  intros d e H. induction d as [|[k g] d IH]; cbn [dict_append].
  - constructor; [|constructor]. cbn. split; [discriminate|]. repeat constructor.
  - inversion H as [|? ? [H1 H2] H3]; subst. cbn [fst snd] in *.
    destruct (String.eqb k (name e)) eqn:E.
    + apply String.eqb_eq in E. constructor; [|exact H3]. cbn [fst snd]. split.
      * destruct g; discriminate.
      * apply Forall_snoc; [exact H2|symmetry; exact E].
    + constructor; [split; assumption|apply IH, H3].
Qed.

Lemma append_last_snoc e (done : list (list Element)) g :
  append_last e (done ++ [g]) = done ++ [g ++ [e]].
Proof.
  induction done as [|d done IH]; [reflexivity|].
  cbn [app append_last]. rewrite IH.
  destruct (done ++ [g]) eqn:E; [destruct done; discriminate E|reflexivity].
Qed.

Lemma gather_step_gathering nm c gs other :
  name other = nm -> gathering nm gs -> gathering nm (gather_step c gs other).
Proof.
  intros Hn H. destruct (gather_step_cases c gs other) as [-> | [-> _]]; [exact H|].
  destruct H as [done [g [-> [Hd [Hg Hf]]]]]. rewrite append_last_snoc.
  exists done, (g ++ [other]). repeat split; try assumption.
  - destruct g; discriminate.
  - apply Forall_snoc; assumption.
Qed.

Lemma gathering_uniform nm gs : gathering nm gs -> Forall uniform gs.
Proof.
  intros [done [g [-> [Hd [Hg Hf]]]]]. apply Forall_app. split; [exact Hd|].
  constructor; [|constructor]. split; [exact Hg|exists nm; exact Hf].
Qed.

Lemma gather_related_uniform nm c conds gs :
  Forall (fun e => name e = nm) conds -> name c = nm -> Forall uniform gs ->
  Forall uniform (gather_related c conds (gs ++ [[c]])).
Proof.
  intros Hc Hn Hu. apply (gathering_uniform nm). unfold gather_related.
  apply fold_left_inv_in with (P := gathering nm).
  - intros a x Hx Ha. apply gather_step_gathering; [|exact Ha].
    rewrite Forall_forall in Hc. apply Hc, Hx.
  - exists gs, [c]. repeat split; try assumption; [discriminate|].
    constructor; [exact Hn|constructor].
Qed.

Lemma group_plain_uniform nm conds gs :
  Forall (fun e => name e = nm) conds -> Forall uniform gs ->
  Forall uniform (group_plain conds gs).
Proof.
  intros Hc Hu. unfold group_plain.
  apply fold_left_inv_in with (P := Forall uniform); [|exact Hu].
  intros a x Hx Ha. unfold plain_step. destruct (in_some_group x a); [exact Ha|].
  apply (gather_related_uniform nm); try assumption.
  rewrite Forall_forall in Hc. apply Hc, Hx.
Qed.

Lemma groups_uniform (st : state) : Forall uniform (_group_related_conditionals st).
Proof.
  unfold _group_related_conditionals.
  apply fold_left_inv_in with (P := Forall uniform); [|constructor].
  intros gs [nm l] Hin Hu.
  pose proof (name_groups_named (conditionals st)) as H. rewrite Forall_forall in H.
  destruct (H _ Hin) as [H1 H2]. cbn [fst snd] in *.
  unfold name_step. cbn [fst snd].
  destruct (Py.startswith nm "multipart_conditional_").
  - apply Forall_app. split; [exact Hu|]. constructor; [|constructor].
    split; [exact H1|exists nm; exact H2].
  - apply (group_plain_uniform nm); assumption.
Qed.

(** X29.  On any source text the extracted conditionals are pairwise distinct, the groups of [_group_related_conditionals] hold each of them exactly once, no group is empty, and the members of a group have one name. *)
Theorem grouping_partitions_the_conditionals :
  forall source : string,
    let st := mapped_symbols (extract_symbols source init_state) in
    Permutation (concat (_group_related_conditionals st)) (conditionals st)
    /\ NoDup (conditionals st)
    /\ Forall (fun group =>
                 group <> []
                 /\ exists nm, Forall (fun e => name e = nm) group)
              (_group_related_conditionals st).
Proof.
  intros source st.
  pose proof (extracted_segments source) as Hseg.
  destruct (segments_distinct source _ _ Hseg 0 (directive_lines_ok source))
    as [Hnd [_ Hcan]].
  assert (Hc : conditionals st = conditionals (extract_symbols source init_state))
    by apply mapped_symbols_conditionals.
  rewrite <- Hc in Hnd, Hcan.
  split; [apply groups_partition; assumption|]. split; [exact Hnd|].
  exact (groups_uniform st).
Qed.


(** ** The repair of redefinitions *)

Lemma removed_definition_no_if line : match_ if_line_rx (removed_definition line) = None.
Proof. reflexivity. Qed.

Lemma removed_definition_no_endif line :
  match_ endif_line_rx (removed_definition line) = None.
Proof. reflexivity. Qed.

Lemma removed_definition_no_define line :
  match_ define_line_rx (removed_definition line) = None.
Proof. reflexivity. Qed.

Lemma space_prefix_unique (P : ascii -> bool) (w w' : list ascii) a a' r r' :
  Forall (fun x => P x = true) w -> Forall (fun x => P x = true) w' ->
  P a = false -> P a' = false ->
  w ++ a :: r = w' ++ a' :: r' -> w = w' /\ a = a' /\ r = r'.
Proof.
  intros Hw. revert w'. induction Hw as [|x w Hx Hw IH]; intros w' Hw' Ha Ha' E.
  - destruct Hw' as [|x' w' Hx' Hw']; cbn in E.
    + injection E as -> ->. repeat split.
    + injection E as -> _. congruence.
  - destruct Hw' as [|x' w' Hx' Hw']; cbn in E.
    + injection E as -> _. congruence.
    + injection E as -> E. destruct (IH w' Hw' Ha Ha' E) as [-> [-> ->]]. repeat split.
Qed.

(** The shape of a line that one of the three line patterns matches. *)
Lemma directive_line_shape (tail : regex) (line : string) (m : mobj) :
  match_ (Seq Bos (Seq (star ws) (Seq (Chr "#") (Seq (star ws) tail)))) line = Some m ->
  exists w1 w2 wt c' rest,
    list_ascii_of_string line = w1 ++ "#"%char :: w2 ++ wt ++ rest
    /\ Forall (fun x => class_has false [CSpace] x = true) w1
    /\ Forall (fun x => class_has false [CSpace] x = true) w2
    /\ sem tail wt [] c'.
Proof.
  intro H. unfold match_ in H. apply match_at_sound in H.
  destruct H as [w [Hs [[Hm _] _]]]. cbn [start_cursor c_rest] in Hm.
  apply sem_seq_inv in Hs. destruct Hs as [w0 [wa [c0 [-> [H0 Hs]]]]].
  apply sem_empty_inv in H0; [|right; left; reflexivity]. destruct H0 as [-> ->].
  apply sem_seq_inv in Hs. destruct Hs as [w1 [wb [c1 [-> [H1 Hs]]]]].
  apply sem_star_cls in H1. destruct H1 as [H1 ->].
  apply sem_seq_inv in Hs. destruct Hs as [wh [wc [c2 [-> [Hh Hs]]]]].
  apply sem_chr_inv in Hh. destruct Hh as [-> ->].
  apply sem_seq_inv in Hs. destruct Hs as [w2 [wt [c3 [-> [H2 Hs]]]]].
  apply sem_star_cls in H2. destruct H2 as [H2 ->].
  exists w1, w2, wt, (m_caps m), (c_rest (m_after m)).
  repeat split; try assumption.
  rewrite Hm. cbn [app]. rewrite <- !app_assoc. cbn [app]. rewrite <- !app_assoc.
  reflexivity.
Qed.

Lemma define_line_is_no_other (line : string) (m : mobj) :
  match_ define_line_rx line = Some m ->
  match_ if_line_rx line = None /\ match_ endif_line_rx line = None.
Proof.
  intro Hd. apply directive_line_shape in Hd.
  destruct Hd as [w1 [w2 [wt [c' [rest [E [H1 [H2 Ht]]]]]]]].
  cbn [seqs] in Ht. apply sem_seq_inv in Ht. destruct Ht as [wd [wr [c1 [-> [Hl _]]]]].
  apply sem_lit in Hl. destruct Hl as [-> _]. cbn [list_ascii_of_string app] in E.
  split.
  - destruct (match_ if_line_rx line) as [m'|] eqn:Hi; [|reflexivity].
    apply directive_line_shape in Hi.
    destruct Hi as [v1 [v2 [vt [d' [rest' [E' [G1 [G2 Gt]]]]]]]].
    apply sem_lit in Gt. destruct Gt as [-> _]. cbn [list_ascii_of_string app] in E'.
    rewrite E in E'.
    apply (space_prefix_unique (class_has false [CSpace])) in E'; try assumption; try reflexivity.
    destruct E' as [_ [_ E']].
    apply (space_prefix_unique (class_has false [CSpace])) in E'; try assumption; try reflexivity.
    destruct E' as [_ [E' _]]. discriminate E'.
  - destruct (match_ endif_line_rx line) as [m'|] eqn:Hi; [|reflexivity].
    apply directive_line_shape in Hi.
    destruct Hi as [v1 [v2 [vt [d' [rest' [E' [G1 [G2 Gt]]]]]]]].
    apply sem_lit in Gt. destruct Gt as [-> _]. cbn [list_ascii_of_string app] in E'.
    rewrite E in E'.
    apply (space_prefix_unique (class_has false [CSpace])) in E'; try assumption; try reflexivity.
    destruct E' as [_ [_ E']].
    apply (space_prefix_unique (class_has false [CSpace])) in E'; try assumption; try reflexivity.
    destruct E' as [_ [E' _]]. discriminate E'.
Qed.

Lemma redef_step_again (s1 s2 : redef_state) (line : string) :
  same_scan s1 s2 -> redef_fixed s2 = false ->
  exists s2',
    redef_step s2 (snd (redef_step s1 line)) = (s2', snd (redef_step s1 line))
    /\ same_scan (fst (redef_step s1 line)) s2'
    /\ redef_fixed s2' = false.
Proof.
  destruct s1 as [defs guards stack f1], s2 as [defs2 guards2 stack2 f2].
  intros [Hd [Hg Hs]] Hf. cbn [macro_defs in_guard directive_stack redef_fixed] in *.
  subst defs2 guards2 stack2 f2.
  unfold redef_step at 2 3 4.
  cbn [macro_defs in_guard directive_stack redef_fixed].
  destruct (match_ define_line_rx line) as [m|] eqn:Hm.
  - destruct (define_line_is_no_other line m Hm) as [Hi He]. rewrite Hi, He.
    cbn [found].
    set (is_guarded :=
           match stack with
           | [] => false
           | _ :: _ =>
               found (search (seqs [lit "#ifndef"; plus ws; lit (group_str m 1)])
                             (last stack EmptyString))
           end).
    set (gs := if is_guarded then set_add (group_str m 1) guards else guards).
    destruct (negb is_guarded && negb (Py.mem (group_str m 1) gs)) eqn:Hc.
    + destruct (Py.mem (group_str m 1) defs) eqn:Hdef; cbn [fst snd].
      * fold (removed_definition line). unfold redef_step.
        rewrite removed_definition_no_if, removed_definition_no_endif,
          removed_definition_no_define.
        cbn [found macro_defs in_guard directive_stack redef_fixed].
        eexists. split; [reflexivity|]. split; [|reflexivity].
        repeat split. cbn [in_guard]. unfold gs.
        apply andb_true_iff in Hc. destruct Hc as [Hc _]. apply negb_true_iff in Hc.
        rewrite Hc. reflexivity.
      * unfold redef_step. rewrite Hm, Hi, He.
        cbn [found macro_defs in_guard directive_stack redef_fixed].
        fold is_guarded. fold gs. rewrite Hc, Hdef.
        eexists. split; [reflexivity|]. split; [|reflexivity]. repeat split.
    + cbn [fst snd]. unfold redef_step. rewrite Hm, Hi, He.
      cbn [found macro_defs in_guard directive_stack redef_fixed].
      fold is_guarded. fold gs. rewrite Hc.
      eexists. split; [reflexivity|]. split; [|reflexivity]. repeat split.
  - cbn [fst snd]. unfold redef_step. rewrite Hm.
    cbn [macro_defs in_guard directive_stack redef_fixed].
    eexists. split; [reflexivity|]. split; [|reflexivity]. repeat split.
Qed.

Lemma fix_redefinitions_unfold line tl st :
  fix_redefinitions (line :: tl) st
  = (snd (redef_step st line) :: fst (fix_redefinitions tl (fst (redef_step st line))),
     snd (fix_redefinitions tl (fst (redef_step st line)))).
Proof.
  cbn [fix_redefinitions]. destruct (redef_step st line) as [st' line'].
  cbn [fst snd]. destruct (fix_redefinitions tl st') as [r f]. reflexivity.
Qed.

Lemma fix_redefinitions_again (lines : list string) :
  forall s1 s2,
    same_scan s1 s2 -> redef_fixed s2 = false ->
    fix_redefinitions (fst (fix_redefinitions lines s1)) s2
    = (fst (fix_redefinitions lines s1), false).
Proof.
  induction lines as [|line tl IH]; intros s1 s2 Hs Hf.
  - cbn. rewrite Hf. reflexivity.
  - rewrite (fix_redefinitions_unfold line tl s1). cbn [fst].
    destruct (redef_step_again s1 s2 line Hs Hf) as [s2' [E [Hs' Hf']]].
    rewrite fix_redefinitions_unfold, E. cbn [fst snd].
    rewrite (IH _ s2' Hs' Hf'). reflexivity.
Qed.

(** X30.  The scan for macro redefinitions is idempotent on lines: run on the lines it produced it changes none of them and reports nothing. *)
Theorem redefinition_repair_leaves_nothing_to_repair :
  forall (lines : list string) (fixed_before : bool),
    let repaired := fst (fix_redefinitions lines (mkRedef [] [] [] fixed_before)) in
    fix_redefinitions repaired (mkRedef [] [] [] false) = (repaired, false).
Proof.
  intros lines fb repaired. apply fix_redefinitions_again; [|reflexivity].
  repeat split.
Qed.


(** ** The properties at sample inputs *)

Lemma output_components_are_known_witness :
  map fst (output_files (run_state src_ifdef_win32)) = ["box_utils"]
  /\ In "box_utils" (map fst COMPONENT_GROUPS).
Proof.
  split; [vm_compute; reflexivity|].
  apply (output_components_are_known src_ifdef_win32 "box_utils"
           (snd (hd (EmptyString, []) (output_files (run_state src_ifdef_win32))))).
  vm_compute. left. reflexivity.
Defined.

Lemma every_symbol_gets_a_component_witness :
  exists i c,
    dict_get "box_f" (symbol_map (run_state src_typedef_in_conditional)) = Some i
    /\ component i = Some c
    /\ In c (map fst COMPONENT_GROUPS).
Proof.
  apply (every_symbol_gets_a_component src_typedef_in_conditional
           (hd func_box_f (functions (extract_symbols src_typedef_in_conditional init_state)))).
  vm_compute. left. reflexivity.
Defined.

Lemma component_lists_in_source_order_witness :
  StronglySorted (fun a b => start a <= start b)
    (snd (hd (EmptyString, []) (output_files (run_state src_two_blocks)))).
Proof.
  apply (component_lists_in_source_order (extract_symbols src_two_blocks init_state) "common").
  vm_compute. left. reflexivity.
Defined.

Lemma first_declaring_component_stops_synthesis_witness :
  let st := run_state src_typedef_in_conditional in
  let fs := fst (create_output_files st []) in
  dict_get (h_path "box_utils") fs = Some EmptyString
  /\ dict_get (c_path "box_utils") fs
     = Some (impl_of "box_utils" (snd (hd (EmptyString, []) (output_files st)))
               (snd (header_of st "box_utils" (snd (hd (EmptyString, []) (output_files st)))))).
Proof.
  intros st fs.
  apply (first_declaring_component_stops_synthesis st [] [] "box_utils"
           (snd (hd (EmptyString, []) (output_files st)))
           (tl (output_files st))).
  - vm_compute. reflexivity.
  - reflexivity.
  - vm_compute. reflexivity.
Defined.

Lemma component_files_hold_header_and_implementation_witness :
  let st := run_state src_two_blocks in
  let elements := snd (hd (EmptyString, []) (output_files st)) in
  exists h,
    fst (header_of st "common" elements) = PStr h
    /\ dict_get (h_path "common") (fst (create_output_files st [])) = Some h
    /\ dict_get (c_path "common") (fst (create_output_files st []))
       = Some (impl_of "common" elements (snd (header_of st "common" elements))).
Proof.
  intros st elements.
  apply (component_files_hold_header_and_implementation st [] "common" elements).
  - apply run_keys_distinct.
  - vm_compute. reflexivity.
  - vm_compute. left. reflexivity.
Defined.

Lemma synthesis_writes_only_component_files_witness :
  dict_get main_header_path (fst (create_output_files (run_state src_two_blocks) []))
  = None.
Proof.
  apply (synthesis_writes_only_component_files (run_state src_two_blocks) []
           main_header_path).
  - apply main_header_is_no_component_file.
  - intros k _. apply main_header_is_no_component_file.
Defined.

Lemma header_is_wrapped_in_its_guard_witness :
  exists middle,
    fst (header_of init_state "box_utils" [func_box_f])
    = PStr (header_prologue "box_utils" +++ middle
            +++ Py.nl +++ "#endif /* SOD_" +++ Py.upper "box_utils" +++ "_H__ */" +++ Py.nl).
Proof.
  apply (header_is_wrapped_in_its_guard init_state "box_utils" [func_box_f]).
  vm_compute. reflexivity.
Defined.

Lemma nonstatic_prototype_is_in_the_header_witness :
  exists h,
    fst (header_of init_state "box_utils" [func_box_f]) = PStr h
    /\ Py.contains h ("int box_f(void);" +++ Py.nl +++ Py.nl) = true.
Proof.
  eexists. split; [vm_compute; reflexivity|].
  apply (nonstatic_prototype_is_in_the_header init_state "box_utils" [func_box_f]
           func_box_f "int box_f(void);").
  - left. reflexivity.
  - reflexivity.
  - vm_compute. reflexivity.
  - vm_compute. reflexivity.
  - vm_compute. reflexivity.
Defined.

Lemma common_header_is_replaced_by_component_header_witness :
  let st := run_state src_two_blocks in
  let elements := snd (hd (EmptyString, []) (output_files st)) in
  exists h,
    fst (header_of st "common" elements) = PStr h
    /\ dict_get (h_path "common") (fst (create_output_files st [])) = Some h
    /\ dict_get (h_path "common") (_create_common_header st []) <> Some h.
Proof.
  intros st elements.
  apply (common_header_is_replaced_by_component_header src_two_blocks elements).
  - vm_compute. left. reflexivity.
  - vm_compute. reflexivity.
Defined.

Lemma includes_have_the_directive_form_witness :
  let e := hd func_box_f (extract_includes src_include_and_comment []) in
  name e = "stdio.h"
  /\ type e = TInclude
  /\ include_form (content e) (name e)
  /\ Py.slice (start e) (end_ e) src_include_and_comment = content e
  /\ start e < end_ e <= String.length src_include_and_comment.
Proof.
  intro e. split; [vm_compute; reflexivity|].
  apply (includes_have_the_directive_form src_include_and_comment e).
  vm_compute. left. reflexivity.
Defined.

Lemma comments_have_the_comment_form_witness :
  let e := hd func_box_f (extract_comments src_include_and_comment []) in
  content e = "/* sizes */"
  /\ type e = TComment
  /\ name e = "comment"
  /\ comment_form (content e)
  /\ Py.slice (start e) (end_ e) src_include_and_comment = content e
  /\ start e < end_ e <= String.length src_include_and_comment.
Proof.
  intro e. split; [vm_compute; reflexivity|].
  apply (comments_have_the_comment_form src_include_and_comment e).
  vm_compute. left. reflexivity.
Defined.

Lemma emitted_text_has_no_stray_line_witness :
  In "  else" (Py.splitlines (content func_with_else))
  /\ Forall (fun line => stray_line line = false)
            (Py.splitlines (emit_impl_element func_with_else)).
Proof.
  split; [vm_compute; tauto|].
  apply (emitted_text_has_no_stray_line func_with_else). left. reflexivity.
Defined.

Lemma main_header_includes_every_component_witness :
  let st := run_state src_ifdef_win32 in
  exists h,
    dict_get main_header_path (create_main_header st []) = Some h
    /\ Py.contains h ("#include " +++ dq +++ "sod/sod_" +++ "box_utils" +++ ".h" +++ dq
                        +++ Py.nl) = true
    /\ Py.contains h ("#include " +++ dq +++ "sod/sod_common.h" +++ dq +++ Py.nl) = true.
Proof.
  intro st.
  apply (main_header_includes_every_component st [] "box_utils"
           (snd (hd (EmptyString, []) (output_files st)))).
  - vm_compute. left. reflexivity.
  - discriminate.
Defined.

Lemma extracted_declarations_reach_their_header_witness :
  let st0 := extract_symbols src_layer_typedef init_state in
  let st := map_symbols_to_components st0 in
  let e := hd func_box_f (typedefs st0) in
  exists h,
    dict_get (h_path (typedef_component e)) (fst (create_output_files st [])) = Some h
    /\ Py.contains h (content e +++ Py.nl +++ Py.nl) = true.
Proof.
  intros st0 st e.
  refine (proj1 (proj2 (proj2
            (extracted_declarations_reach_their_header src_layer_typedef [] e _))) _).
  - vm_compute. reflexivity.
  - vm_compute. left. reflexivity.
Defined.

Lemma extracted_code_reaches_an_implementation_file_witness :
  let st0 := extract_symbols src_ifdef_win32 init_state in
  let st := map_symbols_to_components st0 in
  let e := hd func_box_f (functions st0) in
  exists body,
    dict_get (c_path (function_component e)) (fst (create_output_files st [])) = Some body
    /\ Py.contains body (emit_impl_element e) = true.
Proof.
  intros st0 st e.
  refine (proj1 (extracted_code_reaches_an_implementation_file src_ifdef_win32 [] e _) _).
  - vm_compute. reflexivity.
  - vm_compute. left. reflexivity.
Defined.

Lemma added_braces_balance_outside_comments_witness :
  brace_balance_of (Py.split "010" (fst (fix_braces "int f(void) {"))) = 0%Z.
Proof.
  exact (added_braces_balance_outside_comments "int f(void) {" eq_refl).
Defined.

